(** * did:bsv chain-link codec, resolver and update engine

    A shallow embedding of [src/modules/did.ts] and
    [src/server/did-resolver.ts].  JavaScript strings are lists of UTF-16
    code units, numbers are integers or [NaN], byte arrays are lists of
    numbers.  An array holds a bounded number of elements: a [push] on a
    full array throws a [RangeError].  Loops that the source bounds by a
    counter are structural recursions on that counter; the loops that are
    not (the push reader of the server decoder, the hops of the server
    crawl when [maxHops] is beyond every count) carry fuel and give no
    result when the fuel is used up. *)

From Stdlib Require Import ZArith QArith Qround List Lia Bool String Ascii.
From stdpp Require Import base list gmap.
From Equations Require Import Equations.
Import ListNotations.

Local Open Scope Z_scope.

(* ===================================================================== *)
(** ** JavaScript values *)
(* ===================================================================== *)

Module JS.

(** A string is the list of its UTF-16 code units. *)
Definition jsstring := list Z.

(** A string literal (ASCII). *)
Definition lit (s : string) : jsstring :=
  List.map (fun a => Z.of_N (N_of_ascii a)) (list_ascii_of_string s).

(** Numbers as the decoders meet them: an integer, or [NaN].  [undefined]
    (an array read out of range) is folded into [NaN]: both fail every
    comparison, both convert to 0 under [ToInt32], and adding either to a
    number gives [NaN]. *)
Inductive num := NaN | Int (z : Z).

Definition num_eqb (a : num) (z : Z) : bool :=
  match a with NaN => false | Int x => x =? z end.

(** [ToInt32]: wrap to the signed 32-bit range; [NaN] becomes 0. *)
Definition wrap32 (z : Z) : Z := (z + 2 ^ 31) mod 2 ^ 32 - 2 ^ 31.
Definition toInt32 (a : num) : Z :=
  match a with NaN => 0 | Int z => wrap32 z end.

(** [a | b] and [a << k] on numbers. *)
Definition bitor (a b : num) : num := Int (wrap32 (Z.lor (toInt32 a) (toInt32 b))).
Definition shl (a : num) (k : Z) : num := Int (wrap32 (Z.shiftl (toInt32 a) k)).

(** [i + len] where [i] is an integer. *)
Definition addz (i : Z) (len : num) : num :=
  match len with NaN => NaN | Int l => Int (i + l) end.

(** [a > n]; false when [a] is [NaN]. *)
Definition gtb (a : num) (n : Z) : bool :=
  match a with NaN => false | Int z => n <? z end.

(** [arr[i]] on an array of numbers. *)
Definition index (arr : list num) (i : Z) : num :=
  if i <? 0 then NaN else nth (Z.to_nat i) arr NaN.

(** [ToIntegerOrInfinity] followed by the clamping of a relative index that
    [Array.prototype.slice] applies to each of its arguments. *)
Definition clampIndex (len : Z) (rel : num) : Z :=
  match rel with
  | NaN => 0
  | Int r => if r <? 0 then Z.max (len + r) 0 else Z.min r len
  end.

(** [arr.slice(start, end)]. *)
Definition slice {A} (arr : list A) (start endd : num) : list A :=
  let len := Z.of_nat (List.length arr) in
  let k := clampIndex len start in
  let final := clampIndex len endd in
  firstn (Z.to_nat (final - k)) (skipn (Z.to_nat k) arr).

(** [new Uint8Array(data)]: each element is converted with [ToUint8]. *)
Definition toUint8 (a : num) : Z :=
  match a with NaN => 0 | Int z => z mod 256 end.
Definition Uint8Array (data : list num) : list Z := List.map toUint8 data.

(** *** [parseInt(s, 16)] *)

(** White space and line terminators skipped by [parseInt]. *)
Definition isWhiteSpace (c : Z) : bool :=
  ((9 <=? c) && (c <=? 13)) || (c =? 32) || (c =? 160) || (c =? 5760)
  || ((8192 <=? c) && (c <=? 8202)) || (c =? 8232) || (c =? 8233)
  || (c =? 8239) || (c =? 8287) || (c =? 12288) || (c =? 65279).

Definition hexDigit (c : Z) : option Z :=
  if (48 <=? c) && (c <=? 57) then Some (c - 48)
  else if (97 <=? c) && (c <=? 102) then Some (c - 87)
  else if (65 <=? c) && (c <=? 70) then Some (c - 55)
  else None.

Fixpoint trimStart (s : jsstring) : jsstring :=
  match s with
  | c :: r => if isWhiteSpace c then trimStart r else s
  | [] => []
  end.

(** The longest prefix of hexadecimal digits, read as a number; [None]
    when the prefix is empty. *)
Fixpoint hexPrefix (acc : option Z) (s : jsstring) : option Z :=
  match s with
  | [] => acc
  | c :: r =>
      match hexDigit c with
      | None => acc
      | Some d => hexPrefix (Some (16 * default 0 acc + d)) r
      end
  end.

Definition parseInt16 (s : jsstring) : num :=
  let s1 := trimStart s in
  let '(sign, s2) :=
    match s1 with
    | 45 :: r => (-1, r)
    | 43 :: r => (1, r)
    | _ => (1, s1)
    end in
  let s3 :=
    match s2 with
    | 48 :: x :: r => if (x =? 120) || (x =? 88) then r else s2
    | _ => s2
    end in
  match hexPrefix None s3 with
  | None => NaN
  | Some v => Int (sign * v)
  end.

(** *** [new TextDecoder().decode(bytes)]

    The UTF-8 decoder of the Encoding Standard, in replacement mode, with
    the byte order mark removed. *)

Record utf8_state := Utf8State {
  u_cp : Z; u_seen : Z; u_needed : Z; u_lower : Z; u_upper : Z }.

(** The handling of a byte when no sequence is in progress: code points
    emitted and the state after the byte. *)
Definition utf8_lead (b : Z) : list Z * option utf8_state :=
  if (0 <=? b) && (b <=? 127) then ([b], None)
  else if (194 <=? b) && (b <=? 223) then
    ([], Some (Utf8State (Z.land b 31) 0 1 128 191))
  else if (224 <=? b) && (b <=? 239) then
    ([], Some (Utf8State (Z.land b 15) 0 2
                 (if b =? 224 then 160 else 128)
                 (if b =? 237 then 159 else 191)))
  else if (240 <=? b) && (b <=? 244) then
    ([], Some (Utf8State (Z.land b 7) 0 3
                 (if b =? 240 then 144 else 128)
                 (if b =? 244 then 143 else 191)))
  else ([65533], None).

Fixpoint utf8_decode (st : option utf8_state) (bs : list Z) : list Z :=
  match bs with
  | [] => match st with None => [] | Some _ => [65533] end
  | b :: rest =>
      match st with
      | None =>
          let '(out, st') := utf8_lead b in out ++ utf8_decode st' rest
      | Some s =>
          if (u_lower s <=? b) && (b <=? u_upper s) then
            let cp := Z.lor (Z.shiftl (u_cp s) 6) (Z.land b 63) in
            if u_seen s + 1 =? u_needed s then cp :: utf8_decode None rest
            else utf8_decode
                   (Some (Utf8State cp (u_seen s + 1) (u_needed s) 128 191)) rest
          else
            let '(out, st') := utf8_lead b in
            65533 :: out ++ utf8_decode st' rest
      end
  end.

(** A code point as UTF-16 code units. *)
Definition utf16_units (cp : Z) : list Z :=
  if cp <? 65536 then [cp]
  else [55296 + Z.shiftr (cp - 65536) 10; 56320 + Z.land (cp - 65536) 1023].

Definition stripBOM (cps : list Z) : list Z :=
  match cps with
  | 65279 :: r => r
  | _ => cps
  end.

Definition TextDecoder_decode (bytes : list Z) : jsstring :=
  flat_map utf16_units (stripBOM (utf8_decode None bytes)).

End JS.
Import JS.

(* ===================================================================== *)
(** ** The server-side decoder ([server/did-resolver.ts]) *)
(* ===================================================================== *)

Module Server.

(** [hexToBytes]: one [parseInt] per two code units; a trailing single
    code unit is parsed on its own.  This is the array when every [push]
    succeeds; [parseOpReturnSegments] accounts for the one that does
    not. *)
Fixpoint hexToBytes (hex : jsstring) : list num :=
  match hex with
  | [] => []
  | [c] => [parseInt16 [c]]
  | c1 :: c2 :: rest => parseInt16 [c1; c2] :: hexToBytes rest
  end.

(** The first loop of [parseOpReturnSegments]: the index just after the
    first byte equal to [0x6a], or the length when there is none.  [rest]
    is the part of the array from index [i] on. *)
Fixpoint skipToOpReturn (rest : list num) (i : Z) : Z :=
  match rest with
  | [] => i
  | b :: rest' => if num_eqb b 106 then i + 1 else skipToOpReturn rest' (i + 1)
  end.

(** The length of the push that opcode [op] announces, with the index
    after the length bytes; [Stop] where the source breaks out of the
    loop. *)
Inductive pushLen := Stop | Len (len : num) (i : Z).

Definition readLen (bytes : list num) (op : num) (i : Z) : pushLen :=
  let n := Z.of_nat (length bytes) in
  match op with
  | NaN => Stop
  | Int o =>
      if (1 <=? o) && (o <=? 75) then Len (Int o) i
      else if o =? 76 then
        if n <=? i then Stop else Len (index bytes i) (i + 1)
      else if o =? 77 then
        if n <=? i + 1 then Stop
        else Len (bitor (index bytes i) (shl (index bytes (i + 1)) 8)) (i + 2)
      else if o =? 78 then
        if n <=? i + 3 then Stop
        else Len (bitor (bitor (bitor (index bytes i)
                                      (shl (index bytes (i + 1)) 8))
                               (shl (index bytes (i + 2)) 16))
                        (shl (index bytes (i + 3)) 24)) (i + 4)
      else Stop
  end.

(** How the statements of the [try] block end: normally, with the value
    of [segments], or with the [RangeError] that [push] throws on an array
    that cannot grow. *)
Inductive completion := Normal (segments : list jsstring) | RangeError.

(** The second loop, [while (i < bytes.length)].  An iteration that does
    not leave the loop pushes one segment; [capacity] is the number of
    elements that an array can hold (2^32 - 1 by the language, less where
    the engine refuses earlier), and the [push] on an array of that length
    throws.  The model takes fuel: [None] means that the loop is still
    running when the fuel is used up. *)
Fixpoint readPushes (fuel capacity : nat) (bytes : list num) (i : Z)
    (segments : list jsstring) : option completion :=
  match fuel with
  | O => None
  | S fuel' =>
      if Z.of_nat (length bytes) <=? i then Some (Normal segments)
      else
        match readLen bytes (index bytes i) (i + 1) with
        | Stop => Some (Normal segments)
        | Len len i' =>
            if gtb (addz i' len) (Z.of_nat (length bytes)) then
              Some (Normal segments)
            else
              let data := slice bytes (Int i') (addz i' len) in
              if (capacity <=? length segments)%nat then Some RangeError
              else
                let segments' :=
                  segments ++ [TextDecoder_decode (Uint8Array data)] in
                match len with
                | NaN => Some (Normal segments')
                | Int l => readPushes fuel' capacity bytes (i' + l) segments'
                end
        end
  end.

(** [parseOpReturnSegments].  Array reads out of range give [undefined]
    and the decoder is in replacement mode, so the only exceptions of the
    [try] block are those of [push]: in [hexToBytes], when the script has
    more bytes than an array holds, and in the second loop.  The [catch]
    returns the empty list. *)
Definition parseOpReturnSegments (fuel capacity : nat) (hexScript : jsstring)
    : option (list jsstring) :=
  let bytes := hexToBytes hexScript in
  if (capacity <? length bytes)%nat then Some []
  else
    let i := skipToOpReturn bytes 0 in
    if Z.of_nat (length bytes) <=? i then Some []
    else
      match readPushes fuel capacity bytes i [] with
      | None => None
      | Some (Normal segments) => Some segments
      | Some RangeError => Some []
      end.

(** The call returns [segs]. *)
Definition returns (capacity : nat) (hexScript : jsstring)
    (segs : list jsstring) : Prop :=
  exists fuel, parseOpReturnSegments fuel capacity hexScript = Some segs.

(** The value of a call.  The second loop makes at most [capacity + 1]
    iterations, each but the last pushing a segment, so that much fuel
    gives the result ([CodecFacts.decode_returns]). *)
Definition decode (capacity : nat) (hexScript : jsstring) : list jsstring :=
  default [] (parseOpReturnSegments (S capacity) capacity hexScript).

(** The largest length of an array of the language. *)
Definition arrayLimit : nat := Z.to_nat 4294967295.

End Server.

(* ===================================================================== *)
(** ** The script and encoding API of the SDK that [modules/did.ts] calls *)
(* ===================================================================== *)

(** [@bsv/sdk] is a dependency of the repository.  The model covers the
    calls made by [buildOpReturn] and [parseOpReturnSegments]: a script is
    its list of chunks, one chunk per opcode, a push opcode carrying its
    data; serialisation uses the four push encodings of the script
    format; parsing a truncated push takes the bytes that remain, and
    parsing an [OP_RETURN] outside of a conditional block takes the rest
    of the script as the data of that one chunk. *)
Module Sdk.

Definition OP_FALSE : Z := 0.
Definition OP_PUSHDATA1 : Z := 76.
Definition OP_PUSHDATA2 : Z := 77.
Definition OP_PUSHDATA4 : Z := 78.
Definition OP_IF : Z := 99.
Definition OP_NOTIF : Z := 100.
Definition OP_VERIF : Z := 101.
Definition OP_VERNOTIF : Z := 102.
Definition OP_ENDIF : Z := 104.
Definition OP_RETURN : Z := 106.

Record ScriptChunk := Chunk { op : Z; data : option (list Z) }.

Definition Script := list ScriptChunk.

(** [Utils.toArray(str, 'utf8')]. *)
Fixpoint utf8ToArray (s : jsstring) : list Z :=
  match s with
  | [] => []
  | c :: r =>
      if c <? 128 then c :: utf8ToArray r
      else if c <? 2048 then
        Z.lor 192 (Z.shiftr c 6) :: Z.lor 128 (Z.land c 63) :: utf8ToArray r
      else if (55296 <=? c) && (c <? 56320) then
        match r with
        | c2 :: r' =>
            if (56320 <=? c2) && (c2 <? 57344) then
              let cp := 65536 + Z.shiftl (c - 55296) 10 + (c2 - 56320) in
              Z.lor 240 (Z.shiftr cp 18)
                :: Z.lor 128 (Z.land (Z.shiftr cp 12) 63)
                :: Z.lor 128 (Z.land (Z.shiftr cp 6) 63)
                :: Z.lor 128 (Z.land cp 63) :: utf8ToArray r'
            else 239 :: 191 :: 189 :: utf8ToArray r
        | [] => [239; 191; 189]
        end
      else if (56320 <=? c) && (c <? 57344) then
        239 :: 191 :: 189 :: utf8ToArray r
      else
        Z.lor 224 (Z.shiftr c 12)
          :: Z.lor 128 (Z.land (Z.shiftr c 6) 63)
          :: Z.lor 128 (Z.land c 63) :: utf8ToArray r
  end.

(** [Utils.toHex(bytes)]: two lower-case digits per byte. *)
Definition hexChar (d : Z) : Z := if d <? 10 then 48 + d else 87 + d.

Definition toHex (bytes : list Z) : jsstring :=
  flat_map (fun b => [hexChar (b / 16); hexChar (b mod 16)]) bytes.

(** [Utils.toArray(hex, 'hex')] on a string that passed the checks of
    [Script.fromHex]. *)
Fixpoint hexToArray (hex : jsstring) : list Z :=
  match hex with
  | c1 :: c2 :: rest =>
      (16 * default 0 (hexDigit c1) + default 0 (hexDigit c2)) :: hexToArray rest
  | _ => []
  end.

(** [new Script().writeOpCode(op)] and [.writeBin(bin)], as functions of
    the chunks written so far.  [writeBin] throws ([None]) from 2^32 bytes
    on. *)
Definition writeOpCode (s : Script) (o : Z) : Script := s ++ [Chunk o None].

Definition writeBin (s : Script) (bin : list Z) : option Script :=
  let n := Z.of_nat (length bin) in
  if (0 <? n) && (n <? OP_PUSHDATA1) then Some (s ++ [Chunk n (Some bin)])
  else if n =? 0 then Some (s ++ [Chunk OP_FALSE None])
  else if n <? 2 ^ 8 then Some (s ++ [Chunk OP_PUSHDATA1 (Some bin)])
  else if n <? 2 ^ 16 then Some (s ++ [Chunk OP_PUSHDATA2 (Some bin)])
  else if n <? 2 ^ 32 then Some (s ++ [Chunk OP_PUSHDATA4 (Some bin)])
  else None.

(** Little-endian bytes of a length, and back; bytes missing at the end of
    the input read as 0. *)
Fixpoint leBytes (n : nat) (v : Z) : list Z :=
  match n with
  | O => []
  | S n' => v mod 256 :: leBytes n' (v / 256)
  end.

Fixpoint leValue (n : nat) (bs : list Z) : Z :=
  match n with
  | O => 0
  | S n' =>
      match bs with
      | [] => 0
      | b :: r => b + 256 * leValue n' r
      end
  end.

(** [script.toBinary()] and [script.toHex()], for the chunks that
    [writeOpCode] and [writeBin] write. *)
Definition chunkBytes (c : ScriptChunk) : list Z :=
  match data c with
  | None => [op c]
  | Some d =>
      let n := Z.of_nat (length d) in
      if op c <? OP_PUSHDATA1 then op c :: d
      else if op c =? OP_PUSHDATA1 then op c :: leBytes 1 n ++ d
      else if op c =? OP_PUSHDATA2 then op c :: leBytes 2 n ++ d
      else if op c =? OP_PUSHDATA4 then op c :: leBytes 4 n ++ d
      else [op c]
  end.

Definition toBinary (s : Script) : list Z := flat_map chunkBytes s.

Definition Script_toHex (s : Script) : jsstring := toHex (toBinary s).

(** The counter [inConditionalBlock] of [Script.fromBinary] after the
    opcode [o]. *)
Definition conditionalStep (inConditionalBlock : Z) (o : Z) : Z :=
  if (o =? OP_IF) || (o =? OP_NOTIF) || (o =? OP_VERIF) || (o =? OP_VERNOTIF)
  then inConditionalBlock + 1
  else if o =? OP_ENDIF then inConditionalBlock - 1
  else inConditionalBlock.

(** [Script.fromBinary(bin)]: the loop reads an opcode.  At [OP_RETURN]
    with the counter at 0 it stores the bytes that remain as the data of
    the chunk and stops; otherwise it updates the counter and reads the
    length and the data of a push. *)
Equations? parseChunks (inConditionalBlock : Z) (bs : list Z) : Script
    by wf (length bs) lt :=
  parseChunks _ [] := [];
  parseChunks inConditionalBlock (o :: rest) :=
    if (o =? OP_RETURN) && (inConditionalBlock =? 0) then [Chunk o (Some rest)]
    else
      let inConditionalBlock' := conditionalStep inConditionalBlock o in
      if (0 <? o) && (o <? OP_PUSHDATA1) then
        Chunk o (Some (take (Z.to_nat o) rest))
          :: parseChunks inConditionalBlock' (drop (Z.to_nat o) rest)
      else if o =? OP_PUSHDATA1 then
        let len := Z.to_nat (leValue 1 rest) in
        Chunk o (Some (take len (drop 1 rest)))
          :: parseChunks inConditionalBlock' (drop len (drop 1 rest))
      else if o =? OP_PUSHDATA2 then
        let len := Z.to_nat (leValue 2 rest) in
        Chunk o (Some (take len (drop 2 rest)))
          :: parseChunks inConditionalBlock' (drop len (drop 2 rest))
      else if o =? OP_PUSHDATA4 then
        let len := Z.to_nat (leValue 4 rest) in
        Chunk o (Some (take len (drop 4 rest)))
          :: parseChunks inConditionalBlock' (drop len (drop 4 rest))
      else Chunk o None :: parseChunks inConditionalBlock' rest.
Proof.
  all: rewrite ?length_drop; simpl; lia.
Qed.

(** [Script.fromHex(hex)]: throws ([None]) on an odd number of characters
    or on a character that is not a hexadecimal digit. *)
Definition Script_fromHex (hex : jsstring) : option Script :=
  if negb (Nat.even (length hex)) then None
  else if negb (forallb (fun c => bool_decide (is_Some (hexDigit c))) hex) then None
  else Some (parseChunks 0 (hexToArray hex)).

End Sdk.

(* ===================================================================== *)
(** ** The codec of [modules/did.ts] *)
(* ===================================================================== *)

Module Did.

Import Sdk.

Definition BSVDID_MARKER : jsstring := lit "BSVDID".

(** [buildOpReturn]; [None] when a [writeBin] throws. *)
Definition buildOpReturn (identityCode payload : jsstring) : option Script :=
  let s := writeOpCode (writeOpCode [] OP_FALSE) OP_RETURN in
  s ← writeBin s (utf8ToArray BSVDID_MARKER);
  s ← writeBin s (utf8ToArray identityCode);
  writeBin s (utf8ToArray payload).

(** The first loop of [parseOpReturnSegments]: the chunks after the first
    [OP_RETURN] chunk, [None] when [startIdx] stays negative. *)
Fixpoint afterOpReturn (chunks : Script) : option Script :=
  match chunks with
  | [] => None
  | c :: rest => if op c =? OP_RETURN then Some rest else afterOpReturn rest
  end.

(** The second loop: the decoded data of every chunk that has data. *)
Fixpoint collectSegments (chunks : Script) : list jsstring :=
  match chunks with
  | [] => []
  | c :: rest =>
      match data c with
      | Some d => TextDecoder_decode d :: collectSegments rest
      | None => collectSegments rest
      end
  end.

(** [parseOpReturnSegments]: the [catch] branch returns the empty list.
    A chunk has data when its [data] is an array, empty or not. *)
Definition parseOpReturnSegments (scriptHex : jsstring) : list jsstring :=
  match Script_fromHex scriptHex with
  | None => []
  | Some chunks =>
      match afterOpReturn chunks with
      | None => []
      | Some rest => collectSegments rest
      end
  end.

End Did.


(* ===================================================================== *)
(** ** Resolution results and the chain crawl *)
(* ===================================================================== *)

Module Chain.

(** *** The chain-indexing API *)

(** [GET /tx/{txid}]: the fields of the body that the crawl reads.  [hex]
    is [vout.scriptPubKey.hex], [address0] is
    [vout.scriptPubKey.addresses[0]].  The bodies have the types that the
    API documents: [time] is a whole number of seconds ([None] when the
    field is missing), [vout] an array, scripts, addresses and transaction
    ids strings. *)
Record vout := Vout { hex : option jsstring; address0 : option jsstring }.

Record txData := TxData { time : option Z; vouts : list vout }.

(** A fetch of a transaction: the call or the reading of its body throws,
    the response is not [ok], or the body is read. *)
Inductive txResponse := TxThrows | TxNotOk | TxOk (d : txData).

(** [GET /address/{addr}/history]. *)
Record historyEntry := HistoryEntry { tx_hash : jsstring; height : Z }.

(** One answer per hop and request.  The answers may change from hop to
    hop.  [fetchSpend] is the [txid] field of an [ok] answer of the spend
    endpoint, [None] for every other case (404, error status, exception,
    no [txid]); [fetchHistory] is the array of an [ok] answer of the
    history endpoint, [None] when the call fails. *)
Record api := Api {
  fetchTx : nat -> jsstring -> txResponse;
  fetchSpend : nat -> jsstring -> option jsstring;
  fetchHistory : nat -> jsstring -> option (list historyEntry) }.

(** *** Resolution results *)

(** [didDocumentMetadata].  [created] and [updated] keep the transaction
    time from which the ISO string is printed. *)
Record metadata := Metadata {
  created : option Z;
  updated : option Z;
  deactivated : bool;
  versionId : option jsstring }.

(** A resolution result, with the [error] of [didResolutionMetadata]; the
    [message] and the [contentType] are left out. *)
Record result (D : Type) := Result {
  didDocument : option D;
  didDocumentMetadata : metadata;
  error : option jsstring }.

Arguments Result {D} _ _ _.
Arguments didDocument {D} _.
Arguments didDocumentMetadata {D} _.
Arguments error {D} _.

Definition noMetadata : metadata := Metadata None None false None.

Definition notFound {D} : result D := Result None noMetadata (Some (lit "notFound")).

Definition internalError {D} : result D :=
  Result None noMetadata (Some (lit "internalError")).

(** A value used as a condition: a string is truthy when it is not empty, a
    number when it is not 0. *)
Definition truthyString (s : option jsstring) : option jsstring :=
  match s with
  | Some [] => None
  | _ => s
  end.

Definition truthyNumber (n : option Z) : option Z :=
  match n with
  | Some 0 => None
  | _ => n
  end.

(** [new Date(t * 1000)] is a valid date when the time value is within
    8.64e15 milliseconds of the epoch; [toISOString] throws a [RangeError]
    on any other. *)
Definition dateInRange (t : Z) : bool := Z.abs (t * 1000) <=? 8640000000000000.

(** [txData.time ? new Date(txData.time * 1000).toISOString() : undefined]:
    the time that is printed, [Some None] for [undefined], and [None] when
    [toISOString] throws. *)
Definition isoTime (d : txData) : option (option Z) :=
  match truthyNumber (time d) with
  | None => Some None
  | Some t => if dateInRange t then Some (Some t) else None
  end.

(** [history.sort((a, b) => (b.height || 0) - (a.height || 0))]: a stable
    sort, highest first. *)
Fixpoint insertByHeight (e : historyEntry) (sorted : list historyEntry)
    : list historyEntry :=
  match sorted with
  | [] => [e]
  | x :: rest =>
      if height x <=? height e then e :: sorted
      else x :: insertByHeight e rest
  end.

Definition sortByHeight (l : list historyEntry) : list historyEntry :=
  foldr insertByHeight [] l.

Section Crawl.

(** The value of [JSON.parse(payload)], [None] when it throws, whether a
    parsed value is truthy, the decoder in use, and whether [maxHops]
    bounds the number of hops. *)
Context {json : Type}.
Variable JSON_parse : jsstring -> option json.
Variable truthy : json -> bool.
Variable decode : jsstring -> list jsstring.
Variable bounded : bool.

Definition BSVDID_MARKER : jsstring := lit "BSVDID".

(** The local variables of the loop; [visited] is a set without bound on
    its size, as in the language. *)
Record state := State {
  currentTxid : jsstring;
  lastDocument : option json;
  lastDocTxid : option jsstring;
  st_created : option Z;
  st_updated : option Z;
  foundIssuance : bool;
  visited : gset jsstring }.

(** How a call ends: it returns, it throws, or it has not ended (a loop
    without hop limit that is still running when the fuel of the model is
    used up; a resolver that gives no answer). *)
Inductive outcome := Returned (r : result json) | Threw | Hung.

(** The scan of the outputs: the segments of the first output whose script
    decodes to at least three segments, the first being the marker. *)
Fixpoint findSegments (outs : list vout) : list jsstring :=
  match outs with
  | [] => []
  | v :: rest =>
      match truthyString (hex v) with
      | None => findSegments rest
      | Some h =>
          let s := decode h in
          if bool_decide (3 <= length s)%nat
             && bool_decide (s !! 0%nat = Some BSVDID_MARKER)
          then s
          else findSegments rest
      end
  end.

(** The next hop: the spend endpoint, then the address history of output
    0, from which visited transactions are dropped. *)
Definition nextHop (a : api) (hop : nat) (txid : jsstring) (d : txData)
    (seen : gset jsstring) : option jsstring :=
  match truthyString (fetchSpend a hop txid) with
  | Some next => Some next
  | None =>
      match truthyString (head (vouts d) ≫= address0) with
      | None => None
      | Some addr =>
          match fetchHistory a hop addr with
          | None => None
          | Some history =>
              let candidates :=
                sortByHeight
                  (List.filter (fun e => negb (bool_decide (tx_hash e ∈ seen)))
                     history) in
              truthyString (tx_hash <$> head candidates)
          end
      end
  end.

(** The returns after the loop. *)
Definition finish (st : state) : result json :=
  match lastDocument st with
  | Some doc =>
      if truthy doc then
        Result (Some doc)
          (Metadata (st_created st) (st_updated st) false (lastDocTxid st)) None
      else if foundIssuance st then
        Result None (Metadata (st_created st) None false None)
          (Some (lit "notYetAvailable"))
      else notFound
  | None =>
      if foundIssuance st then
        Result None (Metadata (st_created st) None false None)
          (Some (lit "notYetAvailable"))
      else notFound
  end.

(** The effect of the payload of a transaction on the local variables;
    [inl] is the return at a revocation marker.  The three assignments of
    the document case are inside a [try]: when [JSON.parse] throws none is
    made, and when [toISOString] throws [updated] keeps its value. *)
Definition applyPayload (st : state) (d : txData) (segments : list jsstring)
    : result json + state :=
  match segments with
  | _ :: _ :: payload :: _ =>
      if bool_decide (payload = lit "3") then
        inl (Result (lastDocument st)
               (Metadata (st_created st) (st_updated st) true
                  (Some (currentTxid st))) None)
      else if bool_decide (payload = lit "2") then inr st
      else if bool_decide (payload = lit "1") then
        inr (State (currentTxid st) (lastDocument st) (lastDocTxid st)
               (st_created st) (st_updated st) true (visited st))
      else
        match JSON_parse payload with
        | Some doc =>
            inr (State (currentTxid st) (Some doc) (Some (currentTxid st))
                   (st_created st)
                   (match isoTime d with
                    | Some u => u
                    | None => st_updated st
                    end)
                   (foundIssuance st) (visited st))
        | None => inr st
        end
  | _ => inr st
  end.

(** [if (!created) created = ...]: the value of [created] after the
    statement, [None] when [toISOString] throws. *)
Definition setCreated (st : state) (d : txData) : option (option Z) :=
  match st_created st with
  | Some c => Some (Some c)
  | None => isoTime d
  end.

(** The loop [for (let hop = 0; hop < maxHops; hop++)], by recursion on
    the hops that are left: the hops up to [maxHops] when it bounds the
    loop, the fuel of the model when it does not.  Next to the outcome it
    gives the transactions fetched, in order. *)
Fixpoint crawl (a : api) (hopsLeft hop : nat) (st : state)
    : outcome * list (jsstring * txResponse) :=
  match hopsLeft with
  | O => (if bounded then Returned (finish st) else Hung, [])
  | S hopsLeft' =>
      if bool_decide (currentTxid st ∈ visited st) then (Returned (finish st), [])
      else
        let seen := visited st ∪ {[ currentTxid st ]} in
        let resp := fetchTx a hop (currentTxid st) in
        match resp with
        | TxThrows => (Threw, [(currentTxid st, resp)])
        | TxNotOk => (Returned notFound, [(currentTxid st, resp)])
        | TxOk d =>
            match setCreated st d with
            | None => (Threw, [(currentTxid st, resp)])
            | Some created' =>
                let st1 :=
                  State (currentTxid st) (lastDocument st) (lastDocTxid st)
                    created' (st_updated st) (foundIssuance st) seen in
                match applyPayload st1 d (findSegments (vouts d)) with
                | inl r => (Returned r, [(currentTxid st, resp)])
                | inr st2 =>
                    match nextHop a hop (currentTxid st) d seen with
                    | None => (Returned (finish st2), [(currentTxid st, resp)])
                    | Some next =>
                        let '(o, trace) :=
                          crawl a hopsLeft' (S hop)
                            (State next (lastDocument st2) (lastDocTxid st2)
                               (st_created st2) (st_updated st2)
                               (foundIssuance st2) seen) in
                        (o, (currentTxid st, resp) :: trace)
                    end
                end
            end
        end
  end.

Definition initial (txid : jsstring) : state :=
  State txid None None None None false ∅.

End Crawl.

End Chain.

(* ===================================================================== *)
(** ** The two crawls and the resolution handler *)
(* ===================================================================== *)

Module DidResolver.

Import Chain.

Section WithJson.

Context {json : Type}.
Variable JSON_parse : jsstring -> option json.
Variable truthy : json -> bool.

(** [_resolveViaWhatsOnChain] of [modules/did.ts]: [maxHops] is 100, the
    decoder is the one of the module, and the [catch] around the body
    turns an exception into the [internalError] result.  (The spacing of
    the requests by [wocFetch] has no effect on the values.) *)
Definition maxHops : nat := 100.

Definition _resolveViaWhatsOnChain (a : api) (txid : jsstring)
    : outcome * list (jsstring * txResponse) :=
  let '(o, trace) :=
    crawl JSON_parse truthy Did.parseOpReturnSegments true
      a maxHops 0 (initial txid) in
  (match o with
   | Threw => Returned internalError
   | _ => o
   end, trace).

End WithJson.

End DidResolver.

Module ServerResolver.

Import Chain.

Section WithJson.

Context {json : Type}.
Variable JSON_parse : jsstring -> option json.
Variable truthy : json -> bool.

(** The value of [config.maxHops], a JavaScript number: [NaN], an infinity
    or a rational (the finite doubles are among them). *)
Inductive number := NotANumber | Infinity (negative : bool) | Finite (q : Q).

(** [this.maxHops = config?.maxHops || 100]: [undefined], 0 and [NaN] are
    falsy. *)
Definition maxHopsOf (configured : option number) : number :=
  match configured with
  | None => Finite 100
  | Some NotANumber => Finite 100
  | Some (Infinity negative) => Infinity negative
  | Some (Finite q) => if Qeq_bool q 0 then Finite 100 else Finite q
  end.

(** The iterations of [for (let hop = 0; hop < this.maxHops; hop++)] that
    no statement of the body leaves: [hop] counts up to the least whole
    number that is not below [maxHops].  There is none ([None]) for
    [Infinity], nor for a number above 2^53, where [hop++] no longer
    changes [hop]. *)
Definition hopsOf (maxHops : number) : option nat :=
  match maxHops with
  | NotANumber => Some 0%nat
  | Infinity true => Some 0%nat
  | Infinity false => None
  | Finite q =>
      if Qceiling q <=? 2 ^ 53 then Some (Z.to_nat (Qceiling q)) else None
  end.

(** [resolveViaWoC] of [server/did-resolver.ts].  [capacity] is the number
    of elements that an array holds; [fuel] is the number of hops that the
    model makes when [maxHops] does not bound the loop. *)
Definition resolveViaWoC (capacity : nat) (configured : option number)
    (fuel : nat) (a : api) (txid : jsstring)
    : outcome * list (jsstring * txResponse) :=
  match hopsOf (maxHopsOf configured) with
  | Some hops =>
      crawl JSON_parse truthy (Server.decode capacity) true
        a hops 0 (initial txid)
  | None =>
      crawl JSON_parse truthy (Server.decode capacity) false
        a fuel 0 (initial txid)
  end.

(** *** [createDIDResolverHandler]: the [GET] handler *)

Inductive body :=
  | MissingParameter
  | ResolutionBody (r : result json).

Record HandlerResponse := JsonResponse { body_of : body; status : Z }.

(** [did] is [params.get('did')]; [resolve] is [resolver.resolve].  The
    handler gives no response ([None]) while the resolver does not
    return. *)
Definition GET (resolve : jsstring -> outcome) (did : option jsstring)
    : option HandlerResponse :=
  match truthyString did with
  | None => Some (JsonResponse MissingParameter 400)
  | Some d =>
      match resolve d with
      | Returned r =>
          let status :=
            if bool_decide (error r = Some (lit "notFound")) then 404
            else if bool_decide (error r = Some (lit "internalError")) then 502
            else 200 in
          Some (JsonResponse (ResolutionBody r) status)
      | Threw => Some (JsonResponse (ResolutionBody internalError) 502)
      | Hung => None
      end
  end.

End WithJson.

End ServerResolver.

(* ===================================================================== *)
(** ** The wallet-integrated DID methods ([modules/did.ts]) *)
(* ===================================================================== *)

Module Engine.

(** *** The [DID] utility class *)

Definition DID_PREFIX : jsstring := lit "did:bsv:".

Definition isLowerHex (c : Z) : bool :=
  ((48 <=? c) && (c <=? 57)) || ((97 <=? c) && (c <=? 102)).

Definition isHex (c : Z) : bool := isLowerHex c || ((65 <=? c) && (c <=? 70)).

(** [/^[0-9a-f]{64}$/.test(s)] and [/^[0-9a-fA-F]{66}$/.test(s)]. *)
Definition isTxid (s : jsstring) : bool :=
  bool_decide (length s = 64%nat) && forallb isLowerHex s.

Definition isPubKeyHex (s : jsstring) : bool :=
  bool_decide (length s = 66%nat) && forallb isHex s.

Definition startsWith (p s : jsstring) : bool :=
  bool_decide (take (length p) s = p).

(** [DID.parse]: the identifier, [None] when it throws. *)
Definition parse (didString : jsstring) : option jsstring :=
  if startsWith DID_PREFIX didString then
    let identifier := drop (length DID_PREFIX) didString in
    if isTxid identifier then Some identifier
    else if isPubKeyHex identifier then Some identifier
    else None
  else None.

(** [DID.fromTxid]; the argument is [None] when the caller passes
    [undefined]. *)
Definition fromTxid (txid : option jsstring) : option jsstring :=
  match txid with
  | Some t => if isTxid t then Some (DID_PREFIX ++ t) else None
  | None => None
  end.

Record DIDService := Service {
  service_id : jsstring; service_type : jsstring; serviceEndpoint : jsstring }.

(** A number interpolated into a template string: its decimal digits. *)
Fixpoint digitsBefore (fuel n : nat) (acc : jsstring) : jsstring :=
  match fuel with
  | O => acc
  | S fuel' =>
      let acc' := (48 + Z.of_nat (n mod 10)) :: acc in
      if (n / 10 =? 0)%nat then acc' else digitsBefore fuel' (n / 10) acc'
  end.

Definition digits (n : nat) : jsstring := digitsBefore (S n) n [].

(** *** Tracked outputs *)

(** The JSON kept in the [customInstructions] of an output.  A field is
    [None] when the object has no such string field. *)
Record chainCI := ChainCI {
  ci_type : option jsstring;
  ci_did : option jsstring;
  ci_identityCode : option jsstring;
  ci_chainKeyHex : option jsstring;
  ci_subjectKey : option jsstring;
  ci_issuanceTxid : option jsstring;
  ci_services : option (list DIDService);
  ci_additionalKeys : option (list jsstring);
  ci_status : option jsstring }.

(** [customInstructions]: absent or empty, text that [JSON.parse] rejects,
    or the parsed object. *)
Inductive instructions :=
  | NoInstructions
  | NotJson
  | Parsed (ci : chainCI).

Record output := Output { outpoint : jsstring; customInstructions : instructions }.

#[export] Instance DIDService_eq_dec : EqDecision DIDService.
Proof. solve_decision. Defined.

#[export] Instance chainCI_eq_dec : EqDecision chainCI.
Proof. solve_decision. Defined.

(** Modelled from the spec: the wallet behind [core.getClient()], which is
    not under [src/].  It keeps, per basket, the unspent outputs that were
    created with that basket, in the order of their creation
    ([listTrackedOutputs(basket)]); spending an outpoint removes it, and a
    transaction adds its outputs that name a basket. *)
Abbreviation wallet := (gmap jsstring (list output)).

Definition listOutputs (w : wallet) (basket : jsstring) : list output :=
  default [] (w !! basket).

(** An output of [createAction]: its basket and metadata, if any. *)
Record newOutput := NewOutput {
  no_basket : option jsstring; no_instructions : option chainCI }.

Definition outpointOf (txid : jsstring) (index : nat) : jsstring :=
  txid ++ lit "." ++ digits index.

Fixpoint track (txid : jsstring) (index : nat) (outs : list newOutput)
    (w : wallet) : wallet :=
  match outs with
  | [] => w
  | o :: rest =>
      let w' :=
        match no_basket o with
        | Some b =>
            <[ b := listOutputs w b
                    ++ [Output (outpointOf txid index)
                          (match no_instructions o with
                           | Some ci => Parsed ci
                           | None => NoInstructions
                           end)] ]> w
        | None => w
        end in
      track txid (S index) rest w'
  end.

Definition unspend (spent : jsstring) (w : wallet) : wallet :=
  List.filter (fun o => negb (bool_decide (outpoint o = spent))) <$> w.

(** *** Errors *)

(** The [DIDError]s of the module, by message.  The last three wrap an
    exception that is not a [DIDError]. *)
Inductive DIDError :=
  | InvalidDID
  | InvalidTxid
  | NoActiveChainState (did : jsstring)
  | ChainKeyNotFound
  | IssuanceWithoutTxid
  | IssuanceOutputNotFound
  | ExpectedSignableTransaction
  | UnlockingScriptFailed
  | CreationFailed
  | UpdateFailed
  | DeactivationFailed.

Inductive outcome (A : Type) :=
  | Ok (a : A)
  | Err (e : DIDError).

Arguments Ok {A} _.
Arguments Err {A} _.

Section WithKeys.

(** [pubKeyToJwk] goes through [PublicKey.fromString] of the SDK: the
    conversion of a compressed key, [None] when it throws.
    [validPrivateKey] tells whether [PrivateKey.fromHex] accepts a key. *)
Context {jwk : Type}.
Variable pubKeyToJwk : jsstring -> option jwk.
Variable validPrivateKey : jsstring -> bool.

Definition VERIFICATION_KEY_TYPE : jsstring := lit "JsonWebKey2020".
Definition LEGACY_KEY_TYPE : jsstring := lit "EcdsaSecp256k1VerificationKey2019".

Record verificationMethod := VerificationMethod {
  vm_id : jsstring; vm_type : jsstring; vm_controller : jsstring;
  publicKeyJwk : jwk }.

(** A [DIDDocumentV2]; the constant [@context] and the key type are left
    out. *)
Record document := Document {
  doc_id : jsstring;
  controller : option jsstring;
  verificationMethods : list verificationMethod;
  authentication : list jsstring;
  service : option (list DIDService) }.

(** [DID.buildDocument]; [None] when it throws. *)
Definition buildDocument (txid subjectPubKeyHex : option jsstring)
    (controllerDID : option jsstring) (services : option (list DIDService))
    : option document :=
  did ← fromTxid txid;
  key ← subjectPubKeyHex;
  jwk ← pubKeyToJwk key;
  Some (Document did
          (Chain.truthyString controllerDID)
          [VerificationMethod (did ++ lit "#subject-key") VERIFICATION_KEY_TYPE
             did jwk]
          [did ++ lit "#subject-key"]
          (match services with
           | Some (s :: l) => Some (s :: l)
           | _ => None
           end)).

(** The loop that adds one verification method per additional key,
    numbered from [#key-2]; [None] when a key does not convert. *)
Fixpoint addKeys (did : jsstring) (i : nat) (keys : list jsstring)
    (doc : document) : option document :=
  match keys with
  | [] => Some doc
  | k :: rest =>
      jwk ← pubKeyToJwk k;
      addKeys did (S i) rest
        (Document (doc_id doc) (controller doc)
           (verificationMethods doc
              ++ [VerificationMethod (did ++ lit "#key-" ++ digits (i + 2))
                    VERIFICATION_KEY_TYPE did jwk])
           (authentication doc) (service doc))
  end.

(** *** [spendChainOutput] *)

(** The answer of the wallet to the spend: the transaction is signed and
    accepted under [txid], no signable transaction comes back or no
    unlocking script is produced (both a [DIDError]), or a call throws. *)
Inductive spendAnswer :=
  | SpendOk (txid : jsstring)
  | SpendNotSignable
  | SpendNoUnlockingScript
  | SpendThrows.

(** The wallet after the spend, with the returned [txid], or the error. *)
Definition spendChainOutput (w : wallet) (answer : spendAnswer)
    (currentOutpoint : jsstring) (chainKeyHex : jsstring)
    (newOutputs : list newOutput) (wrapped : DIDError)
    : outcome jsstring * wallet :=
  if negb (validPrivateKey chainKeyHex) then (Err wrapped, w)
  else
    match answer with
    | SpendOk txid => (Ok txid, track txid 0 newOutputs (unspend currentOutpoint w))
    | SpendNotSignable => (Err ExpectedSignableTransaction, w)
    | SpendNoUnlockingScript => (Err UnlockingScriptFailed, w)
    | SpendThrows => (Err wrapped, w)
    end.

(** *** The scan for the active chain state *)

(** The loop over the outputs in [updateDID] and [deactivateDID]: the last
    output whose metadata parses, names the DID and has status [active],
    with its outpoint. *)
Definition scanActive (did : jsstring) (outputs : list output)
    : option (chainCI * jsstring) :=
  fold_left
    (fun acc o =>
       match customInstructions o with
       | Parsed ci =>
           if bool_decide (ci_did ci = Some did)
              && bool_decide (ci_status ci = Some (lit "active"))
           then Some (ci, outpoint o)
           else acc
       | _ => acc
       end)
    outputs None.

(** *** Defaults and options *)

Definition didBasket : jsstring := lit "did-chain".

Record DIDCreateOptions := CreateOptions {
  opt_basket : option jsstring;
  opt_identityCode : option jsstring;
  opt_services : option (list DIDService) }.

Record DIDUpdateOptions := UpdateOptions {
  upd_did : jsstring;
  upd_services : option (list DIDService);
  upd_additionalKeys : option (list jsstring) }.

Record DIDCreateResult := CreateResult {
  res_did : jsstring;
  res_txid : option jsstring;
  res_identityCode : option jsstring;
  res_document : document }.

(** *** [createDID] *)

(** What the wallet and the random sources answer during one call:
    the generated identity code and chain key, the derived subject key
    ([None]: [getPublicKey] throws), the txid of the issuance transaction
    ([None]: [createAction] throws), whether the listing of attempt [n]
    shows the issuance output, and the answer to the spend. *)
Record createEnv := CreateEnv {
  gen_identityCode : jsstring;
  gen_chainKeyHex : jsstring;
  derivedSubjectKey : option jsstring;
  issuanceAnswer : option jsstring;
  visibleAt : nat -> bool;
  create_spend : spendAnswer }.

(** The three attempts to see the issuance output in the basket. *)
Fixpoint issuanceFound (visible : nat -> bool) (outputs : list output)
    (issuanceOutpoint : jsstring) (attempt attemptsLeft : nat) : bool :=
  match attemptsLeft with
  | O => false
  | S n =>
      if visible attempt
         && existsb (fun o => bool_decide (outpoint o = issuanceOutpoint)) outputs
      then true
      else issuanceFound visible outputs issuanceOutpoint (S attempt) n
  end.

Definition createDID (env : createEnv) (options : DIDCreateOptions) (w : wallet)
    : outcome DIDCreateResult * wallet :=
  let basket := default didBasket (opt_basket options) in
  let identityCode := default (gen_identityCode env) (opt_identityCode options) in
  let chainKeyHex := gen_chainKeyHex env in
  match derivedSubjectKey env with
  | None => (Err CreationFailed, w)
  | Some subjectKey =>
      match issuanceAnswer env with
      | None => (Err CreationFailed, w)
      | Some [] => (Err IssuanceWithoutTxid, w)
      | Some issuanceTxid =>
          let w0 :=
            track issuanceTxid 0
              [NewOutput (Some basket)
                 (Some (ChainCI (Some (lit "did-issuance")) None
                          (Some identityCode) (Some chainKeyHex)
                          (Some subjectKey) None None None
                          (Some (lit "pending"))));
               NewOutput None None] w in
          match fromTxid (Some issuanceTxid) with
          | None => (Err InvalidTxid, w0)
          | Some did =>
              match buildDocument (Some issuanceTxid) (Some subjectKey)
                      (Some did) (opt_services options) with
              | None => (Err CreationFailed, w0)
              | Some document =>
                  let issuanceOutpoint := outpointOf issuanceTxid 0 in
                  if negb (issuanceFound (visibleAt env) (listOutputs w0 basket)
                             issuanceOutpoint 0 3)
                  then (Err IssuanceOutputNotFound, w0)
                  else
                    match
                      spendChainOutput w0 (create_spend env) issuanceOutpoint
                        chainKeyHex
                        [NewOutput (Some basket)
                           (Some (ChainCI (Some (lit "did-document")) (Some did)
                                    (Some identityCode) (Some chainKeyHex)
                                    (Some subjectKey) (Some issuanceTxid)
                                    None None (Some (lit "active"))));
                         NewOutput None None]
                        CreationFailed
                    with
                    | (Err e, w1) => (Err e, w1)
                    | (Ok _, w1) =>
                        (Ok (CreateResult did (Some issuanceTxid)
                               (Some identityCode) document), w1)
                    end
              end
          end
      end
  end.

(** *** [updateDID] *)

Definition updateDID (answer : spendAnswer) (options : DIDUpdateOptions)
    (w : wallet) : outcome DIDCreateResult * wallet :=
  match parse (upd_did options) with
  | None => (Err InvalidDID, w)
  | Some _ =>
      match scanActive (upd_did options) (listOutputs w didBasket) with
      | None => (Err (NoActiveChainState (upd_did options)), w)
      | Some (chainCI, chainOutpoint) =>
          match Chain.truthyString (ci_chainKeyHex chainCI) with
          | None => (Err ChainKeyNotFound, w)
          | Some chainKeyHex =>
              if negb (validPrivateKey chainKeyHex) then (Err UpdateFailed, w)
              else
                match fromTxid (ci_issuanceTxid chainCI) with
                | None => (Err InvalidTxid, w)
                | Some _ =>
                    match
                      buildDocument (ci_issuanceTxid chainCI)
                        (ci_subjectKey chainCI) (Some (upd_did options))
                        (upd_services options)
                      ≫= addKeys (upd_did options) 0
                            (default [] (upd_additionalKeys options))
                    with
                    | None => (Err UpdateFailed, w)
                    | Some document =>
                        match
                          spendChainOutput w answer chainOutpoint chainKeyHex
                            [NewOutput (Some didBasket)
                               (Some (ChainCI (Some (lit "did-update"))
                                        (Some (upd_did options))
                                        (ci_identityCode chainCI)
                                        (Some chainKeyHex)
                                        (ci_subjectKey chainCI)
                                        (ci_issuanceTxid chainCI)
                                        (upd_services options)
                                        (upd_additionalKeys options)
                                        (Some (lit "active"))));
                             NewOutput None None]
                            UpdateFailed
                        with
                        | (Err e, w1) => (Err e, w1)
                        | (Ok _, w1) =>
                            (Ok (CreateResult (upd_did options)
                                   (ci_issuanceTxid chainCI)
                                   (ci_identityCode chainCI) document), w1)
                        end
                    end
                end
          end
      end
  end.

(** *** [deactivateDID] *)

(** [trackingOk] tells whether [buildTrackingScript] returns (the identity
    key of the wallet is a public key). *)
Definition deactivateDID (answer : spendAnswer) (trackingOk : bool)
    (didString : jsstring) (w : wallet) : outcome jsstring * wallet :=
  match parse didString with
  | None => (Err InvalidDID, w)
  | Some _ =>
      match scanActive didString (listOutputs w didBasket) with
      | None => (Err (NoActiveChainState didString), w)
      | Some (chainCI, chainOutpoint) =>
          match Chain.truthyString (ci_chainKeyHex chainCI) with
          | None => (Err ChainKeyNotFound, w)
          | Some chainKeyHex =>
              if negb trackingOk then (Err DeactivationFailed, w)
              else
                spendChainOutput w answer chainOutpoint chainKeyHex
                  [NewOutput None None;
                   NewOutput (Some didBasket)
                     (Some (ChainCI (Some (lit "did-revocation"))
                              (Some didString) (ci_identityCode chainCI) None
                              (ci_subjectKey chainCI) (ci_issuanceTxid chainCI)
                              None None (Some (lit "deactivated"))))]
                  DeactivationFailed
          end
      end
  end.

(** *** [resolveDID] *)

Section WithJson.

Context {json : Type}.
Variable JSON_parse : jsstring -> option json.
Variable truthy : json -> bool.

(** A resolved document: built by this module, or JSON received from a
    remote service or read from the chain. *)
Inductive didDoc :=
  | Built (d : document)
  | Received (j : json).

Definition mapDocument {A B} (f : A -> B) (r : Chain.result A) : Chain.result B :=
  Chain.Result (f <$> Chain.didDocument r) (Chain.didDocumentMetadata r)
    (Chain.error r).

(** The scan of the outputs in [_resolveFromBasket]: the metadata of the
    last output that parses and names the DID. *)
Definition latestFor (didString : jsstring) (outputs : list output)
    : option chainCI :=
  fold_left
    (fun acc o =>
       match customInstructions o with
       | Parsed ci => if bool_decide (ci_did ci = Some didString) then Some ci else acc
       | _ => acc
       end)
    outputs None.

(** [_resolveFromBasket]: [None] when it throws, [Some None] when it
    returns [null]. *)
Definition _resolveFromBasket (w : wallet) (didString : jsstring)
    : option (option (Chain.result document)) :=
  match latestFor didString (listOutputs w didBasket) with
  | None => Some None
  | Some latestCI =>
      if bool_decide (ci_status latestCI = Some (lit "deactivated")) then
        match Chain.truthyString (ci_subjectKey latestCI) with
        | Some key =>
            doc ← buildDocument (ci_issuanceTxid latestCI) (Some key)
                    (Some didString) None;
            Some (Some (Chain.Result (Some doc)
                          (Chain.Metadata None None true None) None))
        | None =>
            Some (Some (Chain.Result None (Chain.Metadata None None true None) None))
        end
      else
        match Chain.truthyString (ci_subjectKey latestCI),
              Chain.truthyString (ci_issuanceTxid latestCI) with
        | Some key, Some txid =>
            doc ← buildDocument (Some txid) (Some key) (Some didString)
                    (ci_services latestCI)
                  ≫= addKeys didString 0 (default [] (ci_additionalKeys latestCI));
            Some (Some (Chain.Result (Some doc) Chain.noMetadata None))
        | _, _ => Some None
        end
  end.

(** The calls that leave the process. *)
Inductive call :=
  | CallListOutputs
  | CallProxy
  | CallResolver
  | CallChainApi.

(** What the outside answers during one resolution.  [basketReadable] is
    false when [listOutputs] throws.  [proxyAnswer] and [resolverAnswer]
    are the results that the proxy branch and the resolver branch return,
    [None] when the branch falls through (request failed, status not
    [ok] and not 410, no document in the body). *)
Record resolveEnv := ResolveEnv {
  basketReadable : bool;
  didProxyUrl : option jsstring;
  proxyAnswer : option (Chain.result json);
  didResolverUrl : option jsstring;
  resolverAnswer : option (Chain.result json);
  chainApi : Chain.api }.

(** The result of the legacy branch, for a 66-character identifier. *)
Definition legacyResult (identifier : jsstring) : option (Chain.result document) :=
  let did := DID_PREFIX ++ identifier in
  let keyId := did ++ lit "#key-1" in
  jwk ← pubKeyToJwk identifier;
  Some (Chain.Result
          (Some (Document did (Some did)
                   [VerificationMethod keyId LEGACY_KEY_TYPE did jwk]
                   [keyId] None))
          Chain.noMetadata None).

(** [resolveDID]: the value returned ([None]: the call throws) and the
    calls made, in order. *)
Definition resolveDID (env : resolveEnv) (w : wallet) (didString : jsstring)
    : option (Chain.result didDoc) * list call :=
  match parse didString with
  | None => (None, [])
  | Some identifier =>
      if bool_decide (length identifier = 66%nat) then
        (mapDocument Built <$> legacyResult identifier, [])
      else
        let localResult :=
          if basketReadable env then _resolveFromBasket w didString else None in
        match localResult with
        | Some (Some r) => (Some (mapDocument Built r), [CallListOutputs])
        | _ =>
            match Chain.truthyString (didProxyUrl env), proxyAnswer env with
            | Some _, Some r =>
                (Some (mapDocument Received r), [CallListOutputs; CallProxy])
            | proxy, _ =>
                let calls1 :=
                  CallListOutputs
                    :: match proxy with Some _ => [CallProxy] | None => [] end in
                match Chain.truthyString (didResolverUrl env), resolverAnswer env with
                | Some _, Some r =>
                    (Some (mapDocument Received r), calls1 ++ [CallResolver])
                | resolver, _ =>
                    let calls2 :=
                      calls1
                      ++ match resolver with
                         | Some _ => [CallResolver]
                         | None => []
                         end in
                    (match fst (DidResolver._resolveViaWhatsOnChain JSON_parse
                                  truthy (chainApi env) identifier) with
                     | Chain.Returned r => Some (mapDocument Received r)
                     | _ => None
                     end, calls2 ++ [CallChainApi])
                end
            end
        end
  end.

End WithJson.

End WithKeys.

End Engine.

(* ===================================================================== *)
(** ** The rest of the [DID] class and the listing of the wallet's DIDs *)
(* ===================================================================== *)

Module DidClass.

Import Engine.

(** [DID.isValid]: [DID.parse] returns. *)
Definition isValid (didString : jsstring) : bool :=
  match parse didString with
  | Some _ => true
  | None => false
  end.

Definition DID_CONTEXT : jsstring := lit "https://www.w3.org/ns/did/v1".

(** The legacy [DIDVerificationMethod] and [DIDDocument]. *)
Record DIDVerificationMethod := LegacyMethod {
  lvm_id : jsstring;
  lvm_type : jsstring;
  lvm_controller : jsstring;
  publicKeyHex : jsstring }.

Record DIDDocument := LegacyDocument {
  ld_context : list jsstring;
  ld_id : jsstring;
  ld_controller : jsstring;
  ld_verificationMethod : list DIDVerificationMethod;
  ld_authentication : list jsstring;
  ld_assertionMethod : list jsstring }.

(** [DID.fromIdentityKey]; [None] when it throws. *)
Definition fromIdentityKey (identityKey : jsstring) : option DIDDocument :=
  if isPubKeyHex identityKey then
    let did := DID_PREFIX ++ identityKey in
    let keyId := did ++ lit "#key-1" in
    Some (LegacyDocument [DID_CONTEXT] did did
            [LegacyMethod keyId LEGACY_KEY_TYPE did identityKey]
            [keyId] [keyId])
  else None.

End DidClass.

Module Listing.

Import Engine.

(** [str.replace(pattern, replacement)] with a string pattern: the first
    occurrence is replaced. *)
Fixpoint replaceFirst (pattern replacement s : jsstring) : jsstring :=
  if startsWith pattern s then replacement ++ drop (length pattern) s
  else
    match s with
    | [] => []
    | c :: rest => c :: replaceFirst pattern replacement rest
    end.

(** A [DIDChainState]; the time stamps [created] and [updated], which the
    metadata written by this module never carries and which are then read
    from the clock, are left out. *)
Record DIDChainState := ChainState {
  cs_did : jsstring;
  cs_identityCode : jsstring;
  cs_issuanceTxid : jsstring;
  currentOutpoint : jsstring;
  cs_status : jsstring }.

(** [Map.prototype.set] on a map with string keys, kept in insertion
    order: the value of an existing key is replaced in place. *)
Fixpoint mapSet {V} (k : jsstring) (v : V) (m : list (jsstring * V))
    : list (jsstring * V) :=
  match m with
  | [] => [(k, v)]
  | (k', v') :: rest =>
      if bool_decide (k' = k) then (k, v) :: rest
      else (k', v') :: mapSet k v rest
  end.

(** The body of the loop of [listDIDs] for one output: the entry that it
    sets, if any.  The fields of the metadata are strings, as the methods
    of this module write them. *)
Definition entryOf (o : output) : option DIDChainState :=
  match customInstructions o with
  | Parsed ci =>
      match Chain.truthyString (ci_did ci),
            Chain.truthyString (ci_identityCode ci) with
      | Some did, Some identityCode =>
          if bool_decide (ci_status ci = Some (lit "pending")) then None
          else
            Some (ChainState did identityCode
                    (match Chain.truthyString (ci_issuanceTxid ci) with
                     | Some t => t
                     | None => replaceFirst DID_PREFIX [] did
                     end)
                    (outpoint o)
                    (if bool_decide (ci_status ci = Some (lit "deactivated"))
                     then lit "deactivated" else lit "active"))
      | _, _ => None
      end
  | _ => None
  end.

Definition didMapOf (outputs : list output)
    : list (jsstring * DIDChainState) :=
  fold_left
    (fun m o =>
       match entryOf o with
       | Some e => mapSet (cs_did e) e m
       | None => m
       end)
    outputs [].

(** [listDIDs]; [readable] is false when [listOutputs] throws, and the
    result is [None] when [listDIDs] throws. *)
Definition listDIDs (readable : bool) (w : wallet)
    : option (list DIDChainState) :=
  if readable then Some (snd <$> didMapOf (listOutputs w didBasket))
  else None.

End Listing.

(* ===================================================================== *)
(** ** [DIDResolverService.resolve] and the handler built on it *)
(* ===================================================================== *)

Module ServerService.

Import Chain ServerResolver.

(** [toLowerCase] on a code unit of the ASCII range. *)
Definition toLowerAscii (c : Z) : Z :=
  if (65 <=? c) && (c <=? 90) then c + 32 else c.

(** [toLowerCase] of the group that the pattern captures (hexadecimal
    digits). *)
Definition toLowerCase (s : jsstring) : jsstring := toLowerAscii <$> s.

(** [did.match(/^did:bsv:([0-9a-f]{64})$/i)]: the captured group.  Without
    the [u] flag a code unit outside the ASCII range never matches an
    ASCII letter of the pattern. *)
Definition txidMatch (did : jsstring) : option jsstring :=
  let group := drop 8 did in
  if bool_decide (toLowerAscii <$> take 8 did = Engine.DID_PREFIX)
     && bool_decide (length group = 64%nat)
     && forallb Engine.isHex group
  then Some group
  else None.

Section WithJson.

Context {json : Type}.
Variable JSON_parse : jsstring -> option json.
Variable truthy : json -> bool.

(** The requests that leave the server. *)
Inductive request :=
  | ToUniversalResolver
  | ToWhatsOnChain.

(** What the outside answers during one resolution: [universalAnswer] is
    the result that the first tier returns, [None] when it falls through
    (the request fails or times out, the status is neither [ok] nor 410,
    the body of an [ok] answer cannot be read). *)
Record serviceEnv := ServiceEnv {
  universalAnswer : option (result json);
  wocApi : api }.

(** [resolve]: how the call ends and the tiers consulted, in order. *)
Definition resolve (capacity : nat) (configured : option number) (fuel : nat)
    (env : serviceEnv) (did : jsstring) : outcome * list request :=
  match universalAnswer env with
  | Some r => (Returned r, [ToUniversalResolver])
  | None =>
      match txidMatch did with
      | Some txid =>
          (fst (resolveViaWoC JSON_parse truthy capacity configured fuel
                  (wocApi env) (toLowerCase txid)),
           [ToUniversalResolver; ToWhatsOnChain])
      | None => (Returned notFound, [ToUniversalResolver])
      end
  end.

(** The [GET] handler of [createDIDResolverHandler(config)]. *)
Definition handle (capacity : nat) (configured : option number) (fuel : nat)
    (env : serviceEnv) (did : option jsstring) : option HandlerResponse :=
  GET (fun d => fst (resolve capacity configured fuel env d)) did.

End WithJson.

End ServerService.

(* ===================================================================== *)
(** ** Vocabulary for the statements about the codec *)
(* ===================================================================== *)

Module CodecSpec.

Import Sdk.

Definition isByte (b : Z) : Prop := 0 <= b < 256.

Definition all_bytes : list Z := List.map Z.of_nat (seq 0 256).

(** The two digits written for [b] are hexadecimal digits, and both
    readers give [b] back. *)
Definition byte_hex_ok (b : Z) : bool :=
  let c1 := hexChar (b / 16) in
  let c2 := hexChar (b mod 16) in
  match hexDigit c1, hexDigit c2, parseInt16 [c1; c2] with
  | Some d1, Some d2, Int z => (16 * d1 + d2 =? b) && (z =? b)
  | _, _, _ => false
  end.

(** A printable string: every code unit is a printable ASCII character. *)
Definition printable (s : jsstring) : Prop := Forall (fun c => 32 <= c <= 126) s.

(** The chunk that [writeBin] appends for data that is not empty. *)
Definition pushOp (n : Z) : Z :=
  if n <? 76 then n
  else if n <? 256 then OP_PUSHDATA1
  else if n <? 65536 then OP_PUSHDATA2
  else OP_PUSHDATA4.

(** The number of length bytes that follow the push opcode. *)
Definition lenWidth (n : Z) : nat :=
  if n <? 76 then 0 else if n <? 256 then 1 else if n <? 65536 then 2 else 4.

Definition pushChunk (d : list Z) : ScriptChunk :=
  Chunk (pushOp (Z.of_nat (length d))) (Some d).

(** Data of a push that a decoder reads back: not empty, shorter than
    2^31. *)
Definition okData (d : list Z) : Prop :=
  d <> [] /\ Z.of_nat (length d) < 2 ^ 31 /\ Forall isByte d.

(** An opcode that is neither a push, nor [OP_RETURN]. *)
Definition plainOp (o : Z) : Prop :=
  isByte o /\ (o = 0 \/ 79 <= o) /\ o <> OP_RETURN.

(** The counter [inConditionalBlock] of the SDK parser after the opcodes
    of [prefix]. *)
Definition depthAfter (prefix : list Z) : Z := fold_left conditionalStep prefix 0.

(** A data-carrier script: plain opcodes, [OP_RETURN], then pushes only. *)
Definition carrierScript (prefix : list Z) (ds : list (list Z)) : list Z :=
  prefix ++ OP_RETURN :: flat_map (fun d => chunkBytes (pushChunk d)) ds.

(** The script [6a 4e fb ff ff ff]: the four length bytes read as the
    32-bit integer -5. *)
Definition stuck_script : jsstring := lit "6a4efbffffff".

Definition stuck_bytes : list num :=
  [Int 106; Int 78; Int 251; Int 255; Int 255; Int 255].

(** A result of [readLen] moved by an offset. *)
Definition shiftLen (p : Z) (r : Server.pushLen) : Server.pushLen :=
  match r with
  | Server.Stop => Server.Stop
  | Server.Len l i => Server.Len l (p + i)
  end.

End CodecSpec.

(* ===================================================================== *)
(** ** Vocabulary for the statements about the DID methods *)
(* ===================================================================== *)

Module EngineSpec.

Import Engine.

(** The output carries parsed metadata that names the DID with status
    [active]: the test of the scans in [updateDID] and [deactivateDID]. *)
Definition activeFor (did : jsstring) (o : output) : bool :=
  match customInstructions o with
  | Parsed ci =>
      bool_decide (ci_did ci = Some did)
      && bool_decide (ci_status ci = Some (lit "active"))
  | _ => false
  end.

(** The output carries parsed metadata that names the DID. *)
Definition namesDid (did : jsstring) (o : output) : bool :=
  match customInstructions o with
  | Parsed ci => bool_decide (ci_did ci = Some did)
  | _ => false
  end.

Definition metadataOf (o : output) : option chainCI :=
  match customInstructions o with
  | Parsed ci => Some ci
  | _ => None
  end.

(** The active chain tips of a DID in the default basket. *)
Definition activeTips (did : jsstring) (w : wallet) : list output :=
  List.filter (activeFor did) (listOutputs w didBasket).

(** The outputs that a transaction adds to basket [b]. *)
Fixpoint created (b : jsstring) (txid : jsstring) (index : nat)
    (outs : list newOutput) : list output :=
  match outs with
  | [] => []
  | o :: rest =>
      (if bool_decide (no_basket o = Some b) then
         [Output (outpointOf txid index)
            (match no_instructions o with
             | Some ci => Parsed ci
             | None => NoInstructions
             end)]
       else [])
      ++ created b txid (S index) rest
  end.

(** The wallet after an issuance transaction with a pending chain output
    in [basket]. *)
Definition issued (txid basket : jsstring) (pending : chainCI) (w : wallet)
    : wallet :=
  track txid 0 [NewOutput (Some basket) (Some pending); NewOutput None None] w.

(** Outputs other than the one at outpoint [p]. *)
Definition notAt (p : jsstring) (o : output) : bool :=
  negb (bool_decide (outpoint o = p)).

(** Every active chain tip of the DID carries this identity code and this
    issuance txid. *)
Definition tipsCarry (did ic txid : jsstring) (w : wallet) : Prop :=
  Forall (fun o => exists ci,
            customInstructions o = Parsed ci /\
            ci_identityCode ci = Some ic /\ ci_issuanceTxid ci = Some txid)
    (activeTips did w).

(** The chain of the DID has at most one active tip, which carries the
    identity code and the issuance txid. *)
Definition chainTip (did ic txid : jsstring) (w : wallet) : Prop :=
  tipsCarry did ic txid w /\ (length (activeTips did w) <= 1)%nat.

(** The DID has no active tip. *)
Definition noActiveTip (did : jsstring) (w : wallet) : Prop :=
  activeTips did w = [].

(** No output of the default basket names the DID. *)
Definition unknownDid (did : jsstring) (w : wallet) : Prop :=
  List.filter (namesDid did) (listOutputs w didBasket) = [].

Section WithKeys.

Context {jwk : Type}.
Variable pubKeyToJwk : jsstring -> option jwk.
Variable validPrivateKey : jsstring -> bool.

(** A call of one of the three methods, with the answers of the wallet. *)
Inductive op :=
  | Create (env : createEnv) (options : DIDCreateOptions)
  | Update (answer : spendAnswer) (options : DIDUpdateOptions)
  | Deactivate (answer : spendAnswer) (trackingOk : bool) (did : jsstring).

(** The wallet after the call. *)
Definition run (w : wallet) (o : op) : wallet :=
  match o with
  | Create env options => snd (createDID pubKeyToJwk validPrivateKey env options w)
  | Update answer options => snd (updateDID pubKeyToJwk validPrivateKey answer options w)
  | Deactivate answer trackingOk did =>
      snd (deactivateDID validPrivateKey answer trackingOk did w)
  end.

Definition runAll (ops : list op) (w : wallet) : wallet := fold_left run ops w.

(** Transaction ids do not repeat: a later issuance does not get the id
    [txid] again. *)
Definition avoids (txid : jsstring) (o : op) : Prop :=
  match o with
  | Create env _ => issuanceAnswer env <> Some txid
  | _ => True
  end.

(** The latest metadata of the DID lets [_resolveFromBasket] rebuild a
    result. *)
Definition reconstructs (didString : jsstring) (ci : chainCI) : Prop :=
  if bool_decide (ci_status ci = Some (lit "deactivated")) then
    Chain.truthyString (ci_subjectKey ci) = None \/
    is_Some (buildDocument pubKeyToJwk (ci_issuanceTxid ci) (ci_subjectKey ci)
               (Some didString) None)
  else
    Chain.truthyString (ci_subjectKey ci) <> None /\
    Chain.truthyString (ci_issuanceTxid ci) <> None /\
    is_Some (buildDocument pubKeyToJwk (ci_issuanceTxid ci) (ci_subjectKey ci)
               (Some didString) (ci_services ci)
             ≫= addKeys pubKeyToJwk didString 0
                   (default [] (ci_additionalKeys ci))).

End WithKeys.

(** *** A sample wallet *)

Definition sampleTxid : jsstring := replicate 64 48.

Definition sampleDid : jsstring := DID_PREFIX ++ sampleTxid.

Definition sampleKey : jsstring := lit "02" ++ replicate 64 49.

Definition sampleCI : chainCI :=
  ChainCI (Some (lit "did-document")) (Some sampleDid) (Some (lit "code-1"))
    (Some (lit "c0ffee")) (Some sampleKey) (Some sampleTxid) None None
    (Some (lit "active")).

Definition sampleWallet : wallet :=
  {[ didBasket := [Output (outpointOf sampleTxid 0) (Parsed sampleCI)] ]}.

(** Metadata that names the DID but has no issuance txid. *)
Definition partialCI : chainCI :=
  ChainCI (Some (lit "did-document")) (Some sampleDid) (Some (lit "code-1"))
    (Some (lit "c0ffee")) (Some sampleKey) None None None (Some (lit "active")).

Definition partialWallet : wallet :=
  {[ didBasket := [Output (outpointOf sampleTxid 0) (Parsed partialCI)] ]}.

(** *** A sample history *)

Definition sampleEnv : createEnv :=
  CreateEnv (lit "code-1") (lit "c0ffee") (Some sampleKey) (Some sampleTxid)
    (fun _ => true) (SpendOk (replicate 64 49)).

Definition sampleOptions : DIDCreateOptions := CreateOptions None None None.

Definition sampleUpdate : DIDUpdateOptions :=
  UpdateOptions sampleDid
    (Some [Service (lit "#svc") (lit "Api") (lit "https://svc")]) None.

Definition sampleOps : list op :=
  [Update (SpendOk (replicate 64 50)) (UpdateOptions sampleDid None None)].

End EngineSpec.

(* ===================================================================== *)
(** ** Vocabulary for the statements about the crawl *)
(* ===================================================================== *)

Module ChainSpec.

Import Chain.

Section Trace.

Context {json : Type}.
Variable JSON_parse : jsstring -> option json.
Variable truthy : json -> bool.
Variable decode : jsstring -> list jsstring.

(** The payload that the crawl reads from a transaction: the third
    segment of the output found by the scan. *)
Definition payloadOf (d : txData) : option jsstring :=
  match findSegments decode (vouts d) with
  | _ :: _ :: payload :: _ => Some payload
  | _ => None
  end.

Definition hasPayload (p : jsstring) (entry : jsstring * txResponse) : bool :=
  match snd entry with
  | TxOk d => bool_decide (payloadOf d = Some p)
  | _ => false
  end.

(** A fetched transaction carries the issuance marker ["1"]. *)
Definition sawIssuance (trace : list (jsstring * txResponse)) : bool :=
  existsb (hasPayload (lit "1")) trace.

(** A fetched transaction carries the revocation marker ["3"]. *)
Definition revoked (trace : list (jsstring * txResponse)) : bool :=
  existsb (hasPayload (lit "3")) trace.

(** Every fetch of a transaction gave a body. *)
Definition noFailure (trace : list (jsstring * txResponse)) : bool :=
  forallb (fun entry => match snd entry with TxOk _ => true | _ => false end) trace.

(** The time of every transaction fetched is missing, 0, or within the
    range of [Date]. *)
Definition datesInRange (trace : list (jsstring * txResponse)) : bool :=
  forallb (fun entry =>
             match snd entry with
             | TxOk d => bool_decide (is_Some (isoTime d))
             | _ => true
             end) trace.

(** The document of a transaction: its payload, when it is none of the
    three markers and [JSON.parse] accepts it. *)
Definition documentOf (d : txData) : option json :=
  match payloadOf d with
  | Some p =>
      if bool_decide (p = lit "3") || bool_decide (p = lit "2")
         || bool_decide (p = lit "1")
      then None
      else JSON_parse p
  | None => None
  end.

(** The last document among the fetched transactions, [acc] when there is
    none. *)
Definition lastParsed (acc : option json) (trace : list (jsstring * txResponse))
    : option json :=
  fold_left
    (fun acc entry =>
       match snd entry with
       | TxOk d =>
           match documentOf d with
           | Some doc => Some doc
           | None => acc
           end
       | _ => acc
       end)
    trace acc.

(** What the crawl returns, read off the fetched transactions: [issued]
    and [doc] are the issuance flag and the document before the first
    fetch. *)
Definition summarises (issued : bool) (doc : option json)
    (trace : list (jsstring * txResponse)) (r : result json) : Prop :=
  if noFailure trace then
    if revoked trace then
      didDocument r = lastParsed doc trace /\
      deactivated (didDocumentMetadata r) = true /\ error r = None
    else
      match lastParsed doc trace with
      | Some d =>
          if truthy d then didDocument r = Some d /\ error r = None
          else
            didDocument r = None /\
            error r = Some (if issued || sawIssuance trace
                            then lit "notYetAvailable" else lit "notFound")
      | None =>
          didDocument r = None /\
          error r = Some (if issued || sawIssuance trace
                          then lit "notYetAvailable" else lit "notFound")
      end
  else r = notFound.

End Trace.

(** *** The two crawls *)

Section Crawlers.

Context {json : Type}.
Variable JSON_parse : jsstring -> option json.
Variable truthy : json -> bool.

(** The crawl of [modules/did.ts], or the crawl of
    [server/did-resolver.ts] with the capacity of an array, the configured
    [maxHops] and the fuel of the model. *)
Inductive crawler :=
  | ModuleCrawl
  | ServerCrawl (capacity : nat) (configured : option ServerResolver.number)
      (fuel : nat).

Definition decoderOf (c : crawler) : jsstring -> list jsstring :=
  match c with
  | ModuleCrawl => Did.parseOpReturnSegments
  | ServerCrawl capacity _ _ => Server.decode capacity
  end.

(** Whether [maxHops] bounds the loop, and the hops that the model makes:
    those that [maxHops] allows, or the fuel. *)
Definition boundedOf (c : crawler) : bool :=
  match c with
  | ModuleCrawl => true
  | ServerCrawl _ configured _ =>
      bool_decide
        (is_Some (ServerResolver.hopsOf (ServerResolver.maxHopsOf configured)))
  end.

Definition hopLimit (c : crawler) : nat :=
  match c with
  | ModuleCrawl => DidResolver.maxHops
  | ServerCrawl _ configured fuel =>
      default fuel (ServerResolver.hopsOf (ServerResolver.maxHopsOf configured))
  end.

Definition runCrawl (c : crawler) (a : api) (txid : jsstring)
    : outcome * list (jsstring * txResponse) :=
  match c with
  | ModuleCrawl => DidResolver._resolveViaWhatsOnChain JSON_parse truthy a txid
  | ServerCrawl capacity configured fuel =>
      ServerResolver.resolveViaWoC JSON_parse truthy capacity configured fuel
        a txid
  end.

End Crawlers.

(** *** Sample chains *)

(** A stand-in for [JSON.parse] that accepts the text of an object. *)
Definition parseObject (p : jsstring) : option jsstring :=
  match p with
  | 123 :: _ => Some p
  | _ => None
  end.

Definition startTxid : jsstring := replicate 64 48.

(** An API whose spend endpoint always names one more transaction. *)
Definition endlessApi : api :=
  Api (fun _ _ => TxOk (TxData None []))
      (fun hop _ => Some (Sdk.toHex [Z.of_nat (S hop)]))
      (fun _ _ => None).

(** The output scripts of an issuance and of a document transaction. *)
Definition issuanceScript : jsstring :=
  default [] (Sdk.Script_toHex <$> Did.buildOpReturn (lit "code-1") (lit "1")).

Definition documentScript : jsstring :=
  default [] (Sdk.Script_toHex <$> Did.buildOpReturn (lit "code-1") (lit "{}")).

(** The issuance transaction is there, its output 0 is unspent for the
    spend endpoint and the address history is empty. *)
Definition pendingApi : api :=
  Api (fun _ _ =>
         TxOk (TxData (Some 1700000000)
                 [Vout (Some (lit "76a914")) (Some (lit "1ChainKeyAddress"));
                  Vout (Some issuanceScript) None]))
      (fun _ _ => None)
      (fun _ _ => Some []).

Definition revocationScript : jsstring :=
  default [] (Sdk.Script_toHex <$> Did.buildOpReturn (lit "code-1") (lit "3")).

(** The issuance transaction has no time; the transaction that spends it
    has a time beyond the range of [Date] and carries nothing. *)
Definition lateTimeApi : api :=
  Api (fun hop _ =>
         match hop with
         | O => TxOk (TxData None
                        [Vout (Some (lit "76a914")) (Some (lit "1ChainKeyAddress"));
                         Vout (Some issuanceScript) None])
         | _ => TxOk (TxData (Some 10000000000000)
                        [Vout (Some (lit "76a914")) (Some (lit "1ChainKeyAddress"))])
         end)
      (fun hop _ => match hop with O => Some (lit "ff") | _ => None end)
      (fun _ _ => None).

(** The first transaction carries a document and is spent by a
    transaction that the API does not serve. *)
Definition brokenApi (first : jsstring) : api :=
  Api (fun hop _ =>
         match hop with
         | O => TxOk (TxData (Some 1700000000)
                        [Vout (Some (lit "76a914")) (Some (lit "1ChainKeyAddress"));
                         Vout (Some first) None])
         | _ => TxNotOk
         end)
      (fun _ _ => Some (lit "ff"))
      (fun _ _ => None).

(** The first transaction is spent by a second one, which is served. *)
Definition twoStepApi (first second : jsstring) : api :=
  Api (fun hop _ =>
         TxOk (TxData (Some 1700000000)
                 [Vout (Some (lit "76a914")) (Some (lit "1ChainKeyAddress"));
                  Vout (Some match hop with O => first | _ => second end) None]))
      (fun hop _ => match hop with O => Some (lit "ff") | _ => None end)
      (fun _ _ => None).

(** The server crawl with the largest arrays of the language and the
    default configuration. *)
Definition serverCrawl : crawler := ServerCrawl Server.arrayLimit None 0.

(** The crawl of a sample chain from [startTxid]: whether the issuance
    marker was seen, the last payload parsed, and the outcome. *)
Definition sampleRun (c : crawler) (a : api)
    : outcome * list (jsstring * txResponse) :=
  runCrawl parseObject (fun _ => true) c a startTxid.

Definition observed (c : crawler) (a : api)
    : bool * option jsstring * outcome :=
  (sawIssuance (decoderOf c) (snd (sampleRun c a)),
   lastParsed parseObject (decoderOf c) None (snd (sampleRun c a)),
   fst (sampleRun c a)).

End ChainSpec.

(* ===================================================================== *)
(** ** Vocabulary for the statements about the [DID] class *)
(* ===================================================================== *)

Module DidSpec.

(** The code units of [[0-9a-f]] and of [[0-9a-fA-F]]. *)
Definition lowerHexDigitUnit (c : Z) : Prop :=
  48 <= c <= 57 \/ 97 <= c <= 102.

Definition hexDigitUnit (c : Z) : Prop :=
  48 <= c <= 57 \/ 97 <= c <= 102 \/ 65 <= c <= 70.

Definition sampleKey66 : jsstring := lit "02" ++ replicate 64 65.

End DidSpec.

(* ===================================================================== *)
(** ** Vocabulary for the statements about documents *)
(* ===================================================================== *)

Module DocSpec.

(** The number that a string of decimal digits prints, read from the left
    with [v] as the value of the digits before it. *)
Definition readNat (v : nat) (s : jsstring) : nat :=
  fold_left (fun v c => (10 * v + Z.to_nat (c - 48))%nat) s v.

(** The id of the verification method of the additional key at index
    [i]. *)
Definition keyId (did : jsstring) (i : nat) : jsstring :=
  did ++ lit "#key-" ++ Engine.digits (i + 2).

(** The document without its [service] entry. *)
Definition withoutServices {jwk} (d : Engine.document (jwk := jwk))
    : Engine.document :=
  Engine.Document (Engine.doc_id d) (Engine.controller d)
    (Engine.verificationMethods d) (Engine.authentication d) None.

(** A stand-in for [pubKeyToJwk] that refuses the empty string only. *)
Definition sampleJwk (k : jsstring) : option jsstring :=
  match k with
  | [] => None
  | _ => Some k
  end.

(** What the outside answers when no remote tier is configured. *)
Definition offline : Engine.resolveEnv (json := unit) :=
  Engine.ResolveEnv true None None None None
    (Chain.Api (fun _ _ => Chain.TxNotOk) (fun _ _ => None) (fun _ _ => None)).

(** Options that name a basket of their own. *)
Definition ownBasketOptions : Engine.DIDCreateOptions :=
  Engine.CreateOptions (Some (lit "my-dids")) None None.

End DocSpec.

(* ===================================================================== *)
(** ** Vocabulary for the statements about [listDIDs] *)
(* ===================================================================== *)

Module ListingSpec.

Import Engine Listing.

(** The entries that the outputs of a basket give, in order. *)
Definition entriesOf (outputs : list output) : list DIDChainState :=
  omap entryOf outputs.

(** The entries for one DID. *)
Definition entriesFor (did : jsstring) (outputs : list output)
    : list DIDChainState :=
  List.filter (fun e => bool_decide (cs_did e = did)) (entriesOf outputs).

End ListingSpec.

(* ===================================================================== *)
(** ** Vocabulary for the statements about the resolver service *)
(* ===================================================================== *)

Module ServiceSpec.

(** The universal resolver does not answer and the chain API serves
    nothing. *)
Definition unreachable : ServerService.serviceEnv (json := unit) :=
  ServerService.ServiceEnv None
    (Chain.Api (fun _ _ => Chain.TxNotOk) (fun _ _ => None) (fun _ _ => None)).

Definition legacyDid : jsstring := Engine.DID_PREFIX ++ DidSpec.sampleKey66.

(** The sample DID spelled in upper case. *)
Definition shoutedDid : jsstring :=
  lit "DID:BSV:" ++ replicate 32 65 ++ replicate 32 48.

End ServiceSpec.

(* ===================================================================== *)
(** ** Vocabulary for the statements about the server decoder *)
(* ===================================================================== *)

Module DecoderSpec.

(** The code units of the hexadecimal digits. *)
Definition hexChars : list Z :=
  [48; 49; 50; 51; 52; 53; 54; 55; 56; 57;
   97; 98; 99; 100; 101; 102; 65; 66; 67; 68; 69; 70].

(** An entry of the byte array that is a byte, or [NaN]. *)
Definition plainByte (b : num) : Prop :=
  match b with
  | NaN => True
  | Int z => 0 <= z <= 255
  end.

Definition plainByteb (b : num) : bool :=
  match b with
  | NaN => true
  | Int z => (0 <=? z) && (z <=? 255)
  end.

(** An entry of the byte array that is a byte. *)
Definition byteNum (b : num) : Prop :=
  match b with
  | NaN => False
  | Int z => 0 <= z <= 255
  end.

Definition byteNumb (b : num) : bool :=
  match b with
  | NaN => false
  | Int z => (0 <=? z) && (z <=? 255)
  end.

(** The two readers of hexadecimal text give the same byte for the
    digits [c1] and [c2]. *)
Definition pairAgrees (c1 c2 : Z) : bool :=
  match hexDigit c1, hexDigit c2, parseInt16 [c1; c2] with
  | Some d1, Some d2, Int z => z =? 16 * d1 + d2
  | _, _, _ => false
  end.

(** Every four-byte length that the script can announce is below 2^31:
    the byte four places after a byte [0x4e] is below [0x80]. *)
Definition lengthsBelow31 (bytes : list num) : Prop :=
  forall i z,
    index bytes i = Int 78 -> index bytes (i + 4) = Int z -> z < 128.

(** A byte or [NaN] as an operand of [|] and [<<]. *)
Definition operand (b : num) : Z :=
  match b with
  | NaN => 0
  | Int z => z
  end.

(** A length read by [readLen] that is not negative. *)
Definition notNegative (len : num) : Prop :=
  match len with
  | NaN => True
  | Int l => 0 <= l
  end.

(** [OP_RETURN], a four-byte push of the one byte ["A"], a direct push
    of ["B"]. *)
Definition longPushScript : jsstring := lit "6a4e01000000410142".

End DecoderSpec.

(* ===================================================================== *)
(** ** Vocabulary for the statements about the hops of the crawl *)
(* ===================================================================== *)

Module HopSpec.

Import Chain.

(** The spend endpoint names no transaction; the history of the address
    of output 0 has three entries, the highest of them visited. *)
Definition historyApi : api :=
  Api (fun _ _ => TxNotOk) (fun _ _ => None)
      (fun _ _ => Some [HistoryEntry (lit "aa") 5; HistoryEntry (lit "bb") 9;
                        HistoryEntry (lit "cc") 7]).

Definition historyTx : txData :=
  TxData (Some 1700000000) [Vout (Some (lit "76a914")) (Some (lit "1Address"))].

End HopSpec.

(* ===================================================================== *)
(** ** Properties of the two decoders *)
(* ===================================================================== *)

Module CodecFacts.

Import Sdk CodecSpec.

(** *** Fuel of the server decoder *)

Lemma readPushes_more_fuel capacity fuel : forall bytes i segs r,
  Server.readPushes fuel capacity bytes i segs = Some r ->
  Server.readPushes (S fuel) capacity bytes i segs = Some r.
Proof.
  induction fuel as [|fuel IH]; intros bytes i segs r H; [discriminate|].
  remember (S fuel) as n eqn:En.
  rewrite En in H at 1. simpl in H. simpl.
  destruct (Z.of_nat (length bytes) <=? i); [exact H|].
  destruct (Server.readLen bytes (index bytes i) (i + 1)) as [|len i']; [exact H|].
  destruct (gtb (addz i' len) (Z.of_nat (length bytes))); [exact H|].
  destruct (capacity <=? length segs)%nat; [exact H|].
  destruct len as [|l]; [exact H|].
  subst n. apply IH. exact H.
Qed.

Lemma readPushes_fuel_le capacity fuel fuel' bytes i segs r :
  (fuel <= fuel')%nat ->
  Server.readPushes fuel capacity bytes i segs = Some r ->
  Server.readPushes fuel' capacity bytes i segs = Some r.
Proof.
  induction 1 as [|m _ IH]; [tauto|].
  intros H. apply readPushes_more_fuel. auto.
Qed.

Lemma parse_fuel_le capacity fuel fuel' hex r :
  (fuel <= fuel')%nat ->
  Server.parseOpReturnSegments fuel capacity hex = Some r ->
  Server.parseOpReturnSegments fuel' capacity hex = Some r.
Proof.
  intros Hf. unfold Server.parseOpReturnSegments.
  destruct (_ <? _)%nat; [tauto|].
  destruct (_ <=? _); [tauto|].
  destruct (Server.readPushes fuel _ _ _ _) as [c|] eqn:E; [|discriminate].
  rewrite (readPushes_fuel_le _ _ _ _ _ _ _ Hf E). tauto.
Qed.

(** The server decoder returns at most one list. *)
Lemma returns_functional capacity hex r1 r2 :
  Server.returns capacity hex r1 -> Server.returns capacity hex r2 -> r1 = r2.
Proof.
  intros [f1 H1] [f2 H2].
  apply (parse_fuel_le _ _ (Nat.max f1 f2)) in H1; [|lia].
  apply (parse_fuel_le _ _ (Nat.max f1 f2)) in H2; [|lia].
  congruence.
Qed.

(** *** The loop ends: every iteration that goes on fills one place of
    [segments] *)

Lemma readPushes_room capacity fuel : forall bytes i segs,
  (capacity - length segs < fuel)%nat ->
  is_Some (Server.readPushes fuel capacity bytes i segs).
Proof.
  induction fuel as [|fuel IH]; intros bytes i segs Hf; [lia|].
  cbn [Server.readPushes].
  destruct (Z.of_nat (length bytes) <=? i); [eexists; reflexivity|].
  destruct (Server.readLen bytes (index bytes i) (i + 1)) as [|len i'];
    [eexists; reflexivity|].
  destruct (gtb (addz i' len) (Z.of_nat (length bytes))); [eexists; reflexivity|].
  destruct (Nat.leb_spec capacity (length segs)); [eexists; reflexivity|].
  destruct len as [|l]; [eexists; reflexivity|].
  apply IH. rewrite length_app. cbn [length]. lia.
Qed.

Lemma parse_returns capacity hex fuel :
  (capacity < fuel)%nat ->
  is_Some (Server.parseOpReturnSegments fuel capacity hex).
Proof.
  intros Hf. unfold Server.parseOpReturnSegments.
  destruct (_ <? _)%nat; [eexists; reflexivity|].
  destruct (_ <=? _); [eexists; reflexivity|].
  destruct (readPushes_room capacity fuel (Server.hexToBytes hex)
              (Server.skipToOpReturn (Server.hexToBytes hex) 0) [])
    as [[segs|] ->]; [cbn [length]; lia| |]; eexists; reflexivity.
Qed.

(** [Server.decode] is the value of the call, whatever fuel gave it. *)
Lemma decode_returns capacity hex fuel segs :
  Server.parseOpReturnSegments fuel capacity hex = Some segs ->
  Server.decode capacity hex = segs.
Proof.
  intros H. unfold Server.decode.
  destruct (parse_returns capacity hex (S capacity)) as [r Hr]; [lia|].
  rewrite Hr. cbn [default].
  apply (returns_functional capacity hex); eexists; eassumption.
Qed.

Lemma decode_spec capacity hex fuel :
  (capacity < fuel)%nat ->
  Server.parseOpReturnSegments fuel capacity hex
  = Some (Server.decode capacity hex).
Proof.
  intros Hf. destruct (parse_returns capacity hex fuel Hf) as [r Hr].
  rewrite Hr. f_equal. symmetry. apply (decode_returns _ _ _ _ Hr).
Qed.

(** The largest array of the language holds more than 256 elements. *)
Lemma arrayLimit_split :
  Server.arrayLimit = (256 + (Server.arrayLimit - 256))%nat.
Proof. unfold Server.arrayLimit. lia. Qed.

(** *** The script [6a 4e fb ff ff ff] *)

Lemma stuck_hexToBytes : Server.hexToBytes stuck_script = stuck_bytes.
Proof. reflexivity. Qed.

Lemma stuck_readLen :
  Server.readLen stuck_bytes (index stuck_bytes 1) 2 = Server.Len (Int (-5)) 6.
Proof. reflexivity. Qed.

Lemma stuck_step capacity fuel segs :
  Server.readPushes (S fuel) capacity stuck_bytes 1 segs
  = if (capacity <=? length segs)%nat then Some Server.RangeError
    else Server.readPushes fuel capacity stuck_bytes 1 (segs ++ [[]]).
Proof. reflexivity. Qed.

(** While [segments] has room the cursor comes back to index 1 with one
    more empty segment; the iteration that finds it full throws. *)
Lemma stuck_loop capacity fuel : forall segs,
  Server.readPushes fuel capacity stuck_bytes 1 segs
  = if (fuel <=? capacity - length segs)%nat then None
    else Some Server.RangeError.
Proof.
  induction fuel as [|fuel IH]; intros segs; [reflexivity|].
  rewrite stuck_step.
  destruct (Nat.leb_spec capacity (length segs)) as [Hc|Hc].
  - rewrite (proj2 (Nat.leb_gt _ _)) by lia. reflexivity.
  - rewrite IH, length_app. cbn [length].
    destruct (Nat.leb_spec fuel (capacity - (length segs + 1))).
    + rewrite (proj2 (Nat.leb_le _ _)) by lia. reflexivity.
    + rewrite (proj2 (Nat.leb_gt _ _)) by lia. reflexivity.
Qed.

Lemma stuck_parse capacity fuel :
  Server.parseOpReturnSegments fuel capacity stuck_script
  = if (6 <=? capacity)%nat && (fuel <=? capacity)%nat then None else Some [].
Proof.
  unfold Server.parseOpReturnSegments. rewrite stuck_hexToBytes.
  change (length stuck_bytes) with 6%nat.
  change (Server.skipToOpReturn stuck_bytes 0) with 1.
  change (Z.of_nat 6 <=? 1) with false. cbv iota.
  destruct (Nat.ltb_spec capacity 6) as [Hc|Hc].
  - rewrite (proj2 (Nat.leb_gt 6 capacity)) by lia. reflexivity.
  - rewrite (proj2 (Nat.leb_le 6 capacity)) by lia. cbn [andb].
    rewrite stuck_loop. cbn [length]. rewrite Nat.sub_0_r.
    destruct (fuel <=? capacity)%nat; reflexivity.
Qed.

(** *** Hexadecimal text of a byte array *)


Lemma isByte_in_all b : isByte b -> In b all_bytes.
Proof.
  intros Hb. unfold all_bytes. apply in_map_iff. exists (Z.to_nat b).
  split; [apply Z2Nat.id; apply Hb|]. apply in_seq. unfold isByte in Hb. lia.
Qed.


Lemma all_bytes_hex_ok : forallb byte_hex_ok all_bytes = true.
Proof. vm_compute. reflexivity. Qed.

Lemma byte_hex b :
  isByte b ->
  exists d1 d2,
    hexDigit (hexChar (b / 16)) = Some d1 /\
    hexDigit (hexChar (b mod 16)) = Some d2 /\
    16 * d1 + d2 = b /\
    parseInt16 [hexChar (b / 16); hexChar (b mod 16)] = Int b.
Proof.
  intros Hb. pose proof all_bytes_hex_ok as Hall.
  rewrite forallb_forall in Hall. specialize (Hall b (isByte_in_all b Hb)).
  unfold byte_hex_ok in Hall.
  destruct (hexDigit (hexChar (b / 16))) as [d1|]; [|discriminate].
  destruct (hexDigit (hexChar (b mod 16))) as [d2|]; [|discriminate].
  destruct (parseInt16 _) as [|z]; [discriminate|].
  apply andb_prop in Hall as [H1 H2].
  apply Z.eqb_eq in H1, H2. subst z. exists d1, d2. auto.
Qed.

Lemma hexToArray_toHex bs :
  Forall isByte bs -> hexToArray (toHex bs) = bs.
Proof.
  induction 1 as [|b bs Hb _ IH]; [reflexivity|].
  destruct (byte_hex b Hb) as (d1 & d2 & E1 & E2 & E & _).
  cbn [toHex flat_map app hexToArray]. fold (toHex bs).
  rewrite E1, E2.
  change (16 * d1 + d2 :: hexToArray (toHex bs) = b :: bs).
  rewrite E, IH. reflexivity.
Qed.

Lemma hexToBytes_toHex bs :
  Forall isByte bs -> Server.hexToBytes (toHex bs) = List.map Int bs.
Proof.
  induction 1 as [|b bs Hb _ IH]; [reflexivity|].
  destruct (byte_hex b Hb) as (d1 & d2 & _ & _ & _ & E).
  cbn [toHex flat_map app Server.hexToBytes]. fold (toHex bs).
  rewrite E, IH. reflexivity.
Qed.

Lemma toHex_even bs : Nat.even (length (toHex bs)) = true.
Proof.
  induction bs as [|b bs IH]; [reflexivity|].
  cbn [toHex flat_map app length]. exact IH.
Qed.

Lemma toHex_digits bs :
  Forall isByte bs ->
  forallb (fun c => bool_decide (is_Some (hexDigit c))) (toHex bs) = true.
Proof.
  induction 1 as [|b bs Hb _ IH]; [reflexivity|].
  destruct (byte_hex b Hb) as (d1 & d2 & E1 & E2 & _).
  cbn [toHex flat_map app forallb]. fold (toHex bs).
  rewrite E1, E2, IH. reflexivity.
Qed.

Lemma Script_fromHex_toHex bs :
  Forall isByte bs -> Script_fromHex (toHex bs) = Some (parseChunks 0 bs).
Proof.
  intros Hbs. unfold Script_fromHex.
  rewrite toHex_even, (toHex_digits bs Hbs), (hexToArray_toHex bs Hbs).
  reflexivity.
Qed.

(** *** Pushes, as the SDK writes and parses them *)

Lemma length_leBytes k : forall v, length (leBytes k v) = k.
Proof. induction k as [|k IH]; intros v; simpl; [reflexivity|]. f_equal. apply IH. Qed.

Lemma leBytes_isByte k : forall v, Forall isByte (leBytes k v).
Proof.
  induction k as [|k IH]; intros v; simpl; constructor; [|apply IH].
  unfold isByte. apply Z.mod_pos_bound. lia.
Qed.

Lemma leValue_leBytes k : forall v tail,
  leValue k (leBytes k v ++ tail) = v mod 256 ^ Z.of_nat k.
Proof.
  induction k as [|k IH]; intros v tail.
  - simpl. rewrite Z.mod_1_r. reflexivity.
  - cbn [leBytes leValue app]. rewrite IH.
    rewrite Nat2Z.inj_succ, Z.pow_succ_r by lia.
    rewrite Z.rem_mul_r by lia. reflexivity.
Qed.

Lemma okData_length d : okData d -> 0 < Z.of_nat (length d) < 2 ^ 31.
Proof.
  intros (Hne & Hlt & _). split; [|exact Hlt].
  destruct d; [congruence|]. simpl. lia.
Qed.

Lemma lenWidth_bound n :
  0 <= n < 2 ^ 31 -> 76 <= n -> n < 256 ^ Z.of_nat (lenWidth n).
Proof.
  intros Hn H76. unfold lenWidth.
  destruct (Z.ltb_spec n 76); [lia|].
  destruct (Z.ltb_spec n 256); [change (n < 256); lia|].
  destruct (Z.ltb_spec n 65536); [change (n < 65536); lia|].
  change (n < 4294967296). lia.
Qed.

Lemma chunkBytes_push d :
  okData d ->
  chunkBytes (pushChunk d)
  = pushOp (Z.of_nat (length d))
      :: leBytes (lenWidth (Z.of_nat (length d))) (Z.of_nat (length d)) ++ d.
Proof.
  intros Hd. apply okData_length in Hd.
  unfold chunkBytes, pushChunk, pushOp, lenWidth. cbn [data op].
  set (n := Z.of_nat (length d)) in *.
  unfold OP_PUSHDATA1, OP_PUSHDATA2, OP_PUSHDATA4.
  destruct (Z.ltb_spec n 76); [rewrite (proj2 (Z.ltb_lt n 76)) by lia; reflexivity|].
  destruct (Z.ltb_spec n 256); [reflexivity|].
  destruct (Z.ltb_spec n 65536); reflexivity.
Qed.

Lemma writeBin_push s d :
  okData d -> writeBin s d = Some (s ++ [pushChunk d]).
Proof.
  intros Hd. apply okData_length in Hd.
  unfold writeBin, pushChunk, pushOp.
  set (n := Z.of_nat (length d)) in *.
  unfold OP_PUSHDATA1, OP_PUSHDATA2, OP_PUSHDATA4.
  destruct (Z.ltb_spec n 76).
  - rewrite (proj2 (Z.ltb_lt 0 n)) by lia. reflexivity.
  - rewrite andb_false_r. rewrite (proj2 (Z.eqb_neq n 0)) by lia.
    change (2 ^ 8) with 256. change (2 ^ 16) with 65536.
    destruct (Z.ltb_spec n 256); [reflexivity|].
    destruct (Z.ltb_spec n 65536); [reflexivity|].
    rewrite (proj2 (Z.ltb_lt n (2 ^ 32))) by lia. reflexivity.
Qed.

Lemma conditionalStep_low depth o : o < 99 -> conditionalStep depth o = depth.
Proof.
  intros Ho. unfold conditionalStep, OP_IF, OP_NOTIF, OP_VERIF, OP_VERNOTIF,
    OP_ENDIF.
  rewrite !(proj2 (Z.eqb_neq o _)) by lia. reflexivity.
Qed.

(** The parser on an opcode below [OP_IF]: the counter stays. *)
Lemma parseChunks_low depth o rest :
  o < 99 ->
  parseChunks depth (o :: rest)
  = if (0 <? o) && (o <? OP_PUSHDATA1) then
      Chunk o (Some (take (Z.to_nat o) rest))
        :: parseChunks depth (drop (Z.to_nat o) rest)
    else if o =? OP_PUSHDATA1 then
      Chunk o (Some (take (Z.to_nat (leValue 1 rest)) (drop 1 rest)))
        :: parseChunks depth (drop (Z.to_nat (leValue 1 rest)) (drop 1 rest))
    else if o =? OP_PUSHDATA2 then
      Chunk o (Some (take (Z.to_nat (leValue 2 rest)) (drop 2 rest)))
        :: parseChunks depth (drop (Z.to_nat (leValue 2 rest)) (drop 2 rest))
    else if o =? OP_PUSHDATA4 then
      Chunk o (Some (take (Z.to_nat (leValue 4 rest)) (drop 4 rest)))
        :: parseChunks depth (drop (Z.to_nat (leValue 4 rest)) (drop 4 rest))
    else Chunk o None :: parseChunks depth rest.
Proof.
  intros Ho. rewrite parseChunks_equation_2. unfold OP_RETURN at 1.
  rewrite (proj2 (Z.eqb_neq o 106)) by lia. cbn [andb]. cbv zeta.
  rewrite (conditionalStep_low depth o Ho). reflexivity.
Qed.

Lemma parseChunks_push depth d tail :
  okData d ->
  parseChunks depth (chunkBytes (pushChunk d) ++ tail)
  = pushChunk d :: parseChunks depth tail.
Proof.
  intros Hd. rewrite (chunkBytes_push d Hd).
  pose proof (okData_length d Hd) as Hn.
  pose proof (lenWidth_bound (Z.of_nat (length d))) as Hw.
  unfold pushChunk, pushOp, lenWidth in *.
  set (n := Z.of_nat (length d)) in *.
  assert (Hid : Z.to_nat n = length d) by (subst n; apply Nat2Z.id).
  cbn [app].
  unfold OP_PUSHDATA1, OP_PUSHDATA2, OP_PUSHDATA4 in *.
  destruct (Z.ltb_spec n 76).
  - rewrite parseChunks_low by lia. unfold OP_PUSHDATA1.
    rewrite (proj2 (Z.ltb_lt 0 n)), (proj2 (Z.ltb_lt n 76)) by lia.
    cbn [andb leBytes app]. rewrite Hid, take_app_length, drop_app_length.
    reflexivity.
  - destruct (Z.ltb_spec n 256); [|destruct (Z.ltb_spec n 65536)].
    all: rewrite parseChunks_low by lia.
    all: unfold OP_PUSHDATA1, OP_PUSHDATA2, OP_PUSHDATA4.
    all: cbn [Z.ltb Z.eqb Z.compare Pos.compare Pos.compare_cont andb Pos.eqb].
    all: rewrite <- app_assoc, leValue_leBytes, Z.mod_small by lia.
    all: rewrite Hid.
    all: match goal with
         | |- context [drop ?k (leBytes ?k ?v ++ ?r)] =>
             replace (drop k (leBytes k v ++ r)) with r
               by (rewrite <- (length_leBytes k v) at 1;
                   rewrite drop_app_length; reflexivity)
         end.
    all: rewrite take_app_length, drop_app_length; reflexivity.
Qed.

Lemma parseChunks_plain depth o tail :
  plainOp o ->
  parseChunks depth (o :: tail)
  = Chunk o None :: parseChunks (conditionalStep depth o) tail.
Proof.
  intros ([Ho1 Ho2] & Hp & Hr). rewrite parseChunks_equation_2.
  rewrite (proj2 (Z.eqb_neq o OP_RETURN)) by exact Hr. cbn [andb]. cbv zeta.
  unfold OP_PUSHDATA1, OP_PUSHDATA2, OP_PUSHDATA4.
  destruct Hp as [->|Hp]; [reflexivity|].
  rewrite (proj2 (Z.ltb_ge o 76)) by lia. rewrite andb_false_r.
  rewrite !(proj2 (Z.eqb_neq o _)) by lia. reflexivity.
Qed.

Lemma parseChunks_pushes depth ds :
  Forall okData ds ->
  parseChunks depth (flat_map (fun d => chunkBytes (pushChunk d)) ds)
  = List.map pushChunk ds.
Proof.
  induction 1 as [|d ds Hd _ IH]; [apply parseChunks_equation_1|].
  cbn [flat_map List.map]. rewrite (parseChunks_push depth d _ Hd), IH.
  reflexivity.
Qed.

(** The parser on plain opcodes: one chunk each, the counter moved. *)
Lemma parseChunks_prefix prefix : forall depth rest,
  Forall plainOp prefix ->
  parseChunks depth (prefix ++ rest)
  = List.map (fun o => Chunk o None) prefix
    ++ parseChunks (fold_left conditionalStep prefix depth) rest.
Proof.
  induction prefix as [|o prefix IH]; intros depth rest Hp; [reflexivity|].
  inversion Hp as [|? ? Ho Hp']; subst.
  cbn [app List.map fold_left]. rewrite (parseChunks_plain depth o _ Ho).
  rewrite (IH _ _ Hp'). reflexivity.
Qed.

(** *** 32-bit arithmetic of the server decoder *)

Lemma wrap32_small z : - 2 ^ 31 <= z < 2 ^ 31 -> wrap32 z = z.
Proof. intros Hz. unfold wrap32. rewrite Z.mod_small; lia. Qed.

Lemma lor_shiftl_add a b k :
  0 <= k -> 0 <= a < 2 ^ k -> 0 <= b -> Z.lor a (Z.shiftl b k) = a + b * 2 ^ k.
Proof.
  intros Hk Ha Hb.
  assert (Hland : Z.land a (Z.shiftl b k) = 0).
  { apply Z.bits_inj'. intros i Hi. rewrite Z.land_spec, Z.bits_0.
    destruct (Z.lt_ge_cases i k) as [Hlt|Hge].
    - rewrite Z.shiftl_spec_low by lia. apply andb_false_r.
    - rewrite (proj1 (Z.bounded_iff_bits_nonneg k a Hk (proj1 Ha)) (proj2 Ha) i Hge).
      reflexivity. }
  rewrite <- Z.lxor_lor by exact Hland.
  rewrite <- Z.add_nocarry_lxor by exact Hland.
  rewrite Z.shiftl_mul_pow2 by lia. reflexivity.
Qed.

Lemma bitor_shl a b k :
  0 <= k -> 0 <= a < 2 ^ k -> isByte b -> a + b * 2 ^ k < 2 ^ 31 ->
  bitor (Int a) (shl (Int b) k) = Int (a + b * 2 ^ k).
Proof.
  intros Hk Ha Hb Hlt. unfold bitor, shl, toInt32, isByte in *.
  assert (0 <= b * 2 ^ k) by (apply Z.mul_nonneg_nonneg; lia).
  assert (Es : Z.shiftl b k = b * 2 ^ k) by (apply Z.shiftl_mul_pow2; lia).
  rewrite (wrap32_small b) by lia.
  rewrite (wrap32_small a) by lia.
  rewrite !(wrap32_small (Z.shiftl b k)) by lia.
  rewrite lor_shiftl_add by lia.
  rewrite wrap32_small by lia. reflexivity.
Qed.

(** The length expressions of the [0x4d] and [0x4e] cases. *)
Lemma server_len16 b0 b1 :
  isByte b0 -> isByte b1 ->
  bitor (Int b0) (shl (Int b1) 8) = Int (leValue 2 [b0; b1]).
Proof.
  intros H0 H1. unfold isByte in *.
  rewrite bitor_shl by (unfold isByte; lia).
  f_equal. cbn [leValue]. lia.
Qed.

Lemma server_len32 b0 b1 b2 b3 :
  isByte b0 -> isByte b1 -> isByte b2 -> isByte b3 ->
  leValue 4 [b0; b1; b2; b3] < 2 ^ 31 ->
  bitor (bitor (bitor (Int b0) (shl (Int b1) 8)) (shl (Int b2) 16))
        (shl (Int b3) 24)
  = Int (leValue 4 [b0; b1; b2; b3]).
Proof.
  intros H0 H1 H2 H3 Hlt. unfold isByte in *. cbn [leValue] in *.
  rewrite (bitor_shl b0 b1 8) by (unfold isByte; lia).
  rewrite (bitor_shl _ b2 16) by (unfold isByte; lia).
  rewrite (bitor_shl _ b3 24) by (unfold isByte; lia).
  f_equal. lia.
Qed.

(** *** Array reads at an offset *)

Lemma index_app_r (P R : list Z) j :
  0 <= j ->
  index (List.map Int (P ++ R)) (Z.of_nat (length P) + j)
  = index (List.map Int R) j.
Proof.
  intros Hj. unfold index.
  rewrite (proj2 (Z.ltb_ge _ 0)) by lia. rewrite (proj2 (Z.ltb_ge j 0)) by lia.
  rewrite List.map_app, app_nth2; rewrite length_map; [|lia].
  f_equal. lia.
Qed.

Lemma readLen_shift (P R : list Z) o j :
  0 <= j ->
  Server.readLen (List.map Int (P ++ R)) o (Z.of_nat (length P) + j)
  = shiftLen (Z.of_nat (length P)) (Server.readLen (List.map Int R) o j).
Proof.
  intros Hj. unfold Server.readLen.
  rewrite !length_map, length_app, Nat2Z.inj_add.
  set (p := Z.of_nat (length P)). set (r := Z.of_nat (length R)).
  destruct o as [|o]; [reflexivity|].
  destruct ((1 <=? o) && (o <=? 75)); [reflexivity|].
  assert (E1 : p + j + 1 = p + (j + 1)) by lia.
  assert (E2 : p + j + 2 = p + (j + 2)) by lia.
  assert (E3 : p + j + 3 = p + (j + 3)) by lia.
  assert (E4 : p + j + 4 = p + (j + 4)) by lia.
  rewrite E1, E2, E3, E4. subst p.
  rewrite !index_app_r by lia.
  set (p := Z.of_nat (length P)).
  replace (p + r <=? p + j) with (r <=? j) by (apply eq_true_iff_eq; rewrite !Z.leb_le; lia).
  replace (p + r <=? p + (j + 1)) with (r <=? j + 1) by (apply eq_true_iff_eq; rewrite !Z.leb_le; lia).
  replace (p + r <=? p + (j + 3)) with (r <=? j + 3) by (apply eq_true_iff_eq; rewrite !Z.leb_le; lia).
  destruct (o =? 76); [destruct (r <=? j); reflexivity|].
  destruct (o =? 77); [destruct (r <=? j + 1); reflexivity|].
  destruct (o =? 78); [destruct (r <=? j + 3); reflexivity|].
  reflexivity.
Qed.

Lemma slice_middle {A} (P d T : list A) :
  slice (P ++ d ++ T) (Int (Z.of_nat (length P)))
        (Int (Z.of_nat (length P) + Z.of_nat (length d))) = d.
Proof.
  unfold slice, clampIndex. rewrite !length_app, !Nat2Z.inj_add.
  rewrite (proj2 (Z.ltb_ge _ 0)) by lia. rewrite (proj2 (Z.ltb_ge _ 0)) by lia.
  rewrite !Z.min_l by lia.
  replace (Z.of_nat (length P) + Z.of_nat (length d) - Z.of_nat (length P))
    with (Z.of_nat (length d)) by lia.
  rewrite !Nat2Z.id. rewrite drop_app_length, take_app_length. reflexivity.
Qed.

Lemma Uint8Array_bytes d : Forall isByte d -> Uint8Array (List.map Int d) = d.
Proof.
  induction 1 as [|b d Hb _ IH]; [reflexivity|].
  unfold Uint8Array in *. cbn [List.map toUint8]. rewrite IH.
  unfold isByte in Hb. rewrite Z.mod_small by lia. reflexivity.
Qed.

(** *** One push read by the server loop *)

Lemma readLen_push d T :
  okData d ->
  Server.readLen (List.map Int (chunkBytes (pushChunk d) ++ T))
    (Int (pushOp (Z.of_nat (length d)))) 1
  = Server.Len (Int (Z.of_nat (length d)))
      (1 + Z.of_nat (lenWidth (Z.of_nat (length d)))).
Proof.
  intros Hd. rewrite (chunkBytes_push d Hd).
  pose proof (okData_length d Hd) as Hn.
  pose proof (lenWidth_bound (Z.of_nat (length d))) as Hw.
  pose proof (leValue_leBytes (lenWidth (Z.of_nat (length d)))
                (Z.of_nat (length d)) []) as Hv.
  pose proof (leBytes_isByte (lenWidth (Z.of_nat (length d)))
                (Z.of_nat (length d))) as Hb.
  unfold Server.readLen, pushOp, lenWidth in *.
  set (n := Z.of_nat (length d)) in *.
  unfold OP_PUSHDATA1, OP_PUSHDATA2, OP_PUSHDATA4 in *.
  rewrite length_map.
  destruct (Z.ltb_spec n 76).
  { rewrite (proj2 (Z.leb_le 1 n)), (proj2 (Z.leb_le n 75)) by lia.
    reflexivity. }
  specialize (Hw ltac:(lia) ltac:(lia)).
  destruct (Z.ltb_spec n 256); [|destruct (Z.ltb_spec n 65536)].
  - rewrite Z.mod_small in Hv by lia.
    cbn [leBytes app length] in *.
    replace ((1 <=? 76) && (76 <=? 75)) with false by reflexivity.
    replace (76 =? 76) with true by reflexivity.
    destruct (Z.leb_spec (Z.of_nat (S (S (length (d ++ T))))) 1); [lia|].
    change (index _ 1) with (Int (n mod 256)).
    cbn [leValue] in Hv. f_equal. f_equal. lia.
  - rewrite Z.mod_small in Hv by lia.
    cbn [leBytes app length] in *.
    replace ((1 <=? 77) && (77 <=? 75)) with false by reflexivity.
    replace (77 =? 76) with false by reflexivity.
    replace (77 =? 77) with true by reflexivity.
    destruct (Z.leb_spec (Z.of_nat (S (S (S (length (d ++ T)))))) (1 + 1)); [lia|].
    change (index _ 1) with (Int (n mod 256)).
    change (index _ (1 + 1)) with (Int (n / 256 mod 256)).
    inversion Hb as [|? ? Hb0 Hb1]; subst. inversion Hb1 as [|? ? Hb2 _]; subst.
    rewrite server_len16 by assumption. rewrite Hv. reflexivity.
  - rewrite Z.mod_small in Hv by lia.
    cbn [leBytes app length] in *.
    replace ((1 <=? 78) && (78 <=? 75)) with false by reflexivity.
    replace (78 =? 76) with false by reflexivity.
    replace (78 =? 77) with false by reflexivity.
    replace (78 =? 78) with true by reflexivity.
    destruct (Z.leb_spec (Z.of_nat (S (S (S (S (S (length (d ++ T)))))))) (1 + 3)); [lia|].
    change (index _ 1) with (Int (n mod 256)).
    change (index _ (1 + 1)) with (Int (n / 256 mod 256)).
    change (index _ (1 + 2)) with (Int (n / 256 / 256 mod 256)).
    change (index _ (1 + 3)) with (Int (n / 256 / 256 / 256 mod 256)).
    inversion Hb as [|? ? Hb0 Hb1]; subst. inversion Hb1 as [|? ? Hb2 Hb3]; subst.
    inversion Hb3 as [|? ? Hb4 Hb5]; subst. inversion Hb5 as [|? ? Hb6 _]; subst.
    rewrite server_len32 by (try assumption; rewrite Hv; lia).
    rewrite Hv. reflexivity.
Qed.

Lemma length_chunkBytes_push d :
  okData d ->
  Z.of_nat (length (chunkBytes (pushChunk d)))
  = 1 + Z.of_nat (lenWidth (Z.of_nat (length d))) + Z.of_nat (length d).
Proof.
  intros Hd. rewrite (chunkBytes_push d Hd).
  cbn [length]. rewrite length_app, length_leBytes. lia.
Qed.

Lemma readPushes_push capacity fuel (P d T : list Z) segs :
  okData d -> (length segs < capacity)%nat ->
  Server.readPushes (S fuel) capacity
    (List.map Int (P ++ chunkBytes (pushChunk d) ++ T))
    (Z.of_nat (length P)) segs
  = Server.readPushes fuel capacity
      (List.map Int (P ++ chunkBytes (pushChunk d) ++ T))
      (Z.of_nat (length (P ++ chunkBytes (pushChunk d))))
      (segs ++ [TextDecoder_decode d]).
Proof.
  intros Hd Hroom.
  pose proof (length_chunkBytes_push d Hd) as Hlen.
  pose proof (okData_length d Hd) as Hn.
  cbn [Server.readPushes].
  set (bytes := List.map Int (P ++ chunkBytes (pushChunk d) ++ T)).
  assert (Hbl : Z.of_nat (length bytes)
                = Z.of_nat (length P) + Z.of_nat (length (chunkBytes (pushChunk d)))
                  + Z.of_nat (length T)).
  { subst bytes. rewrite length_map, !length_app. lia. }
  rewrite (proj2 (Z.leb_gt _ _)) by lia.
  assert (Hop : index bytes (Z.of_nat (length P))
                = Int (pushOp (Z.of_nat (length d)))).
  { subst bytes. rewrite <- (Z.add_0_r (Z.of_nat (length P))).
    rewrite index_app_r by lia. rewrite (chunkBytes_push d Hd). reflexivity. }
  rewrite Hop. subst bytes.
  rewrite readLen_shift by lia. rewrite (readLen_push d T Hd).
  cbn [shiftLen addz gtb].
  set (w := Z.of_nat (lenWidth (Z.of_nat (length d)))) in *.
  set (n := Z.of_nat (length d)) in *.
  set (bytes := List.map Int (P ++ chunkBytes (pushChunk d) ++ T)) in *.
  rewrite (proj2 (Z.ltb_ge _ _)) by lia.
  rewrite (proj2 (Nat.leb_gt _ _)) by exact Hroom.
  assert (Hsl : slice bytes (Int (Z.of_nat (length P) + (1 + w)))
                  (Int (Z.of_nat (length P) + (1 + w) + n))
                = List.map Int d).
  { subst bytes. rewrite (chunkBytes_push d Hd).
    fold n. change (lenWidth n) with (lenWidth (Z.of_nat (length d))).
    set (hd := pushOp n :: leBytes (lenWidth (Z.of_nat (length d))) n).
    replace (P ++ (pushOp n :: leBytes (lenWidth (Z.of_nat (length d))) n ++ d) ++ T)
      with ((P ++ hd) ++ d ++ T)
      by (subst hd; rewrite <- !app_assoc; cbn [app]; rewrite <- ?app_assoc; reflexivity).
    rewrite !List.map_app.
    assert (Hhd : Z.of_nat (length (List.map Int P ++ List.map Int hd))
                  = Z.of_nat (length P) + (1 + w)).
    { rewrite length_app, !length_map. subst hd. cbn [length].
      rewrite length_leBytes. subst w n. lia. }
    rewrite <- Hhd.
    replace n with (Z.of_nat (length (List.map Int d)))
      by (rewrite length_map; reflexivity).
    apply slice_middle. }
  rewrite Hsl, (Uint8Array_bytes d) by apply Hd.
  f_equal. rewrite length_app. lia.
Qed.

Lemma readPushes_pushes capacity ds : forall (P : list Z) segs,
  Forall okData ds ->
  (length segs + length ds <= capacity)%nat ->
  Server.readPushes (S (length ds)) capacity
    (List.map Int (P ++ flat_map (fun d => chunkBytes (pushChunk d)) ds))
    (Z.of_nat (length P)) segs
  = Some (Server.Normal (segs ++ List.map TextDecoder_decode ds)).
Proof.
  induction ds as [|d ds IH]; intros P segs Hds Hroom.
  - cbn [flat_map List.map length Server.readPushes].
    rewrite app_nil_r, length_map, Z.leb_refl, app_nil_r. reflexivity.
  - inversion Hds as [|? ? Hd Hds']; subst.
    cbn [flat_map length List.map] in *.
    rewrite (readPushes_push capacity _ P d _ segs Hd) by lia.
    rewrite (app_assoc P). rewrite (IH _ _ Hds').
    + rewrite <- app_assoc. reflexivity.
    + rewrite length_app. cbn [length]. lia.
Qed.

(** *** The scan for [OP_RETURN] *)

Lemma skipToOpReturn_plain prefix : forall rest i,
  Forall plainOp prefix ->
  Server.skipToOpReturn (List.map Int (prefix ++ OP_RETURN :: rest)) i
  = i + Z.of_nat (length prefix) + 1.
Proof.
  induction prefix as [|o prefix IH]; intros rest i Hp.
  - cbn. lia.
  - inversion Hp as [|? ? (_ & _ & Ho) Hp']; subst.
    cbn [app List.map Server.skipToOpReturn num_eqb length].
    unfold OP_RETURN in Ho. rewrite (proj2 (Z.eqb_neq o 106)) by exact Ho.
    rewrite (IH _ _ Hp'). lia.
Qed.

Lemma afterOpReturn_plain prefix : forall rest,
  Forall plainOp prefix ->
  Did.afterOpReturn (List.map (fun o => Chunk o None) prefix
                     ++ Chunk OP_RETURN None :: rest) = Some rest.
Proof.
  induction prefix as [|o prefix IH]; intros rest Hp.
  - reflexivity.
  - inversion Hp as [|? ? (_ & _ & Ho) Hp']; subst.
    cbn [app List.map Did.afterOpReturn op].
    rewrite (proj2 (Z.eqb_neq o OP_RETURN)) by exact Ho. apply IH, Hp'.
Qed.

(** A data-carrier script whose [OP_RETURN] is outside of every
    conditional block: the pushes are not parsed. *)
Lemma parseChunks_carrier_top prefix ds :
  Forall plainOp prefix -> depthAfter prefix = 0 ->
  parseChunks 0 (carrierScript prefix ds)
  = List.map (fun o => Chunk o None) prefix
    ++ [Chunk OP_RETURN
          (Some (flat_map (fun d => chunkBytes (pushChunk d)) ds))].
Proof.
  intros Hp Hd. unfold carrierScript.
  rewrite (parseChunks_prefix prefix 0 _ Hp). fold (depthAfter prefix).
  rewrite Hd, parseChunks_equation_2. reflexivity.
Qed.

(** A data-carrier script whose [OP_RETURN] is inside a conditional
    block: one chunk per push. *)
Lemma parseChunks_carrier_conditional prefix ds :
  Forall plainOp prefix -> Forall okData ds -> depthAfter prefix <> 0 ->
  parseChunks 0 (carrierScript prefix ds)
  = List.map (fun o => Chunk o None) prefix
    ++ Chunk OP_RETURN None :: List.map pushChunk ds.
Proof.
  intros Hp Hds Hd. unfold carrierScript.
  rewrite (parseChunks_prefix prefix 0 _ Hp). fold (depthAfter prefix).
  rewrite parseChunks_equation_2.
  rewrite (proj2 (Z.eqb_neq (depthAfter prefix) 0)) by exact Hd.
  rewrite andb_false_r. cbv zeta.
  replace ((0 <? OP_RETURN) && (OP_RETURN <? OP_PUSHDATA1)) with false
    by reflexivity.
  replace (OP_RETURN =? OP_PUSHDATA1) with false by reflexivity.
  replace (OP_RETURN =? OP_PUSHDATA2) with false by reflexivity.
  replace (OP_RETURN =? OP_PUSHDATA4) with false by reflexivity.
  rewrite (parseChunks_pushes _ ds Hds). reflexivity.
Qed.

Lemma afterOpReturn_data prefix : forall d rest,
  Forall plainOp prefix ->
  Did.afterOpReturn (List.map (fun o => Chunk o None) prefix
                     ++ Chunk OP_RETURN (Some d) :: rest) = Some rest.
Proof.
  induction prefix as [|o prefix IH]; intros d rest Hp.
  - reflexivity.
  - inversion Hp as [|? ? (_ & _ & Ho) Hp']; subst.
    cbn [app List.map Did.afterOpReturn op].
    rewrite (proj2 (Z.eqb_neq o OP_RETURN)) by exact Ho. apply IH, Hp'.
Qed.

Lemma collectSegments_pushes ds :
  Did.collectSegments (List.map pushChunk ds) = List.map TextDecoder_decode ds.
Proof.
  induction ds as [|d ds IH]; [reflexivity|].
  cbn [List.map Did.collectSegments pushChunk data]. rewrite IH. reflexivity.
Qed.

Lemma carrierScript_bytes prefix ds :
  Forall plainOp prefix -> Forall okData ds ->
  Forall isByte (carrierScript prefix ds).
Proof.
  intros Hp Hds. unfold carrierScript. apply Forall_app. split.
  - eapply Forall_impl; [exact Hp|]. intros o (Ho & _). exact Ho.
  - constructor; [unfold isByte, OP_RETURN; lia|].
    induction Hds as [|d ds Hd _ IH]; [constructor|].
    cbn [flat_map]. apply Forall_app. split; [|exact IH].
    rewrite (chunkBytes_push d Hd). pose proof (okData_length d Hd) as Hn.
    constructor.
    + unfold isByte, pushOp, OP_PUSHDATA1, OP_PUSHDATA2, OP_PUSHDATA4.
      destruct (Z.ltb_spec (Z.of_nat (length d)) 76); [lia|].
      destruct (Z.ltb_spec (Z.of_nat (length d)) 256); [lia|].
      destruct (Z.ltb_spec (Z.of_nat (length d)) 65536); lia.
    + apply Forall_app. split; [apply leBytes_isByte|apply Hd].
Qed.

(** *** Both decoders on a data-carrier script *)

Lemma did_decodes_carrier prefix ds :
  Forall plainOp prefix -> Forall okData ds -> depthAfter prefix <> 0 ->
  Did.parseOpReturnSegments (toHex (carrierScript prefix ds))
  = List.map TextDecoder_decode ds.
Proof.
  intros Hp Hds Hd. unfold Did.parseOpReturnSegments.
  rewrite Script_fromHex_toHex by (apply carrierScript_bytes; assumption).
  rewrite (parseChunks_carrier_conditional prefix ds Hp Hds Hd).
  rewrite (afterOpReturn_plain prefix _ Hp). apply collectSegments_pushes.
Qed.

Lemma did_misses_carrier prefix ds :
  Forall plainOp prefix -> Forall okData ds -> depthAfter prefix = 0 ->
  Did.parseOpReturnSegments (toHex (carrierScript prefix ds)) = [].
Proof.
  intros Hp Hds Hd. unfold Did.parseOpReturnSegments.
  rewrite Script_fromHex_toHex by (apply carrierScript_bytes; assumption).
  rewrite (parseChunks_carrier_top prefix ds Hp Hd).
  change [Chunk OP_RETURN (Some (flat_map (fun d => chunkBytes (pushChunk d)) ds))]
    with (Chunk OP_RETURN (Some (flat_map (fun d => chunkBytes (pushChunk d)) ds))
            :: []).
  rewrite (afterOpReturn_data prefix _ _ Hp). reflexivity.
Qed.

Lemma length_pushes_le ds :
  Forall okData ds ->
  (length ds <= length (flat_map (fun d => chunkBytes (pushChunk d)) ds))%nat.
Proof.
  induction 1 as [|d ds Hd _ IH]; [reflexivity|].
  cbn [flat_map length]. rewrite length_app.
  pose proof (length_chunkBytes_push d Hd). lia.
Qed.

Lemma server_reads_carrier capacity prefix ds :
  Forall plainOp prefix -> Forall okData ds ->
  (length (carrierScript prefix ds) <= capacity)%nat ->
  Server.parseOpReturnSegments (S (length ds)) capacity
    (toHex (carrierScript prefix ds))
  = Some (List.map TextDecoder_decode ds).
Proof.
  intros Hp Hds Hcap. unfold Server.parseOpReturnSegments.
  rewrite hexToBytes_toHex by (apply carrierScript_bytes; assumption).
  rewrite length_map. rewrite (proj2 (Nat.ltb_ge _ _)) by exact Hcap.
  assert (Hskip : Server.skipToOpReturn (List.map Int (carrierScript prefix ds)) 0
                  = 0 + Z.of_nat (length prefix) + 1)
    by apply (skipToOpReturn_plain prefix _ 0 Hp).
  rewrite Hskip. clear Hskip.
  destruct ds as [|d ds].
  - unfold carrierScript. cbn [flat_map]. rewrite length_app.
    cbn [length]. rewrite (proj2 (Z.leb_le _ _)) by lia. reflexivity.
  - assert (Hlen : Z.of_nat (length (carrierScript prefix (d :: ds)))
                   > 0 + Z.of_nat (length prefix) + 1).
    { inversion Hds as [|? ? Hd _]; subst.
      pose proof (length_chunkBytes_push d Hd).
      unfold carrierScript. rewrite length_app. cbn [length flat_map].
      rewrite length_app. lia. }
    rewrite (proj2 (Z.leb_gt _ _)) by lia.
    pose proof (length_pushes_le (d :: ds) Hds) as Hle.
    unfold carrierScript in Hcap |- *. rewrite length_app in Hcap.
    cbn [length] in Hcap.
    replace (prefix ++ OP_RETURN :: flat_map (fun d0 => chunkBytes (pushChunk d0)) (d :: ds))
      with ((prefix ++ [OP_RETURN]) ++ flat_map (fun d0 => chunkBytes (pushChunk d0)) (d :: ds))
      by (rewrite <- app_assoc; reflexivity).
    replace (0 + Z.of_nat (length prefix) + 1)
      with (Z.of_nat (length (prefix ++ [OP_RETURN])))
      by (rewrite length_app; cbn [length]; lia).
    rewrite (readPushes_pushes capacity (d :: ds) _ [] Hds); [reflexivity|].
    cbn [length] in *. lia.
Qed.

Lemma server_decodes_carrier capacity prefix ds :
  Forall plainOp prefix -> Forall okData ds ->
  (length (carrierScript prefix ds) <= capacity)%nat ->
  Server.decode capacity (toHex (carrierScript prefix ds))
  = List.map TextDecoder_decode ds.
Proof.
  intros Hp Hds Hcap.
  apply (decode_returns _ _ _ _ (server_reads_carrier _ _ _ Hp Hds Hcap)).
Qed.

(** *** Printable strings through the UTF-8 encoder and decoder *)

Lemma utf8ToArray_printable s : printable s -> utf8ToArray s = s.
Proof.
  induction 1 as [|c s Hc _ IH]; [reflexivity|].
  cbn [utf8ToArray]. rewrite (proj2 (Z.ltb_lt c 128)) by lia.
  rewrite IH. reflexivity.
Qed.

Lemma utf8_decode_printable s : printable s -> utf8_decode None s = s.
Proof.
  induction 1 as [|c s Hc _ IH]; [reflexivity|].
  cbn [utf8_decode]. unfold utf8_lead.
  rewrite (proj2 (Z.leb_le 0 c)), (proj2 (Z.leb_le c 127)) by lia.
  cbn [andb app]. rewrite IH. reflexivity.
Qed.

Lemma utf16_units_printable s : printable s -> flat_map utf16_units s = s.
Proof.
  induction 1 as [|c s Hc _ IH]; [reflexivity|].
  cbn [flat_map]. unfold utf16_units at 1.
  rewrite (proj2 (Z.ltb_lt c 65536)) by lia. cbn [app]. rewrite IH. reflexivity.
Qed.

Lemma stripBOM_printable s : printable s -> stripBOM s = s.
Proof.
  intros Hs. destruct Hs as [|c s Hc _]; [reflexivity|].
  unfold stripBOM. destruct c as [|p|p]; try reflexivity.
  repeat (destruct p as [p|p|]; try reflexivity).
  exfalso. lia.
Qed.

Lemma TextDecoder_printable s : printable s -> TextDecoder_decode s = s.
Proof.
  intros Hs. unfold TextDecoder_decode.
  rewrite (utf8_decode_printable s Hs), (stripBOM_printable s Hs).
  apply utf16_units_printable, Hs.
Qed.

Lemma printable_okData s :
  printable s -> s <> [] -> Z.of_nat (length s) < 2 ^ 31 -> okData s.
Proof.
  intros Hs Hne Hlen. repeat split; try assumption.
  eapply Forall_impl; [exact Hs|]. intros c Hc. cbv beta in Hc. unfold isByte. lia.
Qed.

Lemma printable_lit_marker : printable Did.BSVDID_MARKER.
Proof. repeat constructor; cbn; lia. Qed.

(** The script that [buildOpReturn] writes. *)
Lemma buildOpReturn_chunks code payload :
  okData (utf8ToArray code) -> okData (utf8ToArray payload) ->
  Did.buildOpReturn code payload
  = Some [Chunk OP_FALSE None; Chunk OP_RETURN None;
          pushChunk (utf8ToArray Did.BSVDID_MARKER);
          pushChunk (utf8ToArray code); pushChunk (utf8ToArray payload)].
Proof.
  intros Hc Hp. unfold Did.buildOpReturn, writeOpCode.
  assert (Hm : okData (utf8ToArray Did.BSVDID_MARKER)).
  { rewrite (utf8ToArray_printable _ printable_lit_marker).
    apply printable_okData; [apply printable_lit_marker|discriminate|].
    cbn. lia. }
  rewrite (writeBin_push _ _ Hm). cbn [mbind option_bind].
  rewrite (writeBin_push _ _ Hc). cbn [mbind option_bind].
  rewrite (writeBin_push _ _ Hp). reflexivity.
Qed.

Lemma plainOp_false : plainOp OP_FALSE.
Proof. unfold plainOp, isByte, OP_FALSE, OP_RETURN. lia. Qed.

(** *** Every script of [buildOpReturn] through the decoder of the module *)

Lemma writeBin_snoc s bin s' :
  writeBin s bin = Some s' -> exists c, s' = s ++ [c].
Proof.
  unfold writeBin.
  repeat match goal with
         | |- context [if ?b then _ else _] => destruct b
         end; intros [= <-]; eexists; reflexivity.
Qed.

(** The hex text of a script of [buildOpReturn] starts with the digits of
    [OP_FALSE] and [OP_RETURN]. *)
Lemma buildOpReturn_hex code payload script :
  Did.buildOpReturn code payload = Some script ->
  exists rest, Script_toHex script = lit "006a" ++ rest.
Proof.
  unfold Did.buildOpReturn, writeOpCode. cbn [app].
  destruct (writeBin _ (utf8ToArray Did.BSVDID_MARKER)) as [s1|] eqn:E1;
    [|discriminate].
  cbn [mbind option_bind].
  destruct (writeBin s1 (utf8ToArray code)) as [s2|] eqn:E2; [|discriminate].
  cbn [mbind option_bind]. intros E3.
  apply writeBin_snoc in E1 as [c1 ->].
  apply writeBin_snoc in E2 as [c2 ->].
  apply writeBin_snoc in E3 as [c3 ->].
  cbn [app]. unfold Script_toHex, toBinary. cbn [flat_map].
  change (chunkBytes (Chunk OP_FALSE None)) with [OP_FALSE].
  change (chunkBytes (Chunk OP_RETURN None)) with [OP_RETURN].
  cbn [app]. eexists. reflexivity.
Qed.

(** On hex text that starts with [00 6a] the parser of the SDK stops at
    the second chunk, and the decoder of the module finds nothing after
    it. *)
Lemma did_misses_top_level rest :
  Did.parseOpReturnSegments (lit "006a" ++ rest) = [].
Proof.
  unfold Did.parseOpReturnSegments, Script_fromHex.
  destruct (negb (Nat.even _)); [reflexivity|].
  destruct (negb (forallb _ _)); [reflexivity|].
  change (hexToArray (lit "006a" ++ rest)) with (0 :: 106 :: hexToArray rest).
  rewrite parseChunks_low by lia.
  change ((0 <? 0) && (0 <? OP_PUSHDATA1)) with false.
  change (0 =? OP_PUSHDATA1) with false.
  change (0 =? OP_PUSHDATA2) with false.
  change (0 =? OP_PUSHDATA4) with false. cbv iota.
  rewrite parseChunks_equation_2. reflexivity.
Qed.

Lemma length_leBytes_lenWidth n : (lenWidth n <= 4)%nat.
Proof.
  unfold lenWidth. repeat destruct (_ <? _); lia.
Qed.

(** The script of [buildOpReturn] is at most 19 bytes longer than its
    arguments. *)
Lemma length_built_script code payload :
  printable code -> printable payload ->
  code <> [] -> payload <> [] ->
  Z.of_nat (length code) < 2 ^ 31 -> Z.of_nat (length payload) < 2 ^ 31 ->
  (length (carrierScript [OP_FALSE] [Did.BSVDID_MARKER; code; payload])
   <= length code + length payload + 19)%nat.
Proof.
  intros Hc Hp Nc Np Lc Lp.
  pose proof (printable_okData _ Hc Nc Lc) as Dc.
  pose proof (printable_okData _ Hp Np Lp) as Dp.
  pose proof (length_chunkBytes_push _ Dc) as Ec.
  pose proof (length_chunkBytes_push _ Dp) as Ep.
  pose proof (length_leBytes_lenWidth (Z.of_nat (length code))).
  pose proof (length_leBytes_lenWidth (Z.of_nat (length payload))).
  unfold carrierScript. cbn [flat_map app length].
  rewrite !length_app. cbn [length].
  change (length (chunkBytes (pushChunk Did.BSVDID_MARKER))) with 7%nat.
  lia.
Qed.

End CodecFacts.

(** The capacity [Server.arrayLimit] written as 256 places and the rest,
    so that a run that fills fewer places evaluates. *)
Ltac at_array_limit :=
  rewrite CodecFacts.arrayLimit_split;
  generalize (Server.arrayLimit - 256)%nat; intros ?.


(* ===================================================================== *)
(** ** The basket under the DID methods *)
(* ===================================================================== *)

Module EngineFacts.

Import Engine EngineSpec.

(** *** Listings after a spend *)

Lemma listOutputs_unspend p w b :
  listOutputs (unspend p w) b = List.filter (notAt p) (listOutputs w b).
Proof.
  unfold listOutputs, unspend. rewrite lookup_fmap.
  destruct (w !! b); reflexivity.
Qed.

Lemma listOutputs_insert (w : wallet) b b' l :
  listOutputs (<[ b := l ]> w) b' = if decide (b = b') then l else listOutputs w b'.
Proof.
  unfold listOutputs. destruct (decide (b = b')) as [->|Hne].
  - rewrite lookup_insert_eq. reflexivity.
  - rewrite lookup_insert_ne by exact Hne. reflexivity.
Qed.

Lemma listOutputs_track txid outs : forall index w b,
  listOutputs (track txid index outs w) b
  = listOutputs w b ++ created b txid index outs.
Proof.
  induction outs as [|o outs IH]; intros index w b.
  - cbn. rewrite app_nil_r. reflexivity.
  - cbn [track created]. rewrite IH.
    destruct (no_basket o) as [b0|] eqn:Eb.
    + rewrite listOutputs_insert. destruct (decide (b0 = b)) as [->|Hne].
      * rewrite bool_decide_eq_true_2 by reflexivity.
        rewrite <- app_assoc. reflexivity.
      * rewrite bool_decide_eq_false_2 by congruence. reflexivity.
    + rewrite bool_decide_eq_false_2 by discriminate. reflexivity.
Qed.

(** *** The scan for the active tip *)

Lemma scanActive_last did outputs :
  scanActive did outputs
  = o ← last (List.filter (activeFor did) outputs);
    ci ← metadataOf o;
    Some (ci, outpoint o).
Proof.
  unfold scanActive.
  rewrite <- (app_nil_l outputs) at 2.
  change (@None (chainCI * jsstring))
    with (o ← last (List.filter (activeFor did) []);
          ci ← metadataOf o; Some (ci, outpoint o)).
  generalize (@nil output) as done.
  induction outputs as [|o outputs IH]; intros done.
  - rewrite app_nil_r. reflexivity.
  - cbn [fold_left].
    replace (done ++ o :: outputs) with ((done ++ [o]) ++ outputs)
      by (rewrite <- app_assoc; reflexivity).
    rewrite <- IH. f_equal.
    rewrite List.filter_app, last_app. cbn [List.filter].
    destruct (activeFor did o) eqn:Ea; unfold activeFor in Ea;
      destruct (customInstructions o) as [| |ci] eqn:Eo; try discriminate;
      try reflexivity.
    + rewrite Ea. cbn. unfold metadataOf. rewrite Eo. reflexivity.
    + rewrite Ea. reflexivity.
Qed.

Lemma scanActive_none did w :
  activeTips did w = [] -> scanActive did (listOutputs w didBasket) = None.
Proof.
  unfold activeTips. intros H. rewrite scanActive_last, H. reflexivity.
Qed.

Lemma scanActive_some did w ci tip :
  scanActive did (listOutputs w didBasket) = Some (ci, tip) ->
  exists o, last (activeTips did w) = Some o /\
            customInstructions o = Parsed ci /\ outpoint o = tip.
Proof.
  unfold activeTips. rewrite scanActive_last. intros H.
  destruct (last _) as [o|]; [|discriminate]. cbn in H.
  unfold metadataOf in H.
  destruct (customInstructions o) as [| |ci'] eqn:Eo; try discriminate.
  cbn in H. injection H as <- <-. exists o. auto.
Qed.

(** *** Active tips after a transaction *)

Lemma filter_comm {A} (f g : A -> bool) l :
  List.filter f (List.filter g l) = List.filter g (List.filter f l).
Proof.
  induction l as [|x l IH]; [reflexivity|]. cbn [List.filter].
  destruct (f x) eqn:Ef, (g x) eqn:Eg; cbn [List.filter];
    rewrite ?Ef, ?Eg, IH; reflexivity.
Qed.

Lemma activeTips_track did txid index outs w :
  activeTips did (track txid index outs w)
  = activeTips did w ++ List.filter (activeFor did) (created didBasket txid index outs).
Proof.
  unfold activeTips. rewrite listOutputs_track, List.filter_app. reflexivity.
Qed.

Lemma activeTips_unspend did p w :
  activeTips did (unspend p w) = List.filter (notAt p) (activeTips did w).
Proof.
  unfold activeTips. rewrite listOutputs_unspend. apply filter_comm.
Qed.

Lemma namesDid_track did txid index outs w :
  List.filter (namesDid did) (listOutputs (track txid index outs w) didBasket)
  = List.filter (namesDid did) (listOutputs w didBasket)
    ++ List.filter (namesDid did) (created didBasket txid index outs).
Proof. rewrite listOutputs_track, List.filter_app. reflexivity. Qed.

Lemma activeFor_namesDid did o : activeFor did o = true -> namesDid did o = true.
Proof.
  unfold activeFor, namesDid. destruct (customInstructions o); try discriminate.
  intros H. apply andb_prop in H. tauto.
Qed.

Lemma unknownDid_no_tips did w : unknownDid did w -> activeTips did w = [].
Proof.
  unfold unknownDid, activeTips. generalize (listOutputs w didBasket) as l.
  induction l as [|o l IH]; [reflexivity|]. cbn [List.filter].
  destruct (namesDid did o) eqn:En; [discriminate|]. intros H.
  destruct (activeFor did o) eqn:Ea.
  - apply activeFor_namesDid in Ea. congruence.
  - apply IH, H.
Qed.

(** *** The DID of a txid *)

Lemma fromTxid_some t d :
  fromTxid (Some t) = Some d -> d = DID_PREFIX ++ t /\ isTxid t = true.
Proof.
  unfold fromTxid. destruct (isTxid t); [|discriminate].
  intros [= <-]. auto.
Qed.

Lemma parse_fromTxid t d : fromTxid (Some t) = Some d -> parse d = Some t.
Proof.
  intros H. apply fromTxid_some in H as [-> Ht]. unfold parse.
  assert (Hs : startsWith DID_PREFIX (DID_PREFIX ++ t) = true).
  { unfold startsWith. rewrite take_app_length. apply bool_decide_eq_true_2. reflexivity. }
  rewrite Hs, drop_app_length, Ht. reflexivity.
Qed.

(** *** Active tips under the three methods *)

Lemma Forall_filter_bool {A} (P : A -> Prop) f l :
  Forall P l -> Forall P (List.filter f l).
Proof.
  induction 1 as [|x l Hx _ IH]; [constructor|]. cbn [List.filter].
  destruct (f x); [constructor|]; assumption.
Qed.

Lemma activeFor_parsed did p ci :
  activeFor did (Output p (Parsed ci))
  = bool_decide (ci_did ci = Some did)
    && bool_decide (ci_status ci = Some (lit "active")).
Proof. reflexivity. Qed.

(** The tips after a spend whose first output is the new chain output. *)
Lemma activeTips_spend_first did txid tip b newci w :
  activeTips did
    (track txid 0 [NewOutput (Some b) (Some newci); NewOutput None None]
       (unspend tip w))
  = List.filter (notAt tip) (activeTips did w)
    ++ (if bool_decide (b = didBasket)
        then List.filter (activeFor did) [Output (outpointOf txid 0) (Parsed newci)]
        else []).
Proof.
  rewrite activeTips_track, activeTips_unspend. f_equal.
  cbn [created no_basket no_instructions].
  rewrite (bool_decide_eq_false_2 (None = Some didBasket)) by discriminate.
  rewrite app_nil_r.
  destruct (decide (b = didBasket)) as [->|Hne].
  - rewrite !bool_decide_eq_true_2 by reflexivity. reflexivity.
  - rewrite (bool_decide_eq_false_2 (Some b = Some didBasket)) by congruence.
    rewrite (bool_decide_eq_false_2 (b = didBasket)) by exact Hne. reflexivity.
Qed.

(** The tips after a spend whose second output is the tracking output. *)
Lemma activeTips_spend_second did txid tip newci w :
  activeTips did
    (track txid 0 [NewOutput None None; NewOutput (Some didBasket) (Some newci)]
       (unspend tip w))
  = List.filter (notAt tip) (activeTips did w)
    ++ List.filter (activeFor did) [Output (outpointOf txid 1) (Parsed newci)].
Proof.
  rewrite activeTips_track, activeTips_unspend. reflexivity.
Qed.

Lemma activeTips_issued did txid basket pending w :
  ci_did pending = None ->
  activeTips did (issued txid basket pending w) = activeTips did w.
Proof.
  intros Hp. unfold issued. rewrite activeTips_track.
  cbn [created no_basket no_instructions].
  rewrite (bool_decide_eq_false_2 (None = Some didBasket)) by discriminate.
  rewrite app_nil_r.
  destruct (bool_decide (Some basket = Some didBasket)); [|apply app_nil_r].
  cbn [List.filter]. rewrite activeFor_parsed, Hp.
  rewrite (bool_decide_eq_false_2 (None = Some did)) by discriminate.
  apply app_nil_r.
Qed.

(** A single tip that is spent leaves none. *)
Lemma single_tip_spent did w o :
  (length (activeTips did w) <= 1)%nat ->
  last (activeTips did w) = Some o ->
  activeTips did w = [o] /\ List.filter (notAt (outpoint o)) (activeTips did w) = [].
Proof.
  intros Hlen Hlast. destruct (activeTips did w) as [|x [|y l]]; cbn in *.
  - discriminate.
  - injection Hlast as <-. split; [reflexivity|].
    unfold notAt. rewrite bool_decide_eq_true_2 by reflexivity. reflexivity.
  - lia.
Qed.

Lemma did_of_txid_inj t1 t2 : DID_PREFIX ++ t1 = DID_PREFIX ++ t2 -> t1 = t2.
Proof. apply app_inv_head. Qed.

Section WithKeys.

Context {jwk : Type}.
Variable pubKeyToJwk : jsstring -> option jwk.
Variable validPrivateKey : jsstring -> bool.

(** *** What each method does to the wallet *)

Lemma updateDID_cases answer options w out w' :
  updateDID pubKeyToJwk validPrivateKey answer options w = (out, w') ->
  (w' = w /\ exists e, out = Err e /\
     (scanActive (upd_did options) (listOutputs w didBasket) = None ->
      parse (upd_did options) <> None ->
      e = NoActiveChainState (upd_did options))) \/
  (exists ci tip txid doc newci,
     scanActive (upd_did options) (listOutputs w didBasket) = Some (ci, tip) /\
     out = Ok (CreateResult (upd_did options) (ci_issuanceTxid ci)
                 (ci_identityCode ci) doc) /\
     w' = track txid 0 [NewOutput (Some didBasket) (Some newci); NewOutput None None]
            (unspend tip w) /\
     ci_did newci = Some (upd_did options) /\
     ci_identityCode newci = ci_identityCode ci /\
     ci_issuanceTxid newci = ci_issuanceTxid ci /\
     ci_status newci = Some (lit "active")).
Proof.
  unfold updateDID, spendChainOutput. intros H.
  destruct (parse (upd_did options)) eqn:Hp.
  2: { injection H as <- <-. left. split; [reflexivity|]. eexists.
       split; [reflexivity|]. congruence. }
  destruct (scanActive _ _) as [[ci tip]|] eqn:Hs.
  2: { injection H as <- <-. left. split; [reflexivity|]. eexists.
       split; [reflexivity|]. reflexivity. }
  destruct (Chain.truthyString (ci_chainKeyHex ci)) as [key|];
    [destruct (validPrivateKey key);
     [destruct (fromTxid (ci_issuanceTxid ci));
      [destruct (buildDocument _ _ _ _ _ ≫= _) as [doc|];
       [destruct answer as [t| | |]|]|]|]|];
    cbn [negb] in H; injection H as <- <-;
    try (left; split; [reflexivity|]; eexists; split; [reflexivity|];
         intros; congruence).
  right. exists ci, tip, t, doc. eexists. repeat split; reflexivity.
Qed.

Lemma deactivateDID_cases answer trackingOk did w out w' :
  deactivateDID validPrivateKey answer trackingOk did w = (out, w') ->
  (w' = w /\ exists e, out = Err e /\
     (scanActive did (listOutputs w didBasket) = None ->
      parse did <> None -> e = NoActiveChainState did)) \/
  (exists ci tip txid newci,
     scanActive did (listOutputs w didBasket) = Some (ci, tip) /\
     out = Ok txid /\
     w' = track txid 0 [NewOutput None None; NewOutput (Some didBasket) (Some newci)]
            (unspend tip w) /\
     ci_status newci = Some (lit "deactivated")).
Proof.
  unfold deactivateDID, spendChainOutput. intros H.
  destruct (parse did) eqn:Hp.
  2: { injection H as <- <-. left. split; [reflexivity|]. eexists.
       split; [reflexivity|]. congruence. }
  destruct (scanActive _ _) as [[ci tip]|] eqn:Hs.
  2: { injection H as <- <-. left. split; [reflexivity|]. eexists.
       split; [reflexivity|]. reflexivity. }
  destruct (Chain.truthyString (ci_chainKeyHex ci)) as [key|];
    [destruct trackingOk;
     [destruct (validPrivateKey key); [destruct answer as [t| | |]|]|]|];
    cbn [negb] in H; injection H as <- <-;
    try (left; split; [reflexivity|]; eexists; split; [reflexivity|];
         intros; congruence).
  right. exists ci, tip, t. eexists. repeat split; reflexivity.
Qed.

Lemma createDID_cases env options w out w' :
  createDID pubKeyToJwk validPrivateKey env options w = (out, w') ->
  (w' = w /\ exists e, out = Err e) \/
  (exists txid basket pending,
     issuanceAnswer env = Some txid /\
     ((w' = issued txid basket pending w /\ exists e, out = Err e) \/
      (exists spendTxid did identityCode doc newci,
         fromTxid (Some txid) = Some did /\
         out = Ok (CreateResult did (Some txid) (Some identityCode) doc) /\
         w' = track spendTxid 0
                [NewOutput (Some basket) (Some newci); NewOutput None None]
                (unspend (outpointOf txid 0) (issued txid basket pending w)) /\
         ci_did newci = Some did /\
         ci_identityCode newci = Some identityCode /\
         ci_issuanceTxid newci = Some txid /\
         ci_status newci = Some (lit "active"))) /\
     ci_did pending = None).
Proof.
  unfold createDID, spendChainOutput. intros H.
  destruct (derivedSubjectKey env) as [subjectKey|].
  2: { injection H as <- <-. left. split; [reflexivity|]. eexists. reflexivity. }
  destruct (issuanceAnswer env) as [[|c txid]|] eqn:Hi.
  1, 3: injection H as <- <-; left; split; [reflexivity|]; eexists; reflexivity.
  match goal with |- ?G =>
  assert (Hfail : forall e w0,
            w0 = track (c :: txid) 0
                   [NewOutput (Some (default didBasket (opt_basket options)))
                      (Some (ChainCI (Some (lit "did-issuance")) None
                               (Some (default (gen_identityCode env)
                                        (opt_identityCode options)))
                               (Some (gen_chainKeyHex env)) (Some subjectKey)
                               None None None (Some (lit "pending"))));
                    NewOutput None None] w ->
            (Err e, w0) = (out, w') -> G) end.
  2: { match type of H with
       | context [fromTxid ?x] => destruct (fromTxid x) as [did|] eqn:Hd
       end; [|exact (Hfail _ _ eq_refl H)].
       destruct (buildDocument pubKeyToJwk _ _ _ _) as [doc|];
         [|exact (Hfail _ _ eq_refl H)].
       destruct (issuanceFound _ _ _ _ _); cbn [negb] in H;
         [|exact (Hfail _ _ eq_refl H)].
       destruct (validPrivateKey (gen_chainKeyHex env)); cbn [negb] in H;
         [|exact (Hfail _ _ eq_refl H)].
       destruct (create_spend env) as [t| | |];
         try exact (Hfail _ _ eq_refl H).
       injection H as <- <-.
       right. exists (c :: txid). do 2 eexists. split; [reflexivity|].
       split; [|].
       { unfold issued. right. exists t, did. do 3 eexists.
         repeat split; first [exact Hd|reflexivity]. }
       reflexivity. }
  intros e w0 -> Hw. injection Hw as <- <-.
  right. exists (c :: txid). do 2 eexists. split; [reflexivity|].
  split; [|].
  { unfold issued. left. split; [reflexivity|]. eexists. reflexivity. }
  reflexivity.
Qed.

(** *** The chain tip is kept by every method *)

Lemma chainTip_filter did ic txid w tips' f :
  chainTip did ic txid w ->
  tips' = List.filter f (activeTips did w) ->
  Forall (fun o => exists ci,
            customInstructions o = Parsed ci /\
            ci_identityCode ci = Some ic /\ ci_issuanceTxid ci = Some txid) tips'
  /\ (length tips' <= 1)%nat.
Proof.
  intros [Hc Hl] ->. split; [apply Forall_filter_bool, Hc|].
  etransitivity; [apply List.filter_length_le|exact Hl].
Qed.

Lemma update_chainTip did ic txid answer options w out w' :
  chainTip did ic txid w ->
  updateDID pubKeyToJwk validPrivateKey answer options w = (out, w') ->
  chainTip did ic txid w'.
Proof.
  intros Hinv H.
  apply updateDID_cases in H
    as [[-> _]|(ci & tip & t & doc & newci & Hs & _ & -> & Hd & Hi & Hx & Hst)];
    [exact Hinv|].
  unfold chainTip, tipsCarry. rewrite activeTips_spend_first.
  rewrite bool_decide_eq_true_2 by reflexivity.
  cbn [List.filter]. rewrite activeFor_parsed, Hd, Hst.
  rewrite (bool_decide_eq_true_2 (Some (lit "active") = Some (lit "active")))
    by reflexivity.
  rewrite andb_true_r.
  destruct (decide (upd_did options = did)) as [E|N].
  - rewrite bool_decide_eq_true_2 by congruence. subst did.
    apply scanActive_some in Hs as (o & Hlast & Ho & Htip).
    destruct Hinv as [Hc Hl].
    destruct (single_tip_spent _ _ _ Hl Hlast) as [Htips Hf].
    rewrite <- Htip, Hf. cbn [app length]. split; [|lia].
    constructor; [|constructor]. exists newci. split; [reflexivity|].
    unfold tipsCarry in Hc. rewrite Htips in Hc.
    inversion Hc as [|? ? (ci' & Hp & Hic & Htx) _]; subst.
    rewrite Ho in Hp. injection Hp as <-. rewrite Hi, Hx. auto.
  - rewrite bool_decide_eq_false_2 by congruence. rewrite app_nil_r.
    eapply chainTip_filter; [exact Hinv|reflexivity].
Qed.

Lemma deactivate_chainTip did ic txid answer trackingOk d w out w' :
  chainTip did ic txid w ->
  deactivateDID validPrivateKey answer trackingOk d w = (out, w') ->
  chainTip did ic txid w'.
Proof.
  intros Hinv H.
  apply deactivateDID_cases in H
    as [[-> _]|(ci & tip & t & newci & Hs & _ & -> & Hst)]; [exact Hinv|].
  unfold chainTip, tipsCarry. rewrite activeTips_spend_second.
  cbn [List.filter]. rewrite activeFor_parsed, Hst.
  rewrite (bool_decide_eq_false_2 (Some (lit "deactivated") = Some (lit "active")))
    by discriminate.
  rewrite andb_false_r, app_nil_r.
  eapply chainTip_filter; [exact Hinv|reflexivity].
Qed.

Lemma create_chainTip did ic txid env options w out w' :
  issuanceAnswer env <> Some txid ->
  did = DID_PREFIX ++ txid ->
  chainTip did ic txid w ->
  createDID pubKeyToJwk validPrivateKey env options w = (out, w') ->
  chainTip did ic txid w'.
Proof.
  intros Hfresh -> Hinv H.
  apply createDID_cases in H
    as [[-> _]|(t & b & pending & Ht & [[-> _]|Hok] & Hp)]; [exact Hinv| |].
  - unfold chainTip, tipsCarry. rewrite (activeTips_issued _ _ _ _ _ Hp).
    exact Hinv.
  - destruct Hok as (st & d & code & doc & newci & Hd & _ & -> & Hnd & _ & _ & _).
    unfold chainTip, tipsCarry. rewrite activeTips_spend_first.
    rewrite (activeTips_issued _ _ _ _ _ Hp).
    apply fromTxid_some in Hd as [-> _].
    assert (Hne : ci_did newci <> Some (DID_PREFIX ++ txid)).
    { rewrite Hnd. intros [= E]. congruence. }
    assert (Hnone : (if bool_decide (b = didBasket)
                     then List.filter (activeFor (DID_PREFIX ++ txid))
                            [Output (outpointOf st 0) (Parsed newci)]
                     else []) = []).
    { destruct (bool_decide (b = didBasket)); [|reflexivity].
      cbn [List.filter]. rewrite activeFor_parsed.
      rewrite bool_decide_eq_false_2 by exact Hne. reflexivity. }
    rewrite Hnone, app_nil_r.
    eapply chainTip_filter; [exact Hinv|reflexivity].
Qed.

Lemma run_chainTip did ic txid o w :
  did = DID_PREFIX ++ txid ->
  avoids txid o ->
  chainTip did ic txid w ->
  chainTip did ic txid (run pubKeyToJwk validPrivateKey w o).
Proof.
  intros Hd Ha Hinv. destruct o as [env options|answer options|answer ok d];
    cbn [run avoids] in *.
  - destruct (createDID _ _ env options w) as [out w'] eqn:E.
    exact (create_chainTip _ _ _ _ _ _ _ _ Ha Hd Hinv E).
  - destruct (updateDID _ _ answer options w) as [out w'] eqn:E.
    exact (update_chainTip _ _ _ _ _ _ _ _ Hinv E).
  - destruct (deactivateDID _ answer ok d w) as [out w'] eqn:E.
    exact (deactivate_chainTip _ _ _ _ _ _ _ _ _ Hinv E).
Qed.

Lemma runAll_chainTip did ic txid ops : forall w,
  did = DID_PREFIX ++ txid ->
  Forall (avoids txid) ops ->
  chainTip did ic txid w ->
  chainTip did ic txid (runAll pubKeyToJwk validPrivateKey ops w).
Proof.
  induction ops as [|o ops IH]; intros w Hd Ha Hinv; [exact Hinv|].
  inversion Ha as [|? ? Ho Hops]; subst. cbn [runAll fold_left].
  apply IH; [reflexivity|exact Hops|].
  apply run_chainTip; [reflexivity|exact Ho|exact Hinv].
Qed.

(** *** A deactivated DID stays without active tip *)

Lemma noActiveTip_chainTip did ic txid w :
  noActiveTip did w -> chainTip did ic txid w.
Proof.
  unfold noActiveTip, chainTip, tipsCarry. intros ->. split; [constructor|cbn; lia].
Qed.

Lemma update_noActiveTip did answer options w out w' :
  noActiveTip did w ->
  updateDID pubKeyToJwk validPrivateKey answer options w = (out, w') ->
  noActiveTip did w'.
Proof.
  intros Hdead H.
  apply updateDID_cases in H
    as [[-> _]|(ci & tip & t & doc & newci & Hs & _ & -> & Hd & Hi & Hx & Hst)];
    [exact Hdead|].
  unfold noActiveTip in *. rewrite activeTips_spend_first, Hdead.
  rewrite bool_decide_eq_true_2 by reflexivity.
  cbn [List.filter app]. rewrite activeFor_parsed, Hd.
  destruct (decide (upd_did options = did)) as [E|N].
  - subst did. apply scanActive_some in Hs as (o & Hlast & _).
    rewrite Hdead in Hlast. discriminate.
  - rewrite bool_decide_eq_false_2 by congruence. reflexivity.
Qed.

Lemma deactivate_noActiveTip did answer trackingOk d w out w' :
  noActiveTip did w ->
  deactivateDID validPrivateKey answer trackingOk d w = (out, w') ->
  noActiveTip did w'.
Proof.
  intros Hdead H.
  apply deactivateDID_cases in H
    as [[-> _]|(ci & tip & t & newci & Hs & _ & -> & Hst)]; [exact Hdead|].
  unfold noActiveTip in *. rewrite activeTips_spend_second, Hdead.
  cbn [List.filter app]. rewrite activeFor_parsed, Hst.
  rewrite (bool_decide_eq_false_2 (Some (lit "deactivated") = Some (lit "active")))
    by discriminate.
  rewrite andb_false_r. reflexivity.
Qed.

Lemma create_noActiveTip txid env options w out w' :
  issuanceAnswer env <> Some txid ->
  noActiveTip (DID_PREFIX ++ txid) w ->
  createDID pubKeyToJwk validPrivateKey env options w = (out, w') ->
  noActiveTip (DID_PREFIX ++ txid) w'.
Proof.
  intros Hfresh Hdead H.
  pose proof (create_chainTip _ txid txid env options w out w' Hfresh eq_refl
                (noActiveTip_chainTip _ _ _ _ Hdead) H) as [_ Hl].
  apply createDID_cases in H
    as [[-> _]|(t & b & pending & Ht & [[-> _]|Hok] & Hp)]; [exact Hdead| |].
  - unfold noActiveTip. rewrite (activeTips_issued _ _ _ _ _ Hp). exact Hdead.
  - destruct Hok as (st & d & code & doc & newci & Hd & _ & -> & Hnd & _ & _ & _).
    unfold noActiveTip in *. rewrite activeTips_spend_first.
    rewrite (activeTips_issued _ _ _ _ _ Hp), Hdead.
    apply fromTxid_some in Hd as [-> _].
    destruct (bool_decide (b = didBasket)); [|reflexivity].
    cbn [List.filter app]. rewrite activeFor_parsed, Hnd.
    rewrite bool_decide_eq_false_2; [reflexivity|].
    intros [= E]. congruence.
Qed.

Lemma runAll_noActiveTip txid ops : forall w,
  Forall (avoids txid) ops ->
  noActiveTip (DID_PREFIX ++ txid) w ->
  noActiveTip (DID_PREFIX ++ txid) (runAll pubKeyToJwk validPrivateKey ops w).
Proof.
  induction ops as [|o ops IH]; intros w Ha Hdead; [exact Hdead|].
  inversion Ha as [|? ? Ho Hops]; subst. cbn [runAll fold_left].
  apply IH; [exact Hops|].
  destruct o as [env options|answer options|answer ok d]; cbn [run avoids] in *.
  - destruct (createDID _ _ env options w) as [out w'] eqn:E.
    exact (create_noActiveTip _ _ _ _ _ _ Ho Hdead E).
  - destruct (updateDID _ _ answer options w) as [out w'] eqn:E.
    exact (update_noActiveTip _ _ _ _ _ _ Hdead E).
  - destruct (deactivateDID _ answer ok d w) as [out w'] eqn:E.
    exact (deactivate_noActiveTip _ _ _ _ _ _ _ Hdead E).
Qed.

(** *** What a successful call establishes *)

Lemma create_establishes env options w r w' :
  createDID pubKeyToJwk validPrivateKey env options w = (Ok r, w') ->
  unknownDid (res_did r) w ->
  exists ic txid,
    res_identityCode r = Some ic /\ res_txid r = Some txid /\
    res_did r = DID_PREFIX ++ txid /\ parse (res_did r) = Some txid /\
    chainTip (res_did r) ic txid w'.
Proof.
  intros H Hnew.
  apply createDID_cases in H
    as [[_ [e He]]|(t & b & pending & Ht & [[_ [e He]]|Hok] & Hp)];
    try discriminate.
  destruct Hok as (st & d & code & doc & newci & Hd & [= ->] & -> & Hnd & Hni & Hnt & Hns).
  cbn [res_did res_identityCode res_txid] in *.
  exists code, t. split; [reflexivity|]. split; [reflexivity|].
  pose proof (parse_fromTxid _ _ Hd) as Hparse.
  apply fromTxid_some in Hd as [-> _].
  split; [reflexivity|]. split; [exact Hparse|].
  unfold chainTip, tipsCarry. rewrite activeTips_spend_first.
  rewrite (activeTips_issued _ _ _ _ _ Hp).
  rewrite (unknownDid_no_tips _ _ Hnew). cbn [List.filter app].
  destruct (bool_decide (b = didBasket)); [|split; [constructor|cbn; lia]].
  cbn [List.filter]. destruct (activeFor _ _); [|split; [constructor|cbn; lia]].
  split; [|cbn; lia]. constructor; [|constructor].
  exists newci. auto.
Qed.

Lemma update_under_chainTip did ic txid answer options w r w' :
  chainTip did ic txid w ->
  upd_did options = did ->
  updateDID pubKeyToJwk validPrivateKey answer options w = (Ok r, w') ->
  res_did r = did /\ res_identityCode r = Some ic /\ res_txid r = Some txid.
Proof.
  intros [Hc Hl] <- H.
  apply updateDID_cases in H
    as [[_ (e & He & _)]|(ci & tip & t & doc & newci & Hs & [= ->] & _)];
    [discriminate|].
  cbn [res_did res_identityCode res_txid].
  apply scanActive_some in Hs as (o & Hlast & Ho & _).
  destruct (single_tip_spent _ _ _ Hl Hlast) as [Htips _].
  unfold tipsCarry in Hc. rewrite Htips in Hc.
  inversion Hc as [|? ? (ci' & Hp & Hic & Htx) _]; subst.
  rewrite Ho in Hp. injection Hp as <-. auto.
Qed.

Lemma deactivate_kills did ic txid answer trackingOk w t w' :
  chainTip did ic txid w ->
  deactivateDID validPrivateKey answer trackingOk did w = (Ok t, w') ->
  noActiveTip did w'.
Proof.
  intros [Hc Hl] H.
  apply deactivateDID_cases in H
    as [[_ (e & He & _)]|(ci & tip & st & newci & Hs & _ & -> & Hst)];
    [discriminate|].
  unfold noActiveTip. rewrite activeTips_spend_second.
  apply scanActive_some in Hs as (o & Hlast & _ & Htip).
  destruct (single_tip_spent _ _ _ Hl Hlast) as [_ Hf].
  rewrite <- Htip, Hf. cbn [List.filter app]. rewrite activeFor_parsed, Hst.
  rewrite (bool_decide_eq_false_2 (Some (lit "deactivated") = Some (lit "active")))
    by discriminate.
  rewrite andb_false_r. reflexivity.
Qed.

Lemma dead_update_fails did answer options w :
  noActiveTip did w -> upd_did options = did -> parse did <> None ->
  updateDID pubKeyToJwk validPrivateKey answer options w
  = (Err (NoActiveChainState did), w).
Proof.
  intros Hdead <- Hparse.
  destruct (updateDID _ _ answer options w) as [out w'] eqn:E.
  pose proof (scanActive_none _ _ Hdead) as Hs.
  apply updateDID_cases in E
    as [[-> (e & -> & He)]|(ci & tip & t & doc & newci & Hs' & _)].
  - rewrite (He Hs Hparse). reflexivity.
  - congruence.
Qed.

Lemma dead_deactivate_fails did answer trackingOk w :
  noActiveTip did w -> parse did <> None ->
  deactivateDID validPrivateKey answer trackingOk did w
  = (Err (NoActiveChainState did), w).
Proof.
  intros Hdead Hparse.
  destruct (deactivateDID _ answer trackingOk did w) as [out w'] eqn:E.
  pose proof (scanActive_none _ _ Hdead) as Hs.
  apply deactivateDID_cases in E
    as [[-> (e & -> & He)]|(ci & tip & t & newci & Hs' & _)].
  - rewrite (He Hs Hparse). reflexivity.
  - congruence.
Qed.

End WithKeys.

End EngineFacts.
(* ===================================================================== *)
(** ** The crawl: bound, revisits, result *)
(* ===================================================================== *)

Module ChainFacts.

Import Chain ChainSpec.

Section Crawl.

Context {json : Type}.
Variable JSON_parse : jsstring -> option json.
Variable truthy : json -> bool.
Variable decode : jsstring -> list jsstring.
Variable bounded : bool.
Variable a : api.

Local Abbreviation crawl := (crawl JSON_parse truthy decode bounded a).
Local Abbreviation summarises := (summarises JSON_parse truthy decode).

(** One step of the proofs by induction on the hops: the cases of the
    body of the loop, the recursive call named. *)
Local Ltac crawl_cases n IH :=
  match goal with
  | |- context [Chain.crawl _ _ _ _ _ n ?h ?s] =>
      specialize (IH h s);
      destruct (Chain.crawl JSON_parse truthy decode bounded a n h s)
        as [o trace]
  end.

(** *** The hop limit *)

Lemma crawl_length n : forall hop st,
  (length (snd (crawl n hop st)) <= n)%nat.
Proof.
  induction n as [|n IH]; intros hop st; cbn [Chain.crawl]; [cbn; lia|].
  destruct (bool_decide _); [cbn; lia|].
  destruct (fetchTx a hop (currentTxid st)) as [| |d]; try (cbn; lia).
  destruct (setCreated st d) as [created'|]; [|cbn; lia].
  destruct (applyPayload _ _ _ _) as [r|st2]; [cbn; lia|].
  destruct (nextHop _ _ _ _ _) as [next|]; [|cbn; lia].
  crawl_cases n IH. cbn in *. lia.
Qed.

(** *** No transaction is fetched twice *)

Lemma crawl_fresh n : forall hop st,
  NoDup (List.map fst (snd (crawl n hop st))) /\
  forall t, t ∈ List.map fst (snd (crawl n hop st)) -> t ∉ visited st.
Proof.
  induction n as [|n IH]; intros hop st; cbn [Chain.crawl].
  { cbn. split; [apply NoDup_nil_2|]. intros t Ht. inversion Ht. }
  destruct (bool_decide (currentTxid st ∈ visited st)) eqn:Hv.
  { cbn. split; [apply NoDup_nil_2|]. intros t Ht. inversion Ht. }
  apply bool_decide_eq_false in Hv.
  assert (Hone : NoDup [currentTxid st] /\
                 forall t, t ∈ [currentTxid st] -> t ∉ visited st).
  { split; [apply NoDup_singleton|].
    intros t Ht. apply list_elem_of_singleton in Ht as ->. exact Hv. }
  destruct (fetchTx a hop (currentTxid st)) as [| |d]; try exact Hone.
  destruct (setCreated st d) as [created'|]; [|exact Hone].
  destruct (applyPayload _ _ _ _) as [r|st2]; [exact Hone|].
  destruct (nextHop _ _ _ _ _) as [next|]; [|exact Hone].
  crawl_cases n IH.
  cbn [snd fst List.map visited] in *. destruct IH as [Hnd Hfresh].
  clear Hone. split.
  - apply NoDup_cons_2; [|exact Hnd]. intros Hin. apply Hfresh in Hin. set_solver.
  - intros t Ht. apply elem_of_cons in Ht as [->|Hin]; [exact Hv|].
    apply Hfresh in Hin. set_solver.
Qed.

(** *** A loop that [maxHops] bounds ends; one that it does not bound has
    made all the hops of the fuel when it has not ended *)

Lemma crawl_ends n : forall hop st,
  fst (crawl n hop st) = Hung ->
  bounded = false /\ length (snd (crawl n hop st)) = n.
Proof.
  induction n as [|n IH]; intros hop st; cbn [Chain.crawl].
  { destruct bounded; [discriminate|]. auto. }
  destruct (bool_decide _); [discriminate|].
  destruct (fetchTx a hop (currentTxid st)) as [| |d]; try discriminate.
  destruct (setCreated st d) as [created'|]; [|discriminate].
  destruct (applyPayload _ _ _ _) as [r|st2]; [discriminate|].
  destruct (nextHop _ _ _ _ _) as [next|]; [|discriminate].
  crawl_cases n IH. cbn [fst snd length] in *.
  intros H. destruct (IH H) as [Hb Hl]. auto.
Qed.

(** *** The result, read off the fetched transactions *)

Lemma finish_summarises st :
  summarises (foundIssuance st) (lastDocument st) [] (finish truthy st).
Proof.
  unfold ChainSpec.summarises, finish. cbn [noFailure forallb revoked existsb
    lastParsed fold_left sawIssuance].
  rewrite orb_false_r.
  destruct (lastDocument st) as [doc|].
  - destruct (truthy doc); [split; reflexivity|].
    destruct (foundIssuance st); split; reflexivity.
  - destruct (foundIssuance st); split; reflexivity.
Qed.

Lemma summarises_cons issued acc t d trace r :
  payloadOf decode d <> Some (lit "3") ->
  summarises (issued || bool_decide (payloadOf decode d = Some (lit "1")))
    (match documentOf JSON_parse decode d with
     | Some doc => Some doc
     | None => acc
     end) trace r ->
  summarises issued acc ((t, TxOk d) :: trace) r.
Proof.
  intros Hp. unfold ChainSpec.summarises.
  assert (E1 : noFailure ((t, TxOk d) :: trace) = noFailure trace) by reflexivity.
  assert (E2 : revoked decode ((t, TxOk d) :: trace)
               = bool_decide (payloadOf decode d = Some (lit "3"))
                 || revoked decode trace) by reflexivity.
  assert (E3 : sawIssuance decode ((t, TxOk d) :: trace)
               = bool_decide (payloadOf decode d = Some (lit "1"))
                 || sawIssuance decode trace) by reflexivity.
  assert (E4 : lastParsed JSON_parse decode acc ((t, TxOk d) :: trace)
               = lastParsed JSON_parse decode
                   (match documentOf JSON_parse decode d with
                    | Some doc => Some doc
                    | None => acc
                    end) trace) by reflexivity.
  rewrite E1, E2, E3, E4. rewrite (bool_decide_eq_false_2 _ Hp). cbn [orb].
  rewrite orb_assoc. tauto.
Qed.

Lemma applyPayload_inl st d r :
  applyPayload JSON_parse st d (findSegments decode (vouts d)) = inl r ->
  payloadOf decode d = Some (lit "3") /\
  r = Result (lastDocument st)
        (Metadata (st_created st) (st_updated st) true (Some (currentTxid st)))
        None.
Proof.
  unfold applyPayload, payloadOf.
  destruct (findSegments decode (vouts d)) as [|s0 [|s1 [|p rest]]];
    try discriminate.
  destruct (bool_decide (p = lit "3")) eqn:E3.
  - apply bool_decide_eq_true in E3 as ->. intros [= <-]. auto.
  - destruct (bool_decide (p = lit "2")); [discriminate|].
    destruct (bool_decide (p = lit "1")); [discriminate|].
    destruct (JSON_parse p); discriminate.
Qed.

Lemma applyPayload_inr st d st2 :
  applyPayload JSON_parse st d (findSegments decode (vouts d)) = inr st2 ->
  payloadOf decode d <> Some (lit "3") /\
  foundIssuance st2
  = foundIssuance st || bool_decide (payloadOf decode d = Some (lit "1")) /\
  lastDocument st2
  = match documentOf JSON_parse decode d with
    | Some doc => Some doc
    | None => lastDocument st
    end.
Proof.
  unfold applyPayload, documentOf, payloadOf.
  destruct (findSegments decode (vouts d)) as [|s0 [|s1 [|p rest]]];
    try (intros [= <-]; rewrite orb_false_r; repeat split; discriminate).
  destruct (bool_decide (p = lit "3")) eqn:E3; [discriminate|].
  apply bool_decide_eq_false in E3.
  assert (Hne : Some p <> Some (lit "3")) by congruence.
  cbn [orb].
  destruct (bool_decide (p = lit "2")) eqn:E2.
  { intros [= <-]. apply bool_decide_eq_true in E2 as ->.
    rewrite (bool_decide_eq_false_2 (Some (lit "2") = Some (lit "1"))) by discriminate.
    rewrite orb_false_r. auto. }
  cbn [orb].
  destruct (bool_decide (p = lit "1")) eqn:E1.
  { intros [= <-]. apply bool_decide_eq_true in E1 as ->. cbn [foundIssuance lastDocument].
    rewrite (bool_decide_eq_true_2 (Some (lit "1") = Some (lit "1"))) by reflexivity.
    rewrite orb_true_r. auto. }
  apply bool_decide_eq_false in E1.
  rewrite (bool_decide_eq_false_2 (Some p = Some (lit "1"))) by congruence.
  rewrite orb_false_r.
  destruct (JSON_parse p) as [doc|]; intros [= <-]; auto.
Qed.

Lemma datesInRange_cons t d trace :
  datesInRange ((t, TxOk d) :: trace)
  = bool_decide (is_Some (isoTime d)) && datesInRange trace.
Proof. reflexivity. Qed.

(** A returned result summarises the transactions fetched; the loop throws
    when a fetch throws, or at a transaction whose time [toISOString]
    refuses. *)
Lemma crawl_summary n : forall hop st,
  match crawl n hop st with
  | (Returned r, trace) => summarises (foundIssuance st) (lastDocument st) trace r
  | (Threw, trace) => noFailure trace = false \/ datesInRange trace = false
  | (Hung, _) => True
  end.
Proof.
  induction n as [|n IH]; intros hop st; cbn [Chain.crawl].
  { destruct bounded; [apply finish_summarises|exact I]. }
  destruct (bool_decide _); [apply finish_summarises|].
  destruct (fetchTx a hop (currentTxid st)) as [| |d];
    [left; reflexivity|reflexivity|].
  destruct (setCreated st d) as [created'|] eqn:Hc.
  2:{ right. unfold setCreated in Hc.
      destruct (st_created st); [discriminate|].
      rewrite datesInRange_cons, Hc.
      rewrite bool_decide_eq_false_2; [reflexivity|].
      intros [x Hx]; discriminate Hx. }
  destruct (applyPayload _ _ _ _) as [r|st2] eqn:Ha.
  - apply applyPayload_inl in Ha as [Hp ->].
    unfold ChainSpec.summarises.
    cbn [noFailure forallb snd andb revoked existsb lastParsed fold_left].
    unfold hasPayload, documentOf. cbn [snd]. rewrite Hp.
    rewrite (bool_decide_eq_true_2 (Some (lit "3") = Some (lit "3"))) by reflexivity.
    cbn. auto.
  - apply applyPayload_inr in Ha as (Hp & Hi & Hd).
    cbn [foundIssuance lastDocument] in Hi, Hd.
    destruct (nextHop _ _ _ _ _) as [next|].
    + crawl_cases n IH.
      cbn [foundIssuance lastDocument] in IH.
      destruct o as [r| |]; [| |exact I].
      * apply summarises_cons; [exact Hp|]. rewrite <- Hi, <- Hd. exact IH.
      * destruct IH as [IH|IH]; [left; exact IH|right].
        rewrite datesInRange_cons, IH. apply andb_false_r.
    + apply summarises_cons; [exact Hp|]. rewrite <- Hi, <- Hd.
      apply finish_summarises.
Qed.

End Crawl.

Section Crawlers.

Context {json : Type}.
Variable JSON_parse : jsstring -> option json.
Variable truthy : json -> bool.
Variable a : api.

Lemma crawl_bounded decode bounded n txid o trace :
  Chain.crawl JSON_parse truthy decode bounded a n 0 (initial txid) = (o, trace) ->
  (length trace <= n)%nat /\ NoDup (List.map fst trace) /\
  (o = Hung -> bounded = false /\ length trace = n) /\
  (forall r, o = Returned r ->
     ChainSpec.summarises JSON_parse truthy decode false None trace r) /\
  (o = Threw -> noFailure trace = false \/ datesInRange trace = false).
Proof.
  intros Hc.
  pose proof (crawl_ends JSON_parse truthy decode bounded a n 0 (initial txid))
    as H1.
  pose proof (crawl_length JSON_parse truthy decode bounded a n 0 (initial txid))
    as H2.
  pose proof (crawl_fresh JSON_parse truthy decode bounded a n 0 (initial txid))
    as [H3 _].
  pose proof (crawl_summary JSON_parse truthy decode bounded a n 0 (initial txid))
    as H4.
  rewrite Hc in H1, H2, H3, H4. cbn [fst snd] in H1, H2, H3.
  cbn [foundIssuance lastDocument initial] in H4.
  split; [exact H2|]. split; [exact H3|]. split; [exact H1|]. split.
  - intros r ->. exact H4.
  - intros ->. exact H4.
Qed.

Lemma crawl_pending decode bounded n txid o trace :
  Chain.crawl JSON_parse truthy decode bounded a n 0 (initial txid) = (o, trace) ->
  noFailure trace = true ->
  datesInRange trace = true ->
  sawIssuance decode trace = true ->
  revoked decode trace = false ->
  lastParsed JSON_parse decode None trace = None ->
  (o = Hung /\ bounded = false /\ length trace = n) \/
  exists r, o = Returned r /\
    error r = Some (lit "notYetAvailable") /\
    error r <> Some (lit "notFound") /\ didDocument r = None.
Proof.
  intros Hc H1 H0 H2 H3 H4.
  destruct (crawl_bounded decode bounded n txid o trace Hc)
    as (_ & _ & Hh & Hs & Ht).
  destruct o as [r| |].
  - right. exists r. split; [reflexivity|].
    specialize (Hs r eq_refl). unfold ChainSpec.summarises in Hs.
    rewrite H1, H3, H4, H2 in Hs. cbn [orb] in Hs. destruct Hs as [Hd He].
    rewrite He. repeat split; [discriminate|exact Hd].
  - destruct (Ht eq_refl); congruence.
  - left. split; [reflexivity|]. apply Hh. reflexivity.
Qed.

(** The [catch] of [modules/did.ts] around a crawl. *)
Lemma caught_cases decode bounded n txid o trace :
  (let '(o', trace') :=
     Chain.crawl JSON_parse truthy decode bounded a n 0 (initial txid) in
   (match o' with
    | Threw => Returned internalError
    | _ => o'
    end, trace')) = (o, trace) ->
  exists o',
    Chain.crawl JSON_parse truthy decode bounded a n 0 (initial txid)
    = (o', trace) /\
    o = match o' with Threw => Returned internalError | _ => o' end.
Proof.
  destruct (Chain.crawl JSON_parse truthy decode bounded a n 0 (initial txid))
    as [o' trace'].
  intros [= <- <-]. exists o'. split; reflexivity.
Qed.

Lemma runCrawl_module txid o trace :
  runCrawl JSON_parse truthy ModuleCrawl a txid = (o, trace) ->
  exists o',
    Chain.crawl JSON_parse truthy (decoderOf ModuleCrawl)
      (boundedOf ModuleCrawl) a (hopLimit ModuleCrawl) 0 (initial txid)
    = (o', trace) /\
    o = match o' with Threw => Returned internalError | _ => o' end.
Proof.
  exact (caught_cases (decoderOf ModuleCrawl) (boundedOf ModuleCrawl)
           (hopLimit ModuleCrawl) txid o trace).
Qed.

Lemma runCrawl_server capacity configured fuel txid :
  Chain.crawl JSON_parse truthy
    (decoderOf (ServerCrawl capacity configured fuel))
    (boundedOf (ServerCrawl capacity configured fuel)) a
    (hopLimit (ServerCrawl capacity configured fuel)) 0 (initial txid)
  = runCrawl JSON_parse truthy (ServerCrawl capacity configured fuel) a txid.
Proof.
  cbn [runCrawl decoderOf boundedOf hopLimit].
  unfold ServerResolver.resolveViaWoC.
  destruct (ServerResolver.hopsOf (ServerResolver.maxHopsOf configured))
    as [hops|].
  - rewrite bool_decide_eq_true_2 by (eexists; reflexivity). reflexivity.
  - rewrite bool_decide_eq_false_2 by (intros [x Hx]; discriminate Hx).
    reflexivity.
Qed.

(** Either crawl is the shared loop, run with its decoder and its hop
    limit; the one of [modules/did.ts] turns an exception into the
    [internalError] result. *)
Lemma runCrawl_cases c txid o trace :
  runCrawl JSON_parse truthy c a txid = (o, trace) ->
  exists o',
    Chain.crawl JSON_parse truthy (decoderOf c) (boundedOf c) a (hopLimit c) 0
      (initial txid) = (o', trace) /\
    (o = o' \/
     (c = ModuleCrawl /\ o' = Threw /\ o = Returned internalError)) /\
    (c = ModuleCrawl -> exists r, o = Returned r).
Proof.
  destruct c as [|capacity configured fuel]; intros Hrun.
  - destruct (runCrawl_module txid o trace Hrun) as (o' & Hc & Ho).
    exists o'. split; [exact Hc|].
    destruct (crawl_bounded _ _ _ _ _ _ Hc) as (_ & _ & Hh & _).
    destruct o' as [r| |]; subst o.
    + split; [left; reflexivity|]. intros _. exists r. reflexivity.
    + split; [right; auto|]. intros _. eexists. reflexivity.
    + destruct (Hh eq_refl) as [Hb _]. discriminate Hb.
  - rewrite <- runCrawl_server in Hrun. exists o. split; [exact Hrun|].
    split; [left; reflexivity|]. intros H. discriminate H.
Qed.

End Crawlers.

End ChainFacts.

(* ===================================================================== *)
(** ** The [DID] class: parsing *)
(* ===================================================================== *)

Module DidFacts.

Import Engine DidClass DidSpec.

Lemma isLowerHex_spec c : isLowerHex c = true <-> lowerHexDigitUnit c.
Proof. unfold isLowerHex, lowerHexDigitUnit. lia. Qed.

Lemma isHex_spec c : isHex c = true <-> hexDigitUnit c.
Proof. unfold isHex, isLowerHex, hexDigitUnit. lia. Qed.

Lemma isTxid_spec s :
  isTxid s = true <-> length s = 64%nat /\ Forall lowerHexDigitUnit s.
Proof.
  unfold isTxid. rewrite andb_true_iff, bool_decide_eq_true, forallb_forall.
  rewrite List.Forall_forall.
  split; intros [H1 H2]; (split; [exact H1|]); intros c Hc;
    apply isLowerHex_spec, H2, Hc.
Qed.

Lemma isPubKeyHex_spec s :
  isPubKeyHex s = true <-> length s = 66%nat /\ Forall hexDigitUnit s.
Proof.
  unfold isPubKeyHex. rewrite andb_true_iff, bool_decide_eq_true, forallb_forall.
  rewrite List.Forall_forall.
  split; intros [H1 H2]; (split; [exact H1|]); intros c Hc;
    apply isHex_spec, H2, Hc.
Qed.

Lemma Forall_hexDigit s : forallb isHex s = true -> Forall hexDigitUnit s.
Proof.
  intros H. apply List.Forall_forall. intros c Hc. apply isHex_spec.
  rewrite forallb_forall in H. apply H, Hc.
Qed.

Lemma startsWith_spec p s : startsWith p s = true <-> exists r, s = p ++ r.
Proof.
  unfold startsWith. rewrite bool_decide_eq_true. split.
  - intros H. exists (drop (length p) s). rewrite <- H at 1.
    symmetry. apply take_drop.
  - intros [r ->]. rewrite take_app_length. reflexivity.
Qed.

(** [DID.parse] on a string with the prefix. *)
Lemma parse_prefixed id :
  parse (DID_PREFIX ++ id)
  = if isTxid id then Some id else if isPubKeyHex id then Some id else None.
Proof. reflexivity. Qed.

Lemma parse_some did id :
  parse did = Some id <->
  did = DID_PREFIX ++ id /\ (isTxid id = true \/ isPubKeyHex id = true).
Proof.
  split.
  - unfold parse. destruct (startsWith DID_PREFIX did) eqn:Hs; [|discriminate].
    apply startsWith_spec in Hs as [r ->].
    rewrite drop_app_length.
    destruct (isTxid r) eqn:E1; [intros [= <-]; auto|].
    destruct (isPubKeyHex r) eqn:E2; [intros [= <-]; auto|discriminate].
  - intros [-> H]. rewrite parse_prefixed.
    destruct (isTxid id); [reflexivity|].
    destruct H as [H|H]; [discriminate|]. rewrite H. reflexivity.
Qed.

End DidFacts.

(* ===================================================================== *)
(** ** Documents: the ids of the verification methods *)
(* ===================================================================== *)

Module DocFacts.

Import Engine DocSpec.

Lemma readNat_app v s1 s2 : readNat v (s1 ++ s2) = readNat (readNat v s1) s2.
Proof. apply fold_left_app. Qed.

(** [digitsBefore] puts the decimal digits of [n] in front of [acc]. *)
Lemma digitsBefore_value fuel : forall n acc,
  (n < fuel)%nat ->
  exists pre,
    digitsBefore fuel n acc = pre ++ acc /\
    forall v, readNat v pre = (v * 10 ^ length pre + n)%nat.
Proof.
  induction fuel as [|fuel IH]; intros n acc Hn; [lia|].
  cbn [digitsBefore].
  pose proof (Nat.div_mod_eq n 10) as Hdm.
  pose proof (Nat.mod_upper_bound n 10 ltac:(lia)) as Hm.
  destruct (n / 10 =? 0)%nat eqn:Hq.
  - apply Nat.eqb_eq in Hq.
    exists [48 + Z.of_nat (n mod 10)]. split; [reflexivity|].
    intros v. unfold readNat. cbn [fold_left length]. rewrite Nat.pow_1_r.
    replace (Z.to_nat (48 + Z.of_nat (n mod 10) - 48))
      with (n mod 10)%nat by lia. lia.
  - apply Nat.eqb_neq in Hq.
    destruct (IH (n / 10)%nat ((48 + Z.of_nat (n mod 10)) :: acc))
      as (pre & Hpre & Hval); [lia|].
    exists (pre ++ [48 + Z.of_nat (n mod 10)]). split.
    + rewrite Hpre, <- app_assoc. reflexivity.
    + intros v. rewrite readNat_app, Hval. unfold readNat at 1.
      cbn [fold_left].
      replace (Z.to_nat (48 + Z.of_nat (n mod 10) - 48))
        with (n mod 10)%nat by lia.
      rewrite length_app. cbn [length].
      replace (length pre + 1)%nat with (S (length pre)) by lia.
      rewrite Nat.pow_succ_r'. lia.
Qed.

Lemma readNat_digits n : readNat 0 (digits n) = n.
Proof.
  unfold digits.
  destruct (digitsBefore_value (S n) n [] ltac:(lia)) as (pre & Hpre & Hval).
  rewrite Hpre, app_nil_r, Hval. lia.
Qed.

Lemma digits_inj n m : digits n = digits m -> n = m.
Proof.
  intros H. rewrite <- (readNat_digits n), <- (readNat_digits m), H.
  reflexivity.
Qed.

Section WithKeys.

Context {jwk : Type}.
Variable pubKeyToJwk : jsstring -> option jwk.

Lemma keyId_inj did i j : keyId did i = keyId did j -> i = j.
Proof.
  unfold keyId. intros H. apply app_inv_head in H. apply app_inv_head in H.
  apply digits_inj in H. lia.
Qed.

Lemma keyId_not_subject did i : did ++ lit "#subject-key" <> keyId did i.
Proof.
  unfold keyId. intros H. apply app_inv_head in H. discriminate H.
Qed.

(** The loop over the additional keys keeps the document and appends one
    method per key, numbered from [#key-(i+2)]. *)
Lemma addKeys_methods did keys : forall i doc0 doc,
  addKeys pubKeyToJwk did i keys doc0 = Some doc ->
  doc_id doc = doc_id doc0 /\ controller doc = controller doc0 /\
  authentication doc = authentication doc0 /\ service doc = service doc0 /\
  exists added,
    verificationMethods doc = verificationMethods doc0 ++ added /\
    vm_id <$> added = keyId did <$> seq i (length keys) /\
    Forall (fun vm => vm_controller vm = did) added /\
    Forall2 (fun k vm => pubKeyToJwk k = Some (publicKeyJwk vm)) keys added.
Proof.
  induction keys as [|k keys IH]; intros i doc0 doc H; cbn [addKeys] in H.
  - injection H as <-. repeat split.
    exists []. rewrite app_nil_r. repeat split; constructor.
  - destruct (pubKeyToJwk k) as [j|] eqn:Hj; [|discriminate].
    cbn in H. apply IH in H as (H1 & H2 & H3 & H4 & added & Hv & Hids & Hc & Hk).
    cbn [doc_id controller authentication service verificationMethods] in *.
    repeat split; try assumption.
    eexists (_ :: added). split; [rewrite Hv, <- app_assoc; reflexivity|].
    split; [cbn [fmap list_fmap length seq]; f_equal; exact Hids|].
    split; [constructor; [reflexivity|exact Hc]|].
    constructor; [exact Hj|exact Hk].
Qed.

End WithKeys.

End DocFacts.

(* ===================================================================== *)
(** ** The wallet after a successful call *)
(* ===================================================================== *)

Module LifecycleFacts.

Import Engine EngineSpec.

(** The scan of [_resolveFromBasket] over two lists of outputs. *)
Lemma latestFor_app did l1 l2 :
  latestFor did (l1 ++ l2)
  = match latestFor did l2 with
    | Some ci => Some ci
    | None => latestFor did l1
    end.
Proof.
  unfold latestFor. rewrite fold_left_app.
  generalize (fold_left
    (fun acc o =>
       match customInstructions o with
       | Parsed ci => if bool_decide (ci_did ci = Some did) then Some ci else acc
       | _ => acc
       end) l1 None) as acc.
  induction l2 as [|o l2 IH] using rev_ind; intros acc; [reflexivity|].
  rewrite !fold_left_app. cbn [fold_left].
  destruct (customInstructions o) as [| |ci]; try apply IH.
  destruct (bool_decide (ci_did ci = Some did)); [reflexivity|apply IH].
Qed.

Lemma latestFor_unknown did outputs :
  List.filter (namesDid did) outputs = [] -> latestFor did outputs = None.
Proof.
  induction outputs as [|o outputs IH] using rev_ind; intros H; [reflexivity|].
  rewrite List.filter_app in H. apply app_eq_nil in H as [H1 H2].
  rewrite latestFor_app, (IH H1). unfold latestFor. cbn [fold_left].
  cbn [List.filter] in H2. unfold namesDid in H2.
  destruct (customInstructions o) as [| |ci]; try reflexivity.
  destruct (bool_decide (ci_did ci = Some did)); [discriminate|reflexivity].
Qed.

(** The default basket after a transaction that tracks one output. *)
Lemma listOutputs_spend_first st b ci w :
  listOutputs
    (track st 0 [NewOutput (Some b) (Some ci); NewOutput None None] w) didBasket
  = listOutputs w didBasket
    ++ (if bool_decide (b = didBasket)
        then [Output (outpointOf st 0) (Parsed ci)] else []).
Proof.
  rewrite EngineFacts.listOutputs_track. cbn [created no_basket no_instructions].
  rewrite (bool_decide_eq_false_2 (None = Some didBasket)) by discriminate.
  rewrite !app_nil_r. f_equal.
  destruct (decide (b = didBasket)) as [->|N].
  - rewrite !bool_decide_eq_true_2 by reflexivity. reflexivity.
  - rewrite !bool_decide_eq_false_2 by congruence. reflexivity.
Qed.

Lemma listOutputs_spend_second st ci w :
  listOutputs
    (track st 0 [NewOutput None None; NewOutput (Some didBasket) (Some ci)] w)
    didBasket
  = listOutputs w didBasket ++ [Output (outpointOf st 1) (Parsed ci)].
Proof.
  rewrite EngineFacts.listOutputs_track. cbn [created no_basket no_instructions].
  rewrite (bool_decide_eq_false_2 (None = Some didBasket)) by discriminate.
  rewrite bool_decide_eq_true_2 by reflexivity.
  rewrite app_nil_r. reflexivity.
Qed.

Section WithKeys.

Context {jwk : Type}.
Variable pubKeyToJwk : jsstring -> option jwk.
Variable validPrivateKey : jsstring -> bool.

(** The metadata of the three tracked outputs that the methods write. *)
Lemma createDID_ok env options w r w' :
  createDID pubKeyToJwk validPrivateKey env options w = (Ok r, w') ->
  exists txid subjectKey spendTxid did doc,
    issuanceAnswer env = Some txid /\
    derivedSubjectKey env = Some subjectKey /\
    fromTxid (Some txid) = Some did /\
    buildDocument pubKeyToJwk (Some txid) (Some subjectKey) (Some did)
      (opt_services options) = Some doc /\
    r = CreateResult did (Some txid)
          (Some (default (gen_identityCode env) (opt_identityCode options))) doc /\
    w' = track spendTxid 0
           [NewOutput (Some (default didBasket (opt_basket options)))
              (Some (ChainCI (Some (lit "did-document")) (Some did)
                       (Some (default (gen_identityCode env)
                                (opt_identityCode options)))
                       (Some (gen_chainKeyHex env)) (Some subjectKey)
                       (Some txid) None None (Some (lit "active"))));
            NewOutput None None]
           (unspend (outpointOf txid 0)
              (track txid 0
                 [NewOutput (Some (default didBasket (opt_basket options)))
                    (Some (ChainCI (Some (lit "did-issuance")) None
                             (Some (default (gen_identityCode env)
                                      (opt_identityCode options)))
                             (Some (gen_chainKeyHex env)) (Some subjectKey)
                             None None None (Some (lit "pending"))));
                  NewOutput None None] w)).
Proof.
  unfold createDID, spendChainOutput. intros H.
  destruct (derivedSubjectKey env) as [subjectKey|]; [|discriminate].
  destruct (issuanceAnswer env) as [[|c txid]|]; [discriminate| |discriminate].
  match type of H with
  | context [fromTxid ?x] => destruct (fromTxid x) as [did|] eqn:Hd
  end; [|discriminate].
  match type of H with
  | context [buildDocument ?a ?b ?c ?d ?e] =>
      destruct (buildDocument a b c d e) as [doc|] eqn:Hb
  end; [|discriminate].
  destruct (issuanceFound _ _ _ _ _); cbn [negb] in H; [|discriminate].
  destruct (validPrivateKey _); cbn [negb] in H; [|discriminate].
  destruct (create_spend env) as [t| | |]; try discriminate.
  injection H as <- <-.
  exists (c :: txid), subjectKey, t, did, doc.
  repeat split; try reflexivity; assumption.
Qed.

Lemma updateDID_ok answer options w r w' :
  updateDID pubKeyToJwk validPrivateKey answer options w = (Ok r, w') ->
  exists ci tip chainKeyHex spendTxid doc,
    scanActive (upd_did options) (listOutputs w didBasket) = Some (ci, tip) /\
    is_Some (fromTxid (ci_issuanceTxid ci)) /\
    buildDocument pubKeyToJwk (ci_issuanceTxid ci) (ci_subjectKey ci)
      (Some (upd_did options)) (upd_services options)
    ≫= addKeys pubKeyToJwk (upd_did options) 0
          (default [] (upd_additionalKeys options)) = Some doc /\
    r = CreateResult (upd_did options) (ci_issuanceTxid ci)
          (ci_identityCode ci) doc /\
    w' = track spendTxid 0
           [NewOutput (Some didBasket)
              (Some (ChainCI (Some (lit "did-update")) (Some (upd_did options))
                       (ci_identityCode ci) (Some chainKeyHex)
                       (ci_subjectKey ci) (ci_issuanceTxid ci)
                       (upd_services options) (upd_additionalKeys options)
                       (Some (lit "active"))));
            NewOutput None None]
           (unspend tip w).
Proof.
  unfold updateDID, spendChainOutput. intros H.
  destruct (parse (upd_did options)); [|discriminate].
  destruct (scanActive _ _) as [[ci tip]|]; [|discriminate].
  destruct (Chain.truthyString (ci_chainKeyHex ci)) as [key|]; [|discriminate].
  destruct (validPrivateKey key); cbn [negb] in H; [|discriminate].
  destruct (fromTxid (ci_issuanceTxid ci)) as [d|] eqn:Hd; [|discriminate].
  destruct (buildDocument _ _ _ _ _ ≫= _) as [doc|] eqn:Hb; [|discriminate].
  destruct answer as [t| | |]; try discriminate.
  injection H as <- <-.
  exists ci, tip, key, t, doc.
  split; [reflexivity|]. split; [rewrite Hd; eexists; reflexivity|].
  split; [exact Hb|]. split; reflexivity.
Qed.

Lemma deactivateDID_ok answer trackingOk did w t w' :
  deactivateDID validPrivateKey answer trackingOk did w = (Ok t, w') ->
  exists ci tip,
    is_Some (parse did) /\
    scanActive did (listOutputs w didBasket) = Some (ci, tip) /\
    w' = track t 0
           [NewOutput None None;
            NewOutput (Some didBasket)
              (Some (ChainCI (Some (lit "did-revocation")) (Some did)
                       (ci_identityCode ci) None (ci_subjectKey ci)
                       (ci_issuanceTxid ci) None None
                       (Some (lit "deactivated"))))]
           (unspend tip w).
Proof.
  unfold deactivateDID, spendChainOutput. intros H.
  destruct (parse did) eqn:Hp; [|discriminate].
  destruct (scanActive _ _) as [[ci tip]|]; [|discriminate].
  destruct (Chain.truthyString (ci_chainKeyHex ci)) as [key|]; [|discriminate].
  destruct trackingOk; cbn [negb] in H; [|discriminate].
  destruct (validPrivateKey key); cbn [negb] in H; [|discriminate].
  destruct answer as [s| | |]; try discriminate.
  injection H as <- <-.
  exists ci, tip. split; [eexists; reflexivity|]. split; reflexivity.
Qed.

(** The default basket after a transaction that spends [tip] and tracks
    one output with metadata [ci] in it, at index [i]. *)
Lemma latestFor_tracked did ci l p :
  ci_did ci = Some did ->
  latestFor did (l ++ [Output p (Parsed ci)]) = Some ci.
Proof.
  intros H. rewrite latestFor_app. unfold latestFor at 1. cbn.
  rewrite bool_decide_eq_true_2 by exact H. reflexivity.
Qed.

End WithKeys.

End LifecycleFacts.

(* ===================================================================== *)
(** ** [listDIDs]: the map of the latest entries *)
(* ===================================================================== *)

Module ListingFacts.

Import Engine Listing ListingSpec.

Section MapSet.

Context {V : Type}.

Lemma mapSet_keys k (v : V) m :
  (mapSet k v m).*1 = if bool_decide (k ∈ m.*1) then m.*1 else m.*1 ++ [k].
Proof.
  induction m as [|[k' v'] m IH]; [reflexivity|].
  cbn [mapSet fmap list_fmap fst].
  destruct (decide (k' = k)) as [->|N].
  - rewrite bool_decide_eq_true_2 by reflexivity.
    rewrite (bool_decide_eq_true_2 (k ∈ k :: m.*1)) by (apply elem_of_cons; auto).
    reflexivity.
  - rewrite bool_decide_eq_false_2 by exact N.
    cbn [fmap list_fmap fst]. rewrite IH.
    destruct (decide (k ∈ m.*1)) as [Hin|Hin].
    + rewrite !bool_decide_eq_true_2;
        [reflexivity|apply elem_of_cons; auto|exact Hin].
    + rewrite !bool_decide_eq_false_2; [reflexivity| |exact Hin].
      intros H. apply elem_of_cons in H as [H|H]; [congruence|exact (Hin H)].
Qed.

Lemma mapSet_NoDup k (v : V) m : NoDup m.*1 -> NoDup (mapSet k v m).*1.
Proof.
  intros H. rewrite mapSet_keys.
  destruct (decide (k ∈ m.*1)) as [Hin|Hin].
  - rewrite bool_decide_eq_true_2 by exact Hin. exact H.
  - rewrite bool_decide_eq_false_2 by exact Hin.
    apply NoDup_app. split; [exact H|]. split.
    + intros x Hx Hx'. apply list_elem_of_singleton in Hx' as ->. exact (Hin Hx).
    + apply NoDup_singleton.
Qed.

Lemma mapSet_elem k (v : V) m k' v' :
  NoDup m.*1 ->
  (k', v') ∈ mapSet k v m <->
  (k' = k /\ v' = v) \/ (k' <> k /\ (k', v') ∈ m).
Proof.
  induction m as [|[k0 v0] m IH]; intros Hnd.
  - cbn [mapSet]. rewrite list_elem_of_singleton. split.
    + intros [= -> ->]. left. auto.
    + intros [[-> ->]|[_ H]]; [reflexivity|inversion H].
  - cbn [fmap list_fmap fst] in Hnd. apply NoDup_cons in Hnd as [Hk0 Hnd].
    cbn [mapSet]. destruct (decide (k0 = k)) as [->|N].
    + rewrite bool_decide_eq_true_2 by reflexivity.
      rewrite !elem_of_cons. split.
      * intros [[= -> ->]|H]; [left; auto|].
        right. split; [|right; exact H].
        intros ->. apply Hk0. apply list_elem_of_fmap. exists (k, v'). auto.
      * intros [[-> ->]|[Hne [[= -> ->]|H]]]; [left; reflexivity|congruence|].
        right. exact H.
    + rewrite bool_decide_eq_false_2 by exact N.
      rewrite !elem_of_cons, (IH Hnd). split.
      * intros [[= -> ->]|[H|[Hne H]]]; [right; split; [exact N|left; reflexivity]
                                        |left; exact H|].
        right. split; [exact Hne|right; exact H].
      * intros [H|[Hne [[= -> ->]|H]]]; [right; left; exact H|left; reflexivity|].
        right. right. split; assumption.
Qed.

End MapSet.

(** The loop of [listDIDs] is a fold over the entries. *)
Lemma didMapOf_entries outputs :
  didMapOf outputs
  = fold_left (fun m e => mapSet (cs_did e) e m) (entriesOf outputs) [].
Proof.
  unfold didMapOf, entriesOf. generalize (@nil (jsstring * DIDChainState)) as m.
  induction outputs as [|o outputs IH]; intros m; [reflexivity|].
  cbn [fold_left omap list_omap]. rewrite IH.
  destruct (entryOf o) as [e|]; reflexivity.
Qed.

Lemma entries_fold es :
  let m := fold_left (fun m e => mapSet (cs_did e) e m) es [] in
  NoDup m.*1 /\
  forall k e,
    (k, e) ∈ m <->
    last (List.filter (fun e' => bool_decide (cs_did e' = k)) es) = Some e.
Proof.
  induction es as [|e0 es IH] using rev_ind.
  - cbn. split; [apply NoDup_nil_2|]. intros k e. split; [|discriminate].
    intros H. inversion H.
  - cbn zeta in *. rewrite fold_left_app. cbn [fold_left].
    destruct IH as [Hnd IH]. split; [apply mapSet_NoDup, Hnd|].
    intros k e. rewrite (mapSet_elem _ _ _ _ _ Hnd), List.filter_app.
    cbn [List.filter].
    destruct (decide (cs_did e0 = k)) as [E|N].
    + rewrite bool_decide_eq_true_2 by exact E. rewrite last_snoc. split.
      * intros [[-> ->]|[Hne _]]; [reflexivity|congruence].
      * intros [= ->]. left. auto.
    + rewrite bool_decide_eq_false_2 by exact N. rewrite app_nil_r, <- IH.
      split.
      * intros [[-> _]|[_ H]]; [congruence|exact H].
      * intros H. right. split; [congruence|exact H].
Qed.

(** What an entry holds. *)
Lemma entryOf_some o e :
  entryOf o = Some e ->
  cs_did e <> [] /\ cs_identityCode e <> [] /\ currentOutpoint e = outpoint o /\
  (cs_status e = lit "active" \/ cs_status e = lit "deactivated") /\
  exists ci,
    customInstructions o = Parsed ci /\
    ci_did ci = Some (cs_did e) /\
    ci_identityCode ci = Some (cs_identityCode e) /\
    ci_status ci <> Some (lit "pending") /\
    (cs_status e = lit "deactivated" <->
     ci_status ci = Some (lit "deactivated")).
Proof.
  unfold entryOf. destruct (customInstructions o) as [| |ci]; try discriminate.
  destruct (ci_did ci) as [[|c did]|] eqn:Ed; try discriminate.
  destruct (ci_identityCode ci) as [[|c' ic]|] eqn:Ei; try discriminate.
  cbn [Chain.truthyString].
  destruct (bool_decide (ci_status ci = Some (lit "pending"))) eqn:Ep;
    [discriminate|].
  apply bool_decide_eq_false in Ep.
  intros [= <-]. cbn [cs_did cs_identityCode currentOutpoint cs_status].
  split; [discriminate|]. split; [discriminate|]. split; [reflexivity|].
  destruct (bool_decide (ci_status ci = Some (lit "deactivated"))) eqn:Es.
  - apply bool_decide_eq_true in Es. split; [right; reflexivity|].
    exists ci. repeat split; auto.
  - apply bool_decide_eq_false in Es. split; [left; reflexivity|].
    exists ci. repeat split; auto; try discriminate. intros H. congruence.
Qed.

Lemma last_filter_key k (es : list DIDChainState) e :
  last (List.filter (fun e' => bool_decide (cs_did e' = k)) es) = Some e ->
  cs_did e = k /\ e ∈ es.
Proof.
  intros H. apply last_Some in H as [l' H].
  assert (Hin : In e (List.filter (fun e' => bool_decide (cs_did e' = k)) es)).
  { rewrite H. apply in_or_app. right. left. reflexivity. }
  apply filter_In in Hin as [Hin Hk]. apply bool_decide_eq_true in Hk.
  split; [exact Hk|]. apply list_elem_of_In. exact Hin.
Qed.

(** [listDIDs] returns, for each DID, the entry of the last output that
    gives one. *)
Lemma listDIDs_spec w :
  exists l,
    listDIDs true w = Some l /\ NoDup (cs_did <$> l) /\
    forall e,
      e ∈ l <-> last (entriesFor (cs_did e) (listOutputs w didBasket)) = Some e.
Proof.
  unfold listDIDs, entriesFor. eexists. split; [reflexivity|].
  rewrite didMapOf_entries.
  pose proof (entries_fold (entriesOf (listOutputs w didBasket))) as [Hnd Hm].
  set (m := fold_left _ _ _) in *.
  assert (Hkeys : cs_did <$> m.*2 = m.*1).
  { rewrite <- list_fmap_compose. apply list_fmap_ext.
    intros i [k e] Hi. cbn.
    apply list_elem_of_lookup_2 in Hi. apply Hm in Hi.
    apply last_filter_key in Hi as [Hi _]. exact Hi. }
  split; [rewrite Hkeys; exact Hnd|].
  intros e. rewrite <- Hm. split.
  - intros H. apply list_elem_of_fmap in H as ([k e'] & -> & Hin). cbn.
    pose proof Hin as Hin'. apply Hm, last_filter_key in Hin' as [<- _].
    exact Hin.
  - intros H. apply list_elem_of_fmap. exists (cs_did e, e). auto.
Qed.

Lemma entriesFor_snoc did outputs o e :
  entryOf o = Some e -> cs_did e = did ->
  last (entriesFor did (outputs ++ [o])) = Some e.
Proof.
  intros Ho Hd. unfold entriesFor, entriesOf.
  rewrite omap_app, List.filter_app. cbn [omap list_omap]. rewrite Ho.
  cbn [List.filter]. rewrite bool_decide_eq_true_2 by exact Hd.
  apply last_snoc.
Qed.

(** The entry of a DID in the list is the one of the last output of the
    basket, when that output gives an entry for it. *)
Lemma listed_last w outputs o e :
  listOutputs w didBasket = outputs ++ [o] ->
  entryOf o = Some e ->
  exists l,
    listDIDs true w = Some l /\ e ∈ l /\
    forall e', e' ∈ l -> cs_did e' = cs_did e -> e' = e.
Proof.
  intros Hl Ho. destruct (listDIDs_spec w) as (l & Hw & _ & Hin).
  exists l. split; [exact Hw|].
  assert (He : last (entriesFor (cs_did e) (listOutputs w didBasket)) = Some e)
    by (rewrite Hl; apply (entriesFor_snoc _ _ _ _ Ho); reflexivity).
  split; [apply Hin, He|].
  intros e' Hin' Hd. apply Hin in Hin'. rewrite Hd, He in Hin'. congruence.
Qed.

End ListingFacts.

(* ===================================================================== *)
(** ** The pattern of the server and [DID.parse] *)
(* ===================================================================== *)

Module ServiceFacts.

Import Engine ServerService.

Lemma toLowerAscii_lowerHex c : isLowerHex c = true -> toLowerAscii c = c.
Proof.
  unfold isLowerHex, toLowerAscii. intros H.
  destruct ((65 <=? c) && (c <=? 90)) eqn:E; lia.
Qed.

Lemma toLowerAscii_hex c : isHex c = true -> isLowerHex (toLowerAscii c) = true.
Proof.
  unfold isHex, isLowerHex, toLowerAscii. intros H.
  destruct ((65 <=? c) && (c <=? 90)) eqn:E; lia.
Qed.

Lemma toLowerCase_lowerHex s : forallb isLowerHex s = true -> toLowerCase s = s.
Proof.
  induction s as [|c s IH]; [reflexivity|]. cbn [forallb].
  intros H. apply andb_true_iff in H as [Hc Hs]. unfold toLowerCase in *.
  cbn [fmap list_fmap]. rewrite (toLowerAscii_lowerHex _ Hc). f_equal.
  apply IH, Hs.
Qed.

Lemma toLowerCase_hex s :
  forallb isHex s = true -> forallb isLowerHex (toLowerCase s) = true.
Proof.
  induction s as [|c s IH]; [reflexivity|]. cbn [forallb].
  intros H. apply andb_true_iff in H as [Hc Hs]. unfold toLowerCase in *.
  cbn [fmap list_fmap forallb]. rewrite (toLowerAscii_hex _ Hc). apply IH, Hs.
Qed.

Lemma isLowerHex_isHex s : forallb isLowerHex s = true -> forallb isHex s = true.
Proof.
  induction s as [|c s IH]; [reflexivity|]. cbn [forallb].
  intros H. apply andb_true_iff in H as [Hc Hs].
  apply andb_true_iff. split; [unfold isHex; rewrite Hc; reflexivity|].
  apply IH, Hs.
Qed.

(** The pattern on a string with the prefix. *)
Lemma txidMatch_prefixed id :
  txidMatch (DID_PREFIX ++ id)
  = if bool_decide (length id = 64%nat) && forallb isHex id then Some id else None.
Proof. reflexivity. Qed.

Lemma txidMatch_some did t :
  txidMatch did = Some t ->
  length t = 64%nat /\ forallb isHex t = true /\
  did = take 8 did ++ t /\ toLowerAscii <$> take 8 did = DID_PREFIX.
Proof.
  unfold txidMatch.
  destruct (bool_decide (toLowerAscii <$> take 8 did = DID_PREFIX)) eqn:E1;
    [|discriminate].
  destruct (bool_decide (length (drop 8 did) = 64%nat)) eqn:E2; [|discriminate].
  destruct (forallb isHex (drop 8 did)) eqn:E3; [|discriminate].
  intros [= <-]. apply bool_decide_eq_true in E1, E2.
  repeat split; try assumption. symmetry. apply take_drop.
Qed.

End ServiceFacts.

(* ===================================================================== *)
(** ** The server decoder: when the loop ends *)
(* ===================================================================== *)

Module DecoderFacts.

Import Sdk CodecSpec DecoderSpec.

Lemma hexDigit_In c : DidSpec.hexDigitUnit c -> In c hexChars.
Proof. unfold DidSpec.hexDigitUnit, hexChars. cbn [In]. lia. Qed.

Lemma hex_pairs_plain :
  forallb (fun c1 =>
             plainByteb (parseInt16 [c1])
             && forallb (fun c2 => plainByteb (parseInt16 [c1; c2])) hexChars)
    hexChars = true.
Proof. vm_compute. reflexivity. Qed.

Lemma hex_pairs_bytes :
  forallb (fun c1 =>
             byteNumb (parseInt16 [c1])
             && forallb (fun c2 => byteNumb (parseInt16 [c1; c2])) hexChars)
    hexChars = true.
Proof. vm_compute. reflexivity. Qed.

Lemma byteNumb_spec b : byteNumb b = true -> byteNum b.
Proof. destruct b as [|z]; cbn; [discriminate|lia]. Qed.

Lemma parseInt16_byte c1 c2 :
  DidSpec.hexDigitUnit c1 -> DidSpec.hexDigitUnit c2 ->
  byteNum (parseInt16 [c1]) /\ byteNum (parseInt16 [c1; c2]).
Proof.
  intros H1 H2. apply hexDigit_In in H1, H2.
  pose proof hex_pairs_bytes as H. rewrite forallb_forall in H.
  specialize (H c1 H1). apply andb_true_iff in H as [Ha Hb].
  rewrite forallb_forall in Hb. specialize (Hb c2 H2).
  split; apply byteNumb_spec; assumption.
Qed.

(** [hexToBytes] on hexadecimal text: one byte per two digits, a last
    single digit giving a byte of its own. *)
Lemma hexToBytes_bytes hex :
  Forall DidSpec.hexDigitUnit hex ->
  Forall byteNum (Server.hexToBytes hex) /\
  length (Server.hexToBytes hex) = ((length hex + 1) / 2)%nat.
Proof.
  revert hex. fix IH 1. intros [|c1 [|c2 rest]] H.
  - split; [constructor|reflexivity].
  - inversion H as [|? ? H1 _]; subst. split; [|reflexivity].
    constructor; [|constructor]. apply (parseInt16_byte c1 c1 H1 H1).
  - inversion H as [|? ? H1 H']; subst. inversion H' as [|? ? H2 H'']; subst.
    destruct (IH rest H'') as [Hb Hl].
    cbn [Server.hexToBytes length]. split.
    + constructor; [apply (parseInt16_byte c1 c2 H1 H2)|exact Hb].
    + rewrite Hl.
      replace (S (S (length rest)) + 1)%nat with (length rest + 1 + 1 * 2)%nat
        by lia.
      rewrite Nat.div_add by lia. lia.
Qed.

Lemma plainByteb_spec b : plainByteb b = true -> plainByte b.
Proof. destruct b as [|z]; cbn; [trivial|lia]. Qed.

Lemma parseInt16_plain c1 c2 :
  DidSpec.hexDigitUnit c1 -> DidSpec.hexDigitUnit c2 ->
  plainByte (parseInt16 [c1]) /\ plainByte (parseInt16 [c1; c2]).
Proof.
  intros H1 H2. apply hexDigit_In in H1, H2.
  pose proof hex_pairs_plain as H. rewrite forallb_forall in H.
  specialize (H c1 H1). apply andb_true_iff in H as [Ha Hb].
  rewrite forallb_forall in Hb. specialize (Hb c2 H2).
  split; apply plainByteb_spec; assumption.
Qed.

(** The bytes of hexadecimal text are bytes. *)
Lemma hexToBytes_plain hex :
  Forall DidSpec.hexDigitUnit hex -> Forall plainByte (Server.hexToBytes hex).
Proof.
  revert hex. fix IH 1. intros [|c1 [|c2 rest]] H.
  - constructor.
  - inversion H as [|? ? H1 _]; subst. constructor; [|constructor].
    apply (parseInt16_plain c1 c1 H1 H1).
  - inversion H as [|? ? H1 H']; subst. inversion H' as [|? ? H2 H'']; subst.
    cbn [Server.hexToBytes]. constructor.
    + apply (parseInt16_plain c1 c2 H1 H2).
    + apply IH, H''.
Qed.

Lemma index_plain bytes i : Forall plainByte bytes -> plainByte (index bytes i).
Proof.
  intros H. unfold index. destruct (i <? 0); [exact I|].
  destruct (nth_in_or_default (Z.to_nat i) bytes NaN) as [Hin | ->]; [|exact I].
  rewrite List.Forall_forall in H. apply H, Hin.
Qed.

Lemma operand_byte b : plainByte b -> isByte (operand b).
Proof. destruct b; unfold isByte; cbn; lia. Qed.

Lemma shl_operand b k : plainByte b -> shl b k = shl (Int (operand b)) k.
Proof.
  intros H. destruct b as [|z]; [|reflexivity].
  unfold shl. cbn [toInt32 operand]. rewrite (CodecFacts.wrap32_small 0) by lia. reflexivity.
Qed.

Lemma bitor_operand b c : plainByte b -> bitor b c = bitor (Int (operand b)) c.
Proof.
  intros H. destruct b as [|z]; [|reflexivity].
  unfold bitor. cbn [toInt32 operand]. rewrite (CodecFacts.wrap32_small 0) by lia. reflexivity.
Qed.

Lemma len16_nonneg b0 b1 :
  plainByte b0 -> plainByte b1 -> notNegative (bitor b0 (shl b1 8)).
Proof.
  intros H0 H1. rewrite (bitor_operand b0), (shl_operand b1) by assumption.
  pose proof (operand_byte _ H0) as B0. pose proof (operand_byte _ H1) as B1.
  rewrite CodecFacts.server_len16 by assumption.
  unfold isByte in *. cbn [notNegative leValue]. lia.
Qed.

Lemma len32_nonneg b0 b1 b2 b3 :
  plainByte b0 -> plainByte b1 -> plainByte b2 -> plainByte b3 ->
  operand b3 < 128 ->
  notNegative (bitor (bitor (bitor b0 (shl b1 8)) (shl b2 16)) (shl b3 24)).
Proof.
  intros H0 H1 H2 H3 Hlt.
  rewrite (bitor_operand b0), (shl_operand b1), (shl_operand b2),
    (shl_operand b3) by assumption.
  pose proof (operand_byte _ H0) as B0. pose proof (operand_byte _ H1) as B1.
  pose proof (operand_byte _ H2) as B2. pose proof (operand_byte _ H3) as B3.
  unfold isByte in *.
  rewrite CodecFacts.server_len32
    by (unfold isByte; cbn [leValue]; lia).
  cbn [notNegative leValue]. lia.
Qed.

(** One reading of a push length moves the cursor forward and, when the
    four-byte lengths are below 2^31, gives a length that is not
    negative. *)
Lemma readLen_forward bytes p len i' :
  Forall plainByte bytes -> lengthsBelow31 bytes ->
  Server.readLen bytes (index bytes p) (p + 1) = Server.Len len i' ->
  p + 1 <= i' /\ notNegative len.
Proof.
  intros Hb H31. unfold Server.readLen.
  destruct (index bytes p) as [|o] eqn:Eo; [discriminate|].
  destruct ((1 <=? o) && (o <=? 75)) eqn:E1.
  { intros [= <- <-]. cbn [notNegative]. lia. }
  destruct (o =? 76) eqn:E76.
  { destruct (Z.of_nat (length bytes) <=? _); [discriminate|]. intros [= <- <-].
    split; [lia|]. pose proof (index_plain bytes (p + 1) Hb) as Hp.
    destruct (index bytes (p + 1)); cbn in *; [trivial|lia]. }
  destruct (o =? 77) eqn:E77.
  { destruct (Z.of_nat (length bytes) <=? _); [discriminate|]. intros [= <- <-].
    split; [lia|]. apply len16_nonneg; apply index_plain, Hb. }
  destruct (o =? 78) eqn:E78; [|discriminate].
  destruct (Z.of_nat (length bytes) <=? _); [discriminate|]. intros [= <- <-].
  split; [lia|]. apply Z.eqb_eq in E78. subst o.
  apply len32_nonneg; try (apply index_plain, Hb).
  pose proof (H31 p) as Hp.
  replace (p + 1 + 3) with (p + 4) by lia.
  destruct (index bytes (p + 4)) as [|z] eqn:Ez; cbn [operand]; [lia|].
  apply (Hp z Eo eq_refl).
Qed.

(** The loop ends within as many iterations as there are bytes from the
    cursor on. *)
Lemma readPushes_ends capacity bytes :
  Forall plainByte bytes -> lengthsBelow31 bytes ->
  forall fuel i segs,
    (Z.to_nat (Z.of_nat (length bytes) - i) < fuel)%nat ->
    is_Some (Server.readPushes fuel capacity bytes i segs).
Proof.
  intros Hb H31. induction fuel as [|fuel IH]; intros i segs Hf; [lia|].
  cbn [Server.readPushes].
  destruct (Z.of_nat (length bytes) <=? i) eqn:En; [eexists; reflexivity|].
  apply Z.leb_gt in En.
  destruct (Server.readLen bytes (index bytes i) (i + 1)) as [|len i'] eqn:El;
    [eexists; reflexivity|].
  apply (readLen_forward _ _ _ _ Hb H31) in El as [Hi Hl].
  destruct (gtb (addz i' len) (Z.of_nat (length bytes)));
    [eexists; reflexivity|].
  destruct (capacity <=? length segs)%nat; [eexists; reflexivity|].
  destruct len as [|l]; [eexists; reflexivity|].
  cbn [notNegative] in Hl. apply IH. lia.
Qed.

Lemma skipToOpReturn_ge rest : forall i, i <= Server.skipToOpReturn rest i.
Proof.
  induction rest as [|b rest IH]; intros i; cbn [Server.skipToOpReturn]; [lia|].
  destruct (num_eqb b 106); [lia|]. specialize (IH (i + 1)). lia.
Qed.

Lemma skipToOpReturn_none rest : forall i,
  Forall (fun b => b <> Int 106) rest ->
  Server.skipToOpReturn rest i = i + Z.of_nat (length rest).
Proof.
  induction rest as [|b rest IH]; intros i H; cbn [Server.skipToOpReturn length].
  - lia.
  - inversion H as [|? ? Hb H']; subst.
    assert (E : num_eqb b 106 = false).
    { destruct b as [|z]; [reflexivity|]. cbn. apply Z.eqb_neq.
      intros ->. apply Hb. reflexivity. }
    rewrite E, (IH _ H'). lia.
Qed.

Lemma no_op_return capacity hex fuel :
  Forall (fun b => b <> Int 106) (Server.hexToBytes hex) ->
  Server.parseOpReturnSegments fuel capacity hex = Some [].
Proof.
  intros H. unfold Server.parseOpReturnSegments.
  destruct (_ <? _)%nat; [reflexivity|].
  rewrite (skipToOpReturn_none _ _ H).
  rewrite (proj2 (Z.leb_le _ _)) by lia. reflexivity.
Qed.

Lemma decode_no_op_return capacity hex :
  Forall (fun b => b <> Int 106) (Server.hexToBytes hex) ->
  Server.decode capacity hex = [].
Proof.
  intros H. apply (CodecFacts.decode_returns capacity hex 0).
  apply no_op_return, H.
Qed.

Lemma index_In bytes i z : index bytes i = Int z -> In (Int z) bytes.
Proof.
  unfold index. destruct (i <? 0); [discriminate|].
  destruct (nth_in_or_default (Z.to_nat i) bytes NaN) as [Hin | E].
  - intros <-. exact Hin.
  - rewrite E. discriminate.
Qed.

(** A script without a byte [0x4e] announces no four-byte length. *)
Lemma no_pushdata4 bytes :
  Forall (fun b => b <> Int 78) bytes -> lengthsBelow31 bytes.
Proof.
  intros H i z Hi _. exfalso. apply index_In in Hi.
  rewrite List.Forall_forall in H. exact (H _ Hi eq_refl).
Qed.

(** *** The decoder of the module on a script without a byte [0x6a] *)

Lemma hex_pairs_agree :
  forallb (fun c1 => forallb (pairAgrees c1) hexChars) hexChars = true.
Proof. vm_compute. reflexivity. Qed.

Lemma hexDigit_unit c : is_Some (hexDigit c) -> DidSpec.hexDigitUnit c.
Proof.
  unfold hexDigit, DidSpec.hexDigitUnit. intros [d H].
  destruct (Z.leb_spec 48 c), (Z.leb_spec c 57); cbn [andb] in H; try lia;
    destruct (Z.leb_spec 97 c), (Z.leb_spec c 102); cbn [andb] in H; try lia;
    destruct (Z.leb_spec 65 c), (Z.leb_spec c 70); cbn [andb] in H; try lia;
    discriminate H.
Qed.

Lemma parseInt16_pair c1 c2 :
  is_Some (hexDigit c1) -> is_Some (hexDigit c2) ->
  parseInt16 [c1; c2]
  = Int (16 * default 0 (hexDigit c1) + default 0 (hexDigit c2)).
Proof.
  intros H1 H2.
  pose proof (hexDigit_In c1 (hexDigit_unit c1 H1)) as I1.
  pose proof (hexDigit_In c2 (hexDigit_unit c2 H2)) as I2.
  pose proof hex_pairs_agree as H. rewrite forallb_forall in H.
  specialize (H c1 I1). rewrite forallb_forall in H. specialize (H c2 I2).
  unfold pairAgrees in H.
  destruct (hexDigit c1) as [d1|]; [|discriminate].
  destruct (hexDigit c2) as [d2|]; [|discriminate].
  destruct (parseInt16 [c1; c2]) as [|z]; [discriminate|].
  apply Z.eqb_eq in H. subst z. reflexivity.
Qed.

(** On the text that [Script.fromHex] accepts both readers give the same
    bytes. *)
Lemma hexToBytes_hexToArray hex :
  Nat.even (length hex) = true ->
  forallb (fun c => bool_decide (is_Some (hexDigit c))) hex = true ->
  Server.hexToBytes hex = List.map Int (hexToArray hex).
Proof.
  revert hex. fix IH 1. intros [|c1 [|c2 rest]] He Hd.
  - reflexivity.
  - discriminate He.
  - cbn [forallb] in Hd. apply andb_true_iff in Hd as [H1 Hd].
    apply andb_true_iff in Hd as [H2 Hd].
    apply bool_decide_eq_true in H1, H2.
    cbn [Server.hexToBytes hexToArray List.map].
    rewrite (parseInt16_pair c1 c2 H1 H2), (IH rest He Hd). reflexivity.
Qed.

(** The opcode of every chunk is a byte of the script. *)
Lemma parseChunks_ops n : forall depth bs,
  (length bs <= n)%nat ->
  Forall (fun b => b <> OP_RETURN) bs ->
  Forall (fun c => op c <> OP_RETURN) (parseChunks depth bs).
Proof.
  induction n as [|n IH]; intros depth [|o rest] Hlen H;
    try (rewrite parseChunks_equation_1; constructor);
    cbn [length] in Hlen; [lia|].
  inversion H as [|? ? Ho Hrest]; subst.
  rewrite parseChunks_equation_2.
  rewrite (proj2 (Z.eqb_neq o OP_RETURN)) by exact Ho. cbn [andb]. cbv zeta.
  repeat match goal with
         | |- context [if ?b then _ else _] => destruct b
         end;
    (constructor; [exact Ho|]); apply IH;
    rewrite ?length_drop; try lia; repeat apply Forall_drop; exact Hrest.
Qed.

Lemma afterOpReturn_none chunks :
  Forall (fun c => op c <> OP_RETURN) chunks -> Did.afterOpReturn chunks = None.
Proof.
  induction 1 as [|c chunks Hc _ IH]; [reflexivity|].
  cbn [Did.afterOpReturn]. rewrite (proj2 (Z.eqb_neq _ _)) by exact Hc.
  exact IH.
Qed.

Lemma did_without_op_return hex :
  Forall (fun b => b <> Int 106) (Server.hexToBytes hex) ->
  Did.parseOpReturnSegments hex = [].
Proof.
  intros H. unfold Did.parseOpReturnSegments, Script_fromHex.
  destruct (Nat.even (length hex)) eqn:He; [|reflexivity].
  destruct (forallb _ hex) eqn:Hd; [|reflexivity]. cbn [negb].
  rewrite (hexToBytes_hexToArray hex He Hd) in H.
  rewrite afterOpReturn_none; [reflexivity|].
  apply (parseChunks_ops (length (hexToArray hex))); [lia|].
  apply List.Forall_forall. intros b Hb E. subst b.
  rewrite List.Forall_forall in H. apply (H (Int OP_RETURN)); [|reflexivity].
  apply in_map, Hb.
Qed.

End DecoderFacts.

(* ===================================================================== *)
(** ** The crawl: where the metadata of the result comes from *)
(* ===================================================================== *)

Module CrawlFacts.

Import Chain ChainSpec.

Lemma isoTime_some d u : isoTime d = Some u -> u = truthyNumber (time d).
Proof.
  unfold isoTime. destruct (truthyNumber (time d)) as [t|]; [|congruence].
  destruct (dateInRange t); congruence.
Qed.

Section Crawl.

Context {json : Type}.
Variable JSON_parse : jsstring -> option json.
Variable truthy : json -> bool.
Variable decode : jsstring -> list jsstring.
Variable bounded : bool.
Variable a : api.

(** The document variables after the payload of a transaction: unchanged,
    or set from this transaction. *)
Lemma applyPayload_document st d st2 :
  applyPayload JSON_parse st d (findSegments decode (vouts d)) = inr st2 ->
  currentTxid st2 = currentTxid st /\ st_created st2 = st_created st /\
  ((lastDocument st2 = lastDocument st /\ lastDocTxid st2 = lastDocTxid st /\
    st_updated st2 = st_updated st) \/
   (exists doc,
      documentOf JSON_parse decode d = Some doc /\
      lastDocument st2 = Some doc /\
      lastDocTxid st2 = Some (currentTxid st) /\
      (is_Some (isoTime d) -> st_updated st2 = truthyNumber (time d)))).
Proof.
  unfold applyPayload, documentOf, payloadOf.
  destruct (findSegments decode (vouts d)) as [|s0 [|s1 [|p rest]]];
    try (intros [= <-]; repeat split; left; repeat split).
  destruct (bool_decide (p = lit "3")); [discriminate|]. cbn [orb].
  destruct (bool_decide (p = lit "2"));
    [intros [= <-]; repeat split; left; repeat split|]. cbn [orb].
  destruct (bool_decide (p = lit "1"));
    [intros [= <-]; repeat split; left; repeat split|].
  destruct (JSON_parse p) as [doc|]; intros [= <-].
  - split; [reflexivity|]. split; [reflexivity|]. right. exists doc.
    split; [reflexivity|]. split; [reflexivity|]. split; [reflexivity|].
    cbn [st_updated]. intros [u Hu]. rewrite Hu. apply (isoTime_some d u Hu).
  - repeat split. left. repeat split.
Qed.

(** The result after the loop carries the document variables. *)
Lemma finish_document st :
  error (finish truthy st) = None ->
  deactivated (didDocumentMetadata (finish truthy st)) = false /\
  is_Some (lastDocument st) /\
  didDocument (finish truthy st) = lastDocument st /\
  versionId (didDocumentMetadata (finish truthy st)) = lastDocTxid st /\
  updated (didDocumentMetadata (finish truthy st)) = st_updated st /\
  created (didDocumentMetadata (finish truthy st)) = st_created st.
Proof.
  unfold finish. destruct (lastDocument st) as [doc|].
  - destruct (truthy doc).
    + intros _. repeat split. eexists; reflexivity.
    + destruct (foundIssuance st); discriminate.
  - destruct (foundIssuance st); discriminate.
Qed.

(** A result without error: a deactivated one names the last transaction
    fetched, which carries the revocation marker; any other names the
    transaction from which its document was parsed, or carries the
    document variables of the state from which the crawl started. *)
Lemma crawl_metadata n : forall hop st r trace,
  crawl JSON_parse truthy decode bounded a n hop st = (Returned r, trace) ->
  error r = None ->
  if deactivated (didDocumentMetadata r) then
    exists t d,
      last trace = Some (t, TxOk d) /\
      payloadOf decode d = Some (lit "3") /\
      versionId (didDocumentMetadata r) = Some t
  else
    is_Some (didDocument r) /\
    ((exists t d,
        (t, TxOk d) ∈ trace /\
        documentOf JSON_parse decode d = didDocument r /\
        versionId (didDocumentMetadata r) = Some t /\
        (is_Some (isoTime d) ->
         updated (didDocumentMetadata r) = truthyNumber (time d))) \/
     (didDocument r = lastDocument st /\
      versionId (didDocumentMetadata r) = lastDocTxid st /\
      updated (didDocumentMetadata r) = st_updated st)).
Proof.
  assert (Hfin : forall st r,
            r = finish truthy st -> error r = None ->
            if deactivated (didDocumentMetadata r) then False
            else
              is_Some (didDocument r) /\
              didDocument r = lastDocument st /\
              versionId (didDocumentMetadata r) = lastDocTxid st /\
              updated (didDocumentMetadata r) = st_updated st).
  { intros st r -> He. apply finish_document in He as (-> & Hs & Hd & Hv & Hu & _).
    rewrite Hd. auto. }
  induction n as [|n IH]; intros hop st r trace; cbn [Chain.crawl].
  { destruct bounded; [|discriminate].
    intros [= <- <-] He. specialize (Hfin st _ eq_refl He).
    destruct (deactivated _); [contradiction|]. tauto. }
  destruct (bool_decide _).
  { intros [= <- <-] He. specialize (Hfin st _ eq_refl He).
    destruct (deactivated _); [contradiction|]. tauto. }
  destruct (fetchTx a hop (currentTxid st)) as [| |d] eqn:Ef; [discriminate| |].
  { intros [= <- <-]. discriminate. }
  destruct (setCreated st d) as [created'|]; [|discriminate].
  destruct (applyPayload _ _ _ _) as [r0|st2] eqn:Ha.
  - intros [= <- <-] _. apply ChainFacts.applyPayload_inl in Ha as [Hp ->].
    cbn [didDocumentMetadata deactivated versionId].
    exists (currentTxid st), d. repeat split. exact Hp.
  - apply applyPayload_document in Ha as (Hc & _ & Hdoc).
    cbn [currentTxid lastDocument lastDocTxid st_updated] in Hc, Hdoc.
    assert (Hstep : forall r' : result json,
              (if deactivated (didDocumentMetadata r') then False
               else
                 is_Some (didDocument r') /\
                 didDocument r' = lastDocument st2 /\
                 versionId (didDocumentMetadata r') = lastDocTxid st2 /\
                 updated (didDocumentMetadata r') = st_updated st2) ->
              forall rest,
              if deactivated (didDocumentMetadata r') then False
              else
                is_Some (didDocument r') /\
                ((exists t d0,
                    (t, TxOk d0) ∈ (currentTxid st, TxOk d) :: rest /\
                    documentOf JSON_parse decode d0 = didDocument r' /\
                    versionId (didDocumentMetadata r') = Some t /\
                    (is_Some (isoTime d0) ->
                     updated (didDocumentMetadata r')
                     = truthyNumber (time d0))) \/
                 (didDocument r' = lastDocument st /\
                  versionId (didDocumentMetadata r') = lastDocTxid st /\
                  updated (didDocumentMetadata r') = st_updated st))).
    { intros r' H rest. destruct (deactivated _); [exact H|].
      destruct H as (Hsome & Hd & Hv & Hu). split; [exact Hsome|].
      destruct Hdoc as [(E1 & E2 & E3)|(doc & E0 & E1 & E2 & E3)].
      - right. rewrite Hd, Hv, Hu. auto.
      - left. exists (currentTxid st), d. split; [apply elem_of_cons; auto|].
        rewrite Hd, Hv, Hu, E0, E1, E2. auto. }
    destruct (nextHop _ _ _ _ _) as [next|].
    + match goal with |- context [Chain.crawl _ _ _ _ _ n ?h ?s] =>
        specialize (IH h s);
        destruct (Chain.crawl JSON_parse truthy decode bounded a n h s)
          as [o tr] eqn:Ec
      end.
      intros [= -> <-] He. specialize (IH r tr eq_refl He).
      cbn [lastDocument lastDocTxid st_updated] in IH.
      destruct (deactivated (didDocumentMetadata r)) eqn:Ed.
      * destruct IH as (t & d0 & Hl & Hp & Hv). exists t, d0.
        split; [|auto]. destruct tr as [|e tr]; [discriminate Hl|].
        exact Hl.
      * destruct IH as [Hsome [(t & d0 & Hin & H1 & H2 & H3)|(H1 & H2 & H3)]].
        -- split; [exact Hsome|]. left. exists t, d0.
           split; [apply elem_of_cons; auto|auto].
        -- specialize (Hstep r). rewrite Ed in Hstep. apply Hstep. auto.
    + intros [= <- <-] He. specialize (Hfin st2 _ eq_refl He).
      specialize (Hstep (finish truthy st2)).
      destruct (deactivated (didDocumentMetadata (finish truthy st2)));
        [contradiction|].
      apply Hstep. exact Hfin.
Qed.

Lemma findSegments_cons v rest h :
  truthyString (hex v) = Some h ->
  findSegments decode (v :: rest)
  = if bool_decide (3 <= length (decode h))%nat
       && bool_decide (decode h !! 0%nat = Some BSVDID_MARKER)
    then decode h
    else findSegments decode rest.
Proof. intros H. cbn [findSegments]. rewrite H. reflexivity. Qed.

(** The scan of the outputs of the sample chains. *)
Lemma findSegments_sample h segs :
  decode (lit "76a914") = [] -> decode h = segs -> h <> [] ->
  findSegments decode
    [Vout (Some (lit "76a914")) (Some (lit "1ChainKeyAddress"));
     Vout (Some h) None]
  = if bool_decide (3 <= length segs)%nat
       && bool_decide (segs !! 0%nat = Some BSVDID_MARKER)
    then segs
    else [].
Proof.
  intros D0 D1 N1.
  assert (T1 : truthyString (Some h) = Some h)
    by (destruct h; [exfalso; apply N1; reflexivity|reflexivity]).
  rewrite (findSegments_cons _ _ (lit "76a914")) by reflexivity.
  rewrite D0. cbn [length bool_decide andb].
  rewrite (findSegments_cons _ _ h) by exact T1.
  rewrite D1. reflexivity.
Qed.

(** A chain of two transactions: an issuance, then a document. *)
Lemma crawl_two_steps n h1 h2 txid ic doc j :
  decode (lit "76a914") = [] ->
  decode h1 = [BSVDID_MARKER; ic; lit "1"] ->
  decode h2 = [BSVDID_MARKER; ic; doc] ->
  h1 <> [] -> h2 <> [] ->
  doc <> lit "1" -> doc <> lit "2" -> doc <> lit "3" ->
  JSON_parse doc = Some j -> truthy j = true ->
  txid <> lit "ff" ->
  fst (crawl JSON_parse truthy decode bounded (twoStepApi h1 h2) (S (S n)) 0
         (initial txid))
  = Returned
      (Result (Some j)
         (Metadata (Some 1700000000) (Some 1700000000) false (Some (lit "ff")))
         None).
Proof.
  intros D0 D1 D2 N1 N2 P1 P2 P3 Hj Ht Hx.
  pose proof (findSegments_sample h1 _ D0 D1 N1) as F1.
  pose proof (findSegments_sample h2 _ D0 D2 N2) as F2.
  cbn [length bool_decide andb] in F1, F2.
  change (([BSVDID_MARKER; ic; lit "1"] : list jsstring) !! 0%nat)
    with (Some BSVDID_MARKER) in F1.
  change (([BSVDID_MARKER; ic; doc] : list jsstring) !! 0%nat)
    with (Some BSVDID_MARKER) in F2.
  rewrite bool_decide_eq_true_2 in F1 by lia.
  rewrite bool_decide_eq_true_2 in F1 by reflexivity.
  rewrite bool_decide_eq_true_2 in F2 by lia.
  rewrite bool_decide_eq_true_2 in F2 by reflexivity.
  cbn [andb] in F1, F2.
  assert (V2 : lit "ff" ∉ (∅ : gset jsstring) ∪ {[ txid ]}).
  { rewrite elem_of_union, elem_of_singleton.
    intros [E|E]; [exact (not_elem_of_empty _ E)|]. apply Hx. symmetry. exact E. }
  assert (Ti : forall h,
            isoTime
              (TxData (Some 1700000000)
                 [Vout (Some (lit "76a914")) (Some (lit "1ChainKeyAddress"));
                  Vout (Some h) None])
            = Some (Some 1700000000)) by reflexivity.
  cbn [Chain.crawl initial currentTxid visited].
  rewrite bool_decide_eq_false_2 by apply not_elem_of_empty.
  cbn [fetchTx twoStepApi vouts]. unfold setCreated at 1.
  cbn [st_created]. rewrite Ti, F1.
  cbn [applyPayload].
  rewrite (bool_decide_eq_false_2 (lit "1" = lit "3")) by discriminate.
  rewrite (bool_decide_eq_false_2 (lit "1" = lit "2")) by discriminate.
  rewrite (bool_decide_eq_true_2 (lit "1" = lit "1")) by reflexivity.
  cbn [currentTxid lastDocument lastDocTxid st_created st_updated foundIssuance
       visited].
  unfold nextHop at 1. cbn [fetchSpend twoStepApi].
  change (truthyString (Some (lit "ff"))) with (Some (lit "ff")).
  destruct n as [|n].
  - cbn [Chain.crawl currentTxid visited].
    rewrite bool_decide_eq_false_2 by exact V2.
    cbn [fetchTx twoStepApi vouts]. unfold setCreated. cbn [st_created].
    rewrite F2. cbn [applyPayload].
    rewrite (bool_decide_eq_false_2 (doc = lit "3")) by exact P3.
    rewrite (bool_decide_eq_false_2 (doc = lit "2")) by exact P2.
    rewrite (bool_decide_eq_false_2 (doc = lit "1")) by exact P1.
    rewrite Hj, Ti. unfold nextHop. cbn [fetchSpend fetchHistory twoStepApi].
    cbn [truthyString head vouts mbind option_bind address0].
    change (truthyString (Some (lit "1ChainKeyAddress")))
      with (Some (lit "1ChainKeyAddress")).
    cbn [fst]. unfold finish. cbn [lastDocument]. rewrite Ht. reflexivity.
  - cbn [Chain.crawl currentTxid visited].
    rewrite bool_decide_eq_false_2 by exact V2.
    cbn [fetchTx twoStepApi vouts]. unfold setCreated. cbn [st_created].
    rewrite F2. cbn [applyPayload].
    rewrite (bool_decide_eq_false_2 (doc = lit "3")) by exact P3.
    rewrite (bool_decide_eq_false_2 (doc = lit "2")) by exact P2.
    rewrite (bool_decide_eq_false_2 (doc = lit "1")) by exact P1.
    rewrite Hj, Ti. unfold nextHop. cbn [fetchSpend fetchHistory twoStepApi].
    cbn [truthyString head vouts mbind option_bind address0].
    change (truthyString (Some (lit "1ChainKeyAddress")))
      with (Some (lit "1ChainKeyAddress")).
    cbn [fst]. unfold finish. cbn [lastDocument]. rewrite Ht. reflexivity.
Qed.

(** The same chain when the decoder reads nothing from its scripts: no
    marker is seen, and the result is ['notFound']. *)
Lemma crawl_two_steps_blind n h1 h2 txid :
  decode (lit "76a914") = [] -> decode h1 = [] -> decode h2 = [] ->
  h1 <> [] -> h2 <> [] ->
  txid <> lit "ff" ->
  fst (crawl JSON_parse truthy decode bounded (twoStepApi h1 h2) (S (S n)) 0
         (initial txid))
  = Returned notFound.
Proof.
  intros D0 D1 D2 N1 N2 Hx.
  pose proof (findSegments_sample h1 _ D0 D1 N1) as F1.
  pose proof (findSegments_sample h2 _ D0 D2 N2) as F2.
  assert (E : forall b : bool, (if b then [] else []) = ([] : list jsstring))
    by (intros []; reflexivity).
  rewrite E in F1, F2. clear E.
  assert (V2 : lit "ff" ∉ (∅ : gset jsstring) ∪ {[ txid ]}).
  { rewrite elem_of_union, elem_of_singleton.
    intros [E|E]; [exact (not_elem_of_empty _ E)|]. apply Hx. symmetry. exact E. }
  cbn [Chain.crawl initial currentTxid visited].
  rewrite bool_decide_eq_false_2 by apply not_elem_of_empty.
  cbn [fetchTx twoStepApi vouts]. unfold setCreated at 1.
  cbn [st_created].
  change (isoTime _) with (Some (Some 1700000000)) at 1. cbv iota.
  rewrite F1. cbn [applyPayload].
  cbn [currentTxid lastDocument lastDocTxid st_created st_updated foundIssuance
       visited].
  unfold nextHop at 1. cbn [fetchSpend twoStepApi].
  change (truthyString (Some (lit "ff"))) with (Some (lit "ff")).
  destruct n as [|n].
  - cbn [Chain.crawl currentTxid visited].
    rewrite bool_decide_eq_false_2 by exact V2.
    cbn [fetchTx twoStepApi vouts]. unfold setCreated. cbn [st_created].
    rewrite F2. cbn [applyPayload]. unfold nextHop.
    cbn [fetchSpend fetchHistory twoStepApi].
    cbn [truthyString head vouts mbind option_bind address0].
    change (truthyString (Some (lit "1ChainKeyAddress")))
      with (Some (lit "1ChainKeyAddress")).
    reflexivity.
  - cbn [Chain.crawl currentTxid visited].
    rewrite bool_decide_eq_false_2 by exact V2.
    cbn [fetchTx twoStepApi vouts]. unfold setCreated. cbn [st_created].
    rewrite F2. cbn [applyPayload]. unfold nextHop.
    cbn [fetchSpend fetchHistory twoStepApi].
    cbn [truthyString head vouts mbind option_bind address0].
    change (truthyString (Some (lit "1ChainKeyAddress")))
      with (Some (lit "1ChainKeyAddress")).
    reflexivity.
Qed.

End Crawl.

(** *** The choice of the next transaction *)

Lemma insertByHeight_head e sorted :
  head (insertByHeight e sorted)
  = match head sorted with
    | Some x => if height x <=? height e then Some e else Some x
    | None => Some e
    end.
Proof.
  destruct sorted as [|x rest]; [reflexivity|]. cbn [insertByHeight head].
  destruct (height x <=? height e); reflexivity.
Qed.

(** The first entry after the sort is an entry of greatest height. *)
Lemma sortByHeight_head l :
  match head (sortByHeight l) with
  | Some e => In e l /\ Forall (fun e' => height e' <= height e) l
  | None => l = []
  end.
Proof.
  induction l as [|x l IH]; [reflexivity|].
  change (sortByHeight (x :: l)) with (insertByHeight x (sortByHeight l)).
  rewrite insertByHeight_head.
  destruct (head (sortByHeight l)) as [h|].
  - destruct IH as [Hin Hall].
    destruct (height h <=? height x) eqn:E.
    + apply Z.leb_le in E. split; [left; reflexivity|].
      constructor; [lia|]. eapply Forall_impl; [exact Hall|].
      intros e' He'. cbv beta in He'. lia.
    + apply Z.leb_gt in E. split; [right; exact Hin|].
      constructor; [lia|exact Hall].
  - subst l. split; [left; reflexivity|]. constructor; [lia|constructor].
Qed.

(** *** The scripts that the module publishes *)

Import Sdk CodecSpec.

(** The script of [buildOpReturn]: the decoder of the module reads
    nothing from it, the decoder of the server reads it back. *)
Lemma opReturn_decodes capacity identityCode payload :
  printable identityCode -> printable payload ->
  identityCode <> [] -> payload <> [] ->
  Z.of_nat (length identityCode) < 2 ^ 31 ->
  Z.of_nat (length payload) < 2 ^ 31 ->
  (length identityCode + length payload + 19 <= capacity)%nat ->
  exists script,
    Did.buildOpReturn identityCode payload = Some script /\
    Script_toHex script <> [] /\
    Did.parseOpReturnSegments (Script_toHex script) = [] /\
    Server.decode capacity (Script_toHex script)
    = [Did.BSVDID_MARKER; identityCode; payload].
Proof.
  intros Hc Hp Hcne Hpne Hcl Hpl Hcap.
  pose proof CodecFacts.printable_lit_marker as Hm.
  assert (Hdc : okData (utf8ToArray identityCode)).
  { rewrite (CodecFacts.utf8ToArray_printable _ Hc).
    apply CodecFacts.printable_okData; assumption. }
  assert (Hdp : okData (utf8ToArray payload)).
  { rewrite (CodecFacts.utf8ToArray_printable _ Hp).
    apply CodecFacts.printable_okData; assumption. }
  eexists. split; [apply (CodecFacts.buildOpReturn_chunks _ _ Hdc Hdp)|].
  rewrite !CodecFacts.utf8ToArray_printable in * by assumption.
  assert (Hds : Forall okData [Did.BSVDID_MARKER; identityCode; payload]).
  { assert (Hdm : okData Did.BSVDID_MARKER)
      by (apply CodecFacts.printable_okData; [exact Hm|discriminate|cbn; lia]).
    constructor; [exact Hdm|]. constructor; [exact Hdc|].
    constructor; [exact Hdp|]. constructor. }
  assert (Hpre : Forall plainOp [OP_FALSE])
    by (constructor; [apply CodecFacts.plainOp_false|constructor]).
  assert (Hbin : Script_toHex
                   [Chunk OP_FALSE None; Chunk OP_RETURN None;
                    pushChunk Did.BSVDID_MARKER;
                    pushChunk identityCode; pushChunk payload]
                 = toHex (carrierScript [OP_FALSE]
                            [Did.BSVDID_MARKER; identityCode; payload])).
  { unfold Script_toHex, toBinary, carrierScript.
    cbn [flat_map app]. rewrite !app_nil_r.
    change (chunkBytes (Chunk OP_FALSE None)) with [OP_FALSE].
    change (chunkBytes (Chunk OP_RETURN None)) with [OP_RETURN].
    reflexivity. }
  rewrite Hbin.
  pose proof (CodecFacts.length_built_script _ _ Hc Hp Hcne Hpne Hcl Hpl) as Hlen.
  pose proof (CodecFacts.did_misses_carrier _ _ Hpre Hds eq_refl) as Hdid.
  pose proof (CodecFacts.server_decodes_carrier capacity _ _ Hpre Hds) as Hsrv.
  cbn [List.map length] in Hsrv.
  rewrite !CodecFacts.TextDecoder_printable in Hsrv by assumption.
  split; [discriminate|]. split; [exact Hdid|]. apply Hsrv. lia.
Qed.

End CrawlFacts.
(* ===================================================================== *)
(** ** The codec: round trip, totality, agreement of the two decoders *)
(* ===================================================================== *)

(** C1.  The decoder of [modules/did.ts] does not read back what
    [buildOpReturn] writes.  For every [identityCode] and [payload],
    printable or not, empty or not, the script starts with [OP_FALSE
    OP_RETURN]; [Script.fromHex] stores all that follows an [OP_RETURN]
    outside of a conditional block as the data of the [OP_RETURN] chunk,
    and the scan of [parseOpReturnSegments] starts after that chunk, where
    there is nothing: the result is the empty list, not
    [[BSVDID_MARKER; identityCode; payload]]. *)
Theorem module_decoder_misses_own_scripts (identityCode payload : jsstring)
    (script : Sdk.Script) :
  Did.buildOpReturn identityCode payload = Some script ->
  Did.parseOpReturnSegments (Sdk.Script_toHex script) = [] /\
  Did.parseOpReturnSegments (Sdk.Script_toHex script)
    <> [Did.BSVDID_MARKER; identityCode; payload].
Proof.
  intros H. apply CodecFacts.buildOpReturn_hex in H as [rest ->].
  rewrite CodecFacts.did_misses_top_level. split; [reflexivity|discriminate].
Qed.

(** The failing input of C1: the identity code ["ab"] and the payload
    ["1"].  The script is [00 6a 06 "BSVDID" 02 "ab" 01 "1"]; the decoder
    of the module returns nothing, the decoder of the server the three
    segments. *)
Lemma module_decoder_misses_own_scripts_witness :
  exists script,
    Did.buildOpReturn (lit "ab") (lit "1") = Some script /\
    Sdk.Script_toHex script = lit "006a06425356444944026162013" ++ lit "1" /\
    Sdk.Script_fromHex (Sdk.Script_toHex script)
    = Some [Sdk.Chunk 0 None;
            Sdk.Chunk 106
              (Some [6; 66; 83; 86; 68; 73; 68; 2; 97; 98; 1; 49])] /\
    Did.parseOpReturnSegments (Sdk.Script_toHex script) = [] /\
    Did.parseOpReturnSegments (Sdk.Script_toHex script)
      <> [Did.BSVDID_MARKER; lit "ab"; lit "1"] /\
    Server.decode Server.arrayLimit (Sdk.Script_toHex script)
    = [Did.BSVDID_MARKER; lit "ab"; lit "1"].
Proof.
  eexists. split; [reflexivity|]. split; [reflexivity|].
  split; [vm_compute; reflexivity|].
  split; [|split].
  - apply (module_decoder_misses_own_scripts (lit "ab") (lit "1")). reflexivity.
  - apply (module_decoder_misses_own_scripts (lit "ab") (lit "1")). reflexivity.
  - at_array_limit. vm_compute. reflexivity.
Defined.

(** C7.  Both decoders return a list for every input.  The second loop of
    the decoder of [server/did-resolver.ts] pushes one segment in every
    iteration that it does not leave, so it makes at most [capacity + 1]
    iterations: the [push] on a full array throws, and the [catch] returns
    the empty list.  With that much fuel the model gives the list,
    whatever the script.  On the script [6a 4e fb ff ff ff], whose
    four-byte length is the signed integer -5, the cursor goes back to the
    [4e] opcode in every iteration and the call returns the empty list
    only once the array is full.  The decoder of [modules/did.ts] runs two
    loops over the chunks that the SDK parsed, inside [try]: it is a total
    function of the model, which returns the empty list when
    [Script.fromHex] throws. *)
Theorem decoders_always_return (capacity : nat) (hexScript : jsstring) :
  (exists segs,
     Server.returns capacity hexScript segs /\
     Server.decode capacity hexScript = segs /\
     forall fuel, (capacity < fuel)%nat ->
       Server.parseOpReturnSegments fuel capacity hexScript = Some segs) /\
  (forall fuel,
     Server.parseOpReturnSegments fuel capacity CodecSpec.stuck_script
     = if (6 <=? capacity)%nat && (fuel <=? capacity)%nat then None
       else Some []) /\
  (Sdk.Script_fromHex hexScript = None ->
   Did.parseOpReturnSegments hexScript = []).
Proof.
  split; [|split].
  - exists (Server.decode capacity hexScript).
    split; [exists (S capacity); apply CodecFacts.decode_spec; lia|].
    split; [reflexivity|]. intros fuel Hf. apply CodecFacts.decode_spec, Hf.
  - intros fuel. apply CodecFacts.stuck_parse.
  - intros H. unfold Did.parseOpReturnSegments. rewrite H. reflexivity.
Qed.

(** C9, as amended.  The two decoders return the same list on a script
    without a byte [0x6a] (the empty list), and on a data-carrier script
    whose [OP_RETURN] is inside a conditional block: opcodes that are
    neither pushes nor [OP_RETURN] and leave the counter of conditional
    blocks off 0, then [OP_RETURN], then only pushes of data that is not
    empty and shorter than 2^31 bytes, the script no longer than an array
    holds. *)
Theorem decoders_agree_off_top_level (capacity : nat) (hex : jsstring) :
  (Forall (fun b => b <> Int 106) (Server.hexToBytes hex) \/
   exists prefix ds,
     hex = Sdk.toHex (CodecSpec.carrierScript prefix ds) /\
     Forall CodecSpec.plainOp prefix /\ CodecSpec.depthAfter prefix <> 0 /\
     Forall CodecSpec.okData ds /\
     (length (CodecSpec.carrierScript prefix ds) <= capacity)%nat) ->
  Server.returns capacity hex (Did.parseOpReturnSegments hex) /\
  Server.decode capacity hex = Did.parseOpReturnSegments hex.
Proof.
  intros [H|(prefix & ds & -> & Hp & Hd & Hds & Hcap)].
  - rewrite (DecoderFacts.did_without_op_return hex H).
    split; [exists 0%nat; apply DecoderFacts.no_op_return, H|].
    apply DecoderFacts.decode_no_op_return, H.
  - rewrite (CodecFacts.did_decodes_carrier _ _ Hp Hds Hd).
    split; [eexists; apply (CodecFacts.server_reads_carrier _ _ _ Hp Hds Hcap)|].
    apply (CodecFacts.server_decodes_carrier _ _ _ Hp Hds Hcap).
Qed.

(** The script [76 a9 14 88 ac] has no byte [0x6a]; the script
    [63 6a 02 "BS" 01 "1"] has its [OP_RETURN] after [OP_IF]. *)
Lemma decoders_agree_off_top_level_witness :
  (Did.parseOpReturnSegments (lit "76a91488ac") = [] /\
   Server.decode Server.arrayLimit (lit "76a91488ac")
   = Did.parseOpReturnSegments (lit "76a91488ac")) /\
  (Did.parseOpReturnSegments (lit "636a0242530131") = [lit "BS"; lit "1"] /\
   Server.decode Server.arrayLimit (lit "636a0242530131")
   = Did.parseOpReturnSegments (lit "636a0242530131")).
Proof.
  split.
  - split; [reflexivity|].
    apply (decoders_agree_off_top_level Server.arrayLimit (lit "76a91488ac")).
    left. vm_compute. repeat constructor; discriminate.
  - split; [vm_compute; reflexivity|].
    apply (decoders_agree_off_top_level Server.arrayLimit
             (lit "636a0242530131")).
    right. exists [99], [[66; 83]; [49]].
    split; [reflexivity|]. split.
    + repeat constructor; unfold CodecSpec.isByte, Sdk.OP_RETURN; lia.
    + split; [discriminate|]. split.
      * repeat constructor; try discriminate; cbn; unfold CodecSpec.isByte; lia.
      * transitivity 256%nat; [vm_compute; lia|].
        rewrite CodecFacts.arrayLimit_split. lia.
Defined.

(** C9, as stated, fails on the script [01 6a 01 41]: the byte [6a] is the
    data of a one-byte push, so the script has no [OP_RETURN] chunk and the
    decoder of [modules/did.ts] returns nothing, while the byte scan of
    [server/did-resolver.ts] takes it for [OP_RETURN] and returns ["A"]. *)
Lemma decoders_differ_on_pushed_6a :
  Did.parseOpReturnSegments (lit "016a0141") = [] /\
  Server.returns Server.arrayLimit (lit "016a0141") [lit "A"] /\
  Server.decode Server.arrayLimit (lit "016a0141") = [lit "A"] /\
  Server.decode Server.arrayLimit (lit "016a0141")
    <> Did.parseOpReturnSegments (lit "016a0141").
Proof.
  assert (Hd : Did.parseOpReturnSegments (lit "016a0141") = [])
    by (vm_compute; reflexivity).
  assert (Hs : Server.returns Server.arrayLimit (lit "016a0141") [lit "A"]).
  { exists 2%nat. at_array_limit. vm_compute. reflexivity. }
  destruct Hs as [fuel Hs].
  pose proof (CodecFacts.decode_returns _ _ _ _ Hs) as He.
  split; [exact Hd|]. split; [exists fuel; exact Hs|]. split; [exact He|].
  rewrite He, Hd. discriminate.
Qed.

(* ===================================================================== *)
(** ** The resolution handler *)
(* ===================================================================== *)

Section Handler.

Context {json : Type}.

Import Chain ServerResolver.

(** C8, as amended.  For every [GET] request: when the [did] parameter is
    absent or empty the response is 400 and the resolver is not consulted;
    otherwise the body is the result of the resolver, with status 404 when
    its error is ['notFound'], 502 when it is ['internalError'], and 200 in
    every other case (['notYetAvailable'] and deactivated results
    included); when the resolver throws, the response is 502 with an
    ['internalError'] body. *)
Theorem handler_status_mapping (resolve : jsstring -> @outcome json)
    (did : option jsstring) :
  ((did = None \/ did = Some []) ->
     GET resolve did = Some (JsonResponse MissingParameter 400)) /\
  (forall d, did = Some d -> d <> [] ->
     (forall r, resolve d = Returned r ->
        exists status,
          GET resolve did = Some (JsonResponse (ResolutionBody r) status) /\
          (error r = Some (lit "notFound") -> status = 404) /\
          (error r = Some (lit "internalError") -> status = 502) /\
          (error r <> Some (lit "notFound") ->
           error r <> Some (lit "internalError") -> status = 200)) /\
     (resolve d = Threw ->
        GET resolve did
        = Some (JsonResponse (ResolutionBody internalError) 502) /\
        error (@internalError json) = Some (lit "internalError"))).
Proof.
  split.
  - intros [-> | ->]; reflexivity.
  - intros d -> Hd. unfold GET.
    assert (Ht : truthyString (Some d) = Some d) by (destruct d; [congruence|reflexivity]).
    rewrite Ht. split.
    + intros r ->. eexists. split; [reflexivity|].
      repeat split.
      * intros E. rewrite bool_decide_eq_true_2 by exact E. reflexivity.
      * intros E. rewrite bool_decide_eq_false_2 by (rewrite E; discriminate).
        rewrite bool_decide_eq_true_2 by exact E. reflexivity.
      * intros N1 N2. rewrite bool_decide_eq_false_2 by exact N1.
        rewrite bool_decide_eq_false_2 by exact N2. reflexivity.
    + intros ->. split; reflexivity.
Qed.

End Handler.

(** C8, as stated, fails on a request whose [did] parameter is present but
    empty ([?did=]): the parameter is not absent, the resolver would
    return a result without error, and the handler still answers 400
    without consulting it. *)
Lemma handler_empty_did_is_400 :
  let resolve := fun _ : jsstring =>
    Chain.Returned (Chain.Result (Some tt) Chain.noMetadata None) in
  ServerResolver.GET resolve (Some (lit ""))
    = Some (ServerResolver.JsonResponse ServerResolver.MissingParameter 400) /\
  ServerResolver.GET resolve (Some (lit ""))
    <> Some (ServerResolver.JsonResponse
               (ServerResolver.ResolutionBody
                  (Chain.Result (Some tt) Chain.noMetadata None)) 200).
Proof. split; [reflexivity|discriminate]. Qed.

(* ===================================================================== *)
(** ** The DID methods: update, deactivation, local resolution *)
(* ===================================================================== *)

Section EngineClaims.

Import Engine EngineSpec.

Context {jwk : Type}.
Variable pubKeyToJwk : jsstring -> option jwk.
Variable validPrivateKey : jsstring -> bool.

(** C10.  When [updateDID] succeeds, the [txid] of its result is the
    [issuanceTxid] stored in the metadata of the active chain tip that the
    scan found, a well-formed txid; the id under which the wallet accepted
    the update transaction does not appear in the result: any other id
    gives the same result. *)
Theorem update_returns_issuance_txid (answer : spendAnswer)
    (options : DIDUpdateOptions) (w w' : wallet) (r : DIDCreateResult) :
  updateDID pubKeyToJwk validPrivateKey answer options w = (Ok r, w') ->
  exists ci tip spendTxid,
    scanActive (upd_did options) (listOutputs w didBasket) = Some (ci, tip) /\
    answer = SpendOk spendTxid /\
    res_txid r = ci_issuanceTxid ci /\
    is_Some (fromTxid (res_txid r)) /\
    forall other, exists w'',
      updateDID pubKeyToJwk validPrivateKey (SpendOk other) options w = (Ok r, w'').
Proof.
  unfold updateDID. intros H.
  destruct (parse (upd_did options)); [|discriminate].
  destruct (scanActive _ _) as [[ci tip]|]; [|discriminate].
  destruct (Chain.truthyString (ci_chainKeyHex ci)) as [key|]; [|discriminate].
  destruct (validPrivateKey key) eqn:Hkey; [|discriminate]. cbn [negb] in *.
  destruct (fromTxid (ci_issuanceTxid ci)) as [did|] eqn:Hdid; [|discriminate].
  destruct (buildDocument _ _ _ _ _ ≫= _) as [doc|]; [|discriminate].
  unfold spendChainOutput in *. rewrite Hkey in *. cbn [negb] in *.
  destruct answer as [t| | |]; try discriminate.
  injection H as <- <-.
  exists ci, tip, t. cbn [res_txid]. rewrite Hdid.
  repeat split; eauto.
Qed.

(** C6.  Take a DID produced by a successful [createDID] (its txid new:
    no output of the basket names the DID yet), then any sequence of calls
    of the three methods, for this DID or others, succeeding or not
    (transaction ids do not repeat).  Every [updateDID] for the DID that
    succeeds afterwards returns the [did], the [identityCode] and the
    [txid] that [createDID] returned; the document is the field that
    varies. *)
Theorem update_preserves_identifier (env0 : createEnv)
    (options0 : DIDCreateOptions) (w0 w1 w' : wallet) (r0 r : DIDCreateResult)
    (ops : list op) (answer : spendAnswer)
    (options : DIDUpdateOptions) :
  createDID pubKeyToJwk validPrivateKey env0 options0 w0 = (Ok r0, w1) ->
  unknownDid (res_did r0) w0 ->
  (forall txid, res_txid r0 = Some txid -> Forall (avoids txid) ops) ->
  upd_did options = res_did r0 ->
  updateDID pubKeyToJwk validPrivateKey answer options
    (runAll pubKeyToJwk validPrivateKey ops w1) = (Ok r, w') ->
  res_did r = res_did r0 /\
  res_identityCode r = res_identityCode r0 /\
  res_txid r = res_txid r0.
Proof.
  intros Hcreate Hnew Hops Hdid Hupd.
  destruct (EngineFacts.create_establishes _ _ _ _ _ _ _ Hcreate Hnew)
    as (ic & txid & Hic & Htx & Hd & _ & Hinv).
  pose proof (EngineFacts.runAll_chainTip pubKeyToJwk validPrivateKey
                _ ic txid ops w1 Hd (Hops _ Htx) Hinv) as Hinv'.
  destruct (EngineFacts.update_under_chainTip _ _ _ _ _ _ _ _ _ _ Hinv' Hdid Hupd)
    as (H1 & H2 & H3).
  rewrite Hic, Htx. auto.
Qed.

(** C5.  Take a DID produced by a successful [createDID], any calls after
    it, then a [deactivateDID] for the DID that succeeds, then any further
    calls (transaction ids do not repeat).  From then on the basket holds
    no output with status [active] for the DID, the scan for the active
    tip finds nothing, and every [updateDID] and [deactivateDID] for the
    DID fails with the error "No active chain state found" and leaves the
    wallet as it is. *)
Theorem deactivation_is_terminal (env0 : createEnv)
    (options0 : DIDCreateOptions) (w0 w1 w3 : wallet) (r0 : DIDCreateResult)
    (ops1 ops2 : list op) (answer0 : spendAnswer)
    (trackingOk0 : bool) (t : jsstring) :
  createDID pubKeyToJwk validPrivateKey env0 options0 w0 = (Ok r0, w1) ->
  unknownDid (res_did r0) w0 ->
  (forall txid, res_txid r0 = Some txid -> Forall (avoids txid) (ops1 ++ ops2)) ->
  deactivateDID validPrivateKey answer0 trackingOk0 (res_did r0)
    (runAll pubKeyToJwk validPrivateKey ops1 w1) = (Ok t, w3) ->
  let w4 := runAll pubKeyToJwk validPrivateKey ops2 w3 in
  activeTips (res_did r0) w4 = [] /\
  scanActive (res_did r0) (listOutputs w4 didBasket) = None /\
  (forall answer options,
     upd_did options = res_did r0 ->
     updateDID pubKeyToJwk validPrivateKey answer options w4
     = (Err (NoActiveChainState (res_did r0)), w4)) /\
  (forall answer trackingOk,
     deactivateDID validPrivateKey answer trackingOk (res_did r0) w4
     = (Err (NoActiveChainState (res_did r0)), w4)).
Proof.
  intros Hcreate Hnew Hops Hdeact w4.
  destruct (EngineFacts.create_establishes _ _ _ _ _ _ _ Hcreate Hnew)
    as (ic & txid & Hic & Htx & Hd & Hparse & Hinv).
  specialize (Hops _ Htx). apply Forall_app in Hops as [Hops1 Hops2].
  pose proof (EngineFacts.runAll_chainTip pubKeyToJwk validPrivateKey
                _ ic txid ops1 w1 Hd Hops1 Hinv) as Hinv1.
  pose proof (EngineFacts.deactivate_kills _ _ _ _ _ _ _ _ _ Hinv1 Hdeact) as Hdead.
  assert (Hdead4 : noActiveTip (res_did r0) w4).
  { subst w4. rewrite Hd in *.
    apply EngineFacts.runAll_noActiveTip; assumption. }
  assert (Hp : parse (res_did r0) <> None) by congruence.
  split; [exact Hdead4|].
  split; [apply EngineFacts.scanActive_none, Hdead4|].
  split.
  - intros answer options Hu.
    apply EngineFacts.dead_update_fails; assumption.
  - intros answer trackingOk.
    apply EngineFacts.dead_deactivate_fails; assumption.
Qed.

Section Resolution.

Context {json : Type}.
Variable JSON_parse : jsstring -> option json.
Variable truthy : json -> bool.

(** The scan of [_resolveFromBasket] keeps the last output that names the
    DID. *)
Lemma latestFor_last didString outputs :
  latestFor didString outputs
  = last (omap metadataOf (List.filter (namesDid didString) outputs)).
Proof.
  unfold latestFor.
  rewrite <- (app_nil_l outputs) at 2.
  change (@None chainCI) with (last (omap metadataOf (List.filter (namesDid didString) []))).
  generalize (@nil output) as done.
  induction outputs as [|o outputs IH]; intros done.
  - rewrite app_nil_r. reflexivity.
  - cbn [fold_left].
    replace (done ++ o :: outputs) with ((done ++ [o]) ++ outputs)
      by (rewrite <- app_assoc; reflexivity).
    rewrite <- IH. f_equal.
    rewrite List.filter_app, omap_app, last_app.
    cbn [List.filter]. unfold namesDid, metadataOf.
    destruct (customInstructions o) as [| |ci] eqn:Eo; cbn; try reflexivity;
      try (rewrite Eo; reflexivity).
    destruct (bool_decide (ci_did ci = Some didString)); cbn; [|reflexivity].
    rewrite Eo. reflexivity.
Qed.

(** C4, as amended.  For a txid-based DID whose latest metadata in the
    basket (the last output that parses and names the DID) lets the
    document be rebuilt -- it is deactivated, or it carries a subject key
    and an issuance txid, and the document builds -- [resolveDID] returns
    the result of [_resolveFromBasket] and makes no call other than the
    listing of the basket: no proxy, no resolver, no chain API. *)
Theorem local_state_short_circuits (env : resolveEnv) (w : wallet)
    (didString identifier : jsstring) (latestCI : chainCI) :
  parse didString = Some identifier ->
  length identifier <> 66%nat ->
  basketReadable env = true ->
  latestFor didString (listOutputs w didBasket) = Some latestCI ->
  reconstructs pubKeyToJwk didString latestCI ->
  exists r,
    _resolveFromBasket pubKeyToJwk w didString = Some (Some r) /\
    resolveDID pubKeyToJwk JSON_parse truthy env w didString
    = (Some (mapDocument Built r), [CallListOutputs]).
Proof.
  intros Hparse Hlen Hread Hlatest Hrec.
  assert (Hlocal : exists r, _resolveFromBasket pubKeyToJwk w didString = Some (Some r)).
  { unfold _resolveFromBasket. rewrite Hlatest.
    unfold reconstructs in Hrec.
    destruct (bool_decide (ci_status latestCI = Some (lit "deactivated"))).
    - destruct (Chain.truthyString (ci_subjectKey latestCI)) as [key|] eqn:Hk.
      + destruct Hrec as [Hrec|[doc Hdoc]]; [discriminate|].
        assert (Hkey : ci_subjectKey latestCI = Some key).
        { destruct (ci_subjectKey latestCI) as [[|c k]|]; simpl in Hk; congruence. }
        rewrite Hkey in Hdoc. rewrite Hdoc. eexists. reflexivity.
      + eexists. reflexivity.
    - destruct Hrec as (Hk & Ht & [doc Hdoc]).
      destruct (Chain.truthyString (ci_subjectKey latestCI)) as [key|] eqn:Ek; [|congruence].
      destruct (Chain.truthyString (ci_issuanceTxid latestCI)) as [txid|] eqn:Et; [|congruence].
      assert (Hkey : ci_subjectKey latestCI = Some key).
      { destruct (ci_subjectKey latestCI) as [[|c k]|]; simpl in Ek; congruence. }
      assert (Htx : ci_issuanceTxid latestCI = Some txid).
      { destruct (ci_issuanceTxid latestCI) as [[|c k]|]; simpl in Et; congruence. }
      rewrite Hkey, Htx in Hdoc. rewrite Hdoc. eexists. reflexivity. }
  destruct Hlocal as [r Hr]. exists r. split; [exact Hr|].
  unfold resolveDID. rewrite Hparse.
  rewrite bool_decide_eq_false_2 by exact Hlen.
  rewrite Hread, Hr. reflexivity.
Qed.

End Resolution.

End EngineClaims.

Lemma update_returns_issuance_txid_witness :
  let options := Engine.UpdateOptions EngineSpec.sampleDid None None in
  exists r w',
    Engine.updateDID (jwk := jsstring) Some (fun _ => true)
      (Engine.SpendOk (replicate 64 49)) options EngineSpec.sampleWallet
    = (Engine.Ok r, w') /\
    Engine.res_txid r = Some EngineSpec.sampleTxid /\
    exists ci tip spendTxid,
      Engine.scanActive (Engine.upd_did options)
        (Engine.listOutputs EngineSpec.sampleWallet Engine.didBasket)
      = Some (ci, tip) /\
      Engine.SpendOk (replicate 64 49) = Engine.SpendOk spendTxid /\
      Engine.res_txid r = Engine.ci_issuanceTxid ci /\
      is_Some (Engine.fromTxid (Engine.res_txid r)) /\
      forall other, exists w'',
        Engine.updateDID (jwk := jsstring) Some (fun _ => true)
          (Engine.SpendOk other) options EngineSpec.sampleWallet
        = (Engine.Ok r, w'').
Proof.
  intros options.
  destruct (Engine.updateDID (jwk := jsstring) Some (fun _ => true)
              (Engine.SpendOk (replicate 64 49)) options EngineSpec.sampleWallet)
    as [[r|e] w'] eqn:E.
  - exists r, w'. split; [reflexivity|]. split.
    + vm_compute in E. injection E as <- _. reflexivity.
    + exact (update_returns_issuance_txid Some (fun _ => true) _ _ _ _ _ E).
  - exfalso. vm_compute in E. discriminate E.
Defined.

Lemma local_state_short_circuits_witness :
  let env := Engine.ResolveEnv true None None (Some (lit "https://resolver"))
               (Some (Chain.Result (Some tt) Chain.noMetadata None))
               (Chain.Api (fun _ _ => Chain.TxNotOk) (fun _ _ => None)
                  (fun _ _ => None)) in
  exists r,
    Engine._resolveFromBasket (jwk := jsstring) Some EngineSpec.sampleWallet
      EngineSpec.sampleDid = Some (Some r) /\
    Engine.resolveDID (jwk := jsstring) (json := unit) Some (fun _ => None)
      (fun _ => true) env EngineSpec.sampleWallet EngineSpec.sampleDid
    = (Some (Engine.mapDocument Engine.Built r), [Engine.CallListOutputs]).
Proof.
  intros env.
  apply (local_state_short_circuits (jwk := jsstring) Some (fun _ => None)
           (fun _ => true) env EngineSpec.sampleWallet EngineSpec.sampleDid
           EngineSpec.sampleTxid EngineSpec.sampleCI).
  - vm_compute. reflexivity.
  - vm_compute. discriminate.
  - reflexivity.
  - vm_compute. reflexivity.
  - vm_compute. split; [discriminate|]. split; [discriminate|].
    eexists. reflexivity.
Defined.

(** C4, as stated, fails on a basket whose only output names the DID with
    status [active] and a subject key but carries no issuance txid: local
    chain state exists, [_resolveFromBasket] returns [null], and
    [resolveDID] goes on to the resolver service and returns its answer. *)
Lemma local_state_without_issuance_txid_goes_remote :
  let env := Engine.ResolveEnv true None None (Some (lit "https://resolver"))
               (Some (Chain.Result (Some tt) Chain.noMetadata None))
               (Chain.Api (fun _ _ => Chain.TxNotOk) (fun _ _ => None)
                  (fun _ _ => None)) in
  Engine.parse EngineSpec.sampleDid = Some EngineSpec.sampleTxid /\
  Engine.latestFor EngineSpec.sampleDid
    (Engine.listOutputs EngineSpec.partialWallet Engine.didBasket)
  = Some EngineSpec.partialCI /\
  Engine.resolveDID (jwk := jsstring) (json := unit) Some (fun _ => None)
    (fun _ => true) env EngineSpec.partialWallet EngineSpec.sampleDid
  = (Some (Chain.Result (Some (Engine.Received tt)) Chain.noMetadata None),
     [Engine.CallListOutputs; Engine.CallResolver]).
Proof.
  intros env. split; [vm_compute; reflexivity|].
  split; vm_compute; reflexivity.
Qed.

Lemma update_preserves_identifier_witness :
  exists r0 w1 r w',
    Engine.createDID (jwk := jsstring) Some (fun _ => true) EngineSpec.sampleEnv
      EngineSpec.sampleOptions ∅ = (Engine.Ok r0, w1) /\
    Engine.updateDID (jwk := jsstring) Some (fun _ => true)
      (Engine.SpendOk (replicate 64 51)) EngineSpec.sampleUpdate
      (EngineSpec.runAll Some (fun _ => true) EngineSpec.sampleOps w1)
    = (Engine.Ok r, w') /\
    Engine.res_did r = Engine.res_did r0 /\
    Engine.res_identityCode r = Engine.res_identityCode r0 /\
    Engine.res_txid r = Engine.res_txid r0.
Proof.
  destruct (Engine.createDID (jwk := jsstring) Some (fun _ => true)
              EngineSpec.sampleEnv EngineSpec.sampleOptions ∅)
    as [[r0|e] w1] eqn:E0; [|vm_compute in E0; discriminate E0].
  destruct (Engine.updateDID (jwk := jsstring) Some (fun _ => true)
              (Engine.SpendOk (replicate 64 51)) EngineSpec.sampleUpdate
              (EngineSpec.runAll Some (fun _ => true) EngineSpec.sampleOps w1))
    as [[r|e] w'] eqn:E1.
  - exists r0, w1, r, w'. split; [reflexivity|]. split; [exact E1|].
    apply (update_preserves_identifier (jwk := jsstring) Some (fun _ => true)
             EngineSpec.sampleEnv EngineSpec.sampleOptions ∅ w1 w' r0 r
             EngineSpec.sampleOps (Engine.SpendOk (replicate 64 51))
             EngineSpec.sampleUpdate E0).
    + reflexivity.
    + intros txid _. repeat constructor.
    + pose proof E0 as E0'. vm_compute in E0'. injection E0' as <- _.
      reflexivity.
    + exact E1.
  - exfalso. pose proof E0 as E0'. vm_compute in E0'. injection E0' as <- <-.
    vm_compute in E1. discriminate E1.
Defined.

Lemma deactivation_is_terminal_witness :
  exists r0 w1 t w3,
    Engine.createDID (jwk := jsstring) Some (fun _ => true) EngineSpec.sampleEnv
      EngineSpec.sampleOptions ∅ = (Engine.Ok r0, w1) /\
    Engine.deactivateDID (fun _ => true) (Engine.SpendOk (replicate 64 51)) true
      (Engine.res_did r0)
      (EngineSpec.runAll (jwk := jsstring) Some (fun _ => true)
         EngineSpec.sampleOps w1)
    = (Engine.Ok t, w3) /\
    let w4 := EngineSpec.runAll (jwk := jsstring) Some (fun _ => true)
                EngineSpec.sampleOps w3 in
    EngineSpec.activeTips (Engine.res_did r0) w4 = [] /\
    Engine.scanActive (Engine.res_did r0) (Engine.listOutputs w4 Engine.didBasket)
    = None /\
    (forall answer options,
       Engine.upd_did options = Engine.res_did r0 ->
       Engine.updateDID (jwk := jsstring) Some (fun _ => true) answer options w4
       = (Engine.Err (Engine.NoActiveChainState (Engine.res_did r0)), w4)) /\
    (forall answer trackingOk,
       Engine.deactivateDID (fun _ => true) answer trackingOk (Engine.res_did r0) w4
       = (Engine.Err (Engine.NoActiveChainState (Engine.res_did r0)), w4)).
Proof.
  destruct (Engine.createDID (jwk := jsstring) Some (fun _ => true)
              EngineSpec.sampleEnv EngineSpec.sampleOptions ∅)
    as [[r0|e] w1] eqn:E0; [|vm_compute in E0; discriminate E0].
  destruct (Engine.deactivateDID (fun _ => true)
              (Engine.SpendOk (replicate 64 51)) true (Engine.res_did r0)
              (EngineSpec.runAll (jwk := jsstring) Some (fun _ => true)
                 EngineSpec.sampleOps w1))
    as [[t|e] w3] eqn:E1.
  - exists r0, w1, t, w3. split; [reflexivity|]. split; [exact E1|].
    apply (deactivation_is_terminal (jwk := jsstring) Some (fun _ => true)
             EngineSpec.sampleEnv EngineSpec.sampleOptions ∅ w1 w3 r0
             EngineSpec.sampleOps EngineSpec.sampleOps
             (Engine.SpendOk (replicate 64 51)) true t E0).
    + reflexivity.
    + intros txid _. repeat constructor.
    + exact E1.
  - exfalso. pose proof E0 as E0'. vm_compute in E0'. injection E0' as <- <-.
    vm_compute in E1. discriminate E1.
Defined.
(* ===================================================================== *)
(** ** The crawl: termination and the pending status *)
(* ===================================================================== *)

Section CrawlClaims.

Import Chain ChainSpec.

Context {json : Type}.
Variable JSON_parse : jsstring -> option json.
Variable truthy : json -> bool.

(** C2, as amended.  For every behaviour of the chain-indexing API (the
    answers may change from hop to hop and may lead back to visited
    transactions), the crawl fetches at most as many transactions as its
    hop limit allows, no transaction twice; the limit is 100 in
    [modules/did.ts], and on the server unless configured otherwise, where
    a number up to 2^53 counts as the next whole number.  A
    crawl whose [maxHops] bounds the loop ends: it returns or, on the
    server, throws; one whose [maxHops] does not has made every hop of the
    fuel when it has not ended.  A failed fetch of a transaction gives
    ['notFound'], without document; a fetch that throws, or a transaction
    time that [toISOString] refuses while [created] is not set, makes the
    server crawl throw and the crawl of [modules/did.ts] return
    ['internalError']; otherwise the result carries the last document
    parsed from the fetched transactions: as it is at a revocation marker,
    and when it is truthy at the end of the chain. *)
Theorem crawl_ends_within_hop_limit (c : crawler) (a : api) (txid : jsstring)
    (o : outcome) (trace : list (jsstring * txResponse)) :
  runCrawl JSON_parse truthy c a txid = (o, trace) ->
  (length trace <= hopLimit c)%nat /\
  NoDup (List.map fst trace) /\
  ((c = ModuleCrawl \/ exists capacity fuel, c = ServerCrawl capacity None fuel) ->
   hopLimit c = 100%nat /\ boundedOf c = true) /\
  (forall capacity q fuel,
     c = ServerCrawl capacity (Some (ServerResolver.Finite q)) fuel ->
     Qceiling q <= 2 ^ 53 ->
     hopLimit c = (if Qeq_bool q 0 then 100%nat else Z.to_nat (Qceiling q)) /\
     boundedOf c = true) /\
  (boundedOf c = true -> o <> Hung) /\
  (o = Hung -> length trace = hopLimit c) /\
  (c = ModuleCrawl -> exists r, o = Returned r) /\
  (forall r, o = Returned r ->
     summarises JSON_parse truthy (decoderOf c) false None trace r \/
     (c = ModuleCrawl /\ r = internalError /\
      (noFailure trace = false \/ datesInRange trace = false))) /\
  (o = Threw -> noFailure trace = false \/ datesInRange trace = false).
Proof.
  intros Hrun.
  destruct (ChainFacts.runCrawl_cases JSON_parse truthy a c txid o trace Hrun)
    as (o' & Hc & Ho & Hm).
  destruct (ChainFacts.crawl_bounded JSON_parse truthy a (decoderOf c)
              (boundedOf c) (hopLimit c) txid o' trace Hc)
    as (H2 & H3 & H1 & H4 & H5).
  split; [exact H2|]. split; [exact H3|].
  split; [|split; [|split; [|split; [|split; [|split]]]]].
  - intros [->|(capacity & fuel & ->)]; split; reflexivity.
  - intros capacity q fuel -> Hq.
    cbn [hopLimit boundedOf ServerResolver.maxHopsOf].
    destruct (Qeq_bool q 0); [split; reflexivity|].
    cbn [ServerResolver.hopsOf]. rewrite (proj2 (Z.leb_le _ _) Hq).
    split; [reflexivity|].
    apply bool_decide_eq_true_2. eexists; reflexivity.
  - intros Hb Hh. destruct Ho as [->|(_ & _ & ->)]; [|discriminate].
    destruct (H1 Hh) as [Hf _]. congruence.
  - intros Hh. destruct Ho as [->|(_ & _ & ->)]; [|discriminate].
    apply (H1 Hh).
  - exact Hm.
  - intros r Hr. destruct Ho as [->|(Hcm & Ht & ->)].
    + left. apply H4, Hr.
    + right. injection Hr as <-. auto.
  - intros Ht. destruct Ho as [->|(_ & _ & ->)]; [apply H5, Ht|discriminate].
Qed.

(** C3, as amended.  When every transaction that the crawl is led to is
    fetched, with a time that [toISOString] prints, one of them carries
    the issuance marker ["1"], none carries the revocation marker ["3"]
    and none a payload that parses as JSON, the crawl returns the pending
    status: the error is ['notYetAvailable'], not ['notFound'], and there
    is no document.  (The one other case is a server whose [maxHops] does
    not bound the loop, on a chain that has not ended after the hops of
    the fuel.) *)
Theorem issuance_without_document_is_pending (c : crawler) (a : api)
    (txid : jsstring) (o : outcome) (trace : list (jsstring * txResponse)) :
  runCrawl JSON_parse truthy c a txid = (o, trace) ->
  noFailure trace = true ->
  datesInRange trace = true ->
  sawIssuance (decoderOf c) trace = true ->
  revoked (decoderOf c) trace = false ->
  lastParsed JSON_parse (decoderOf c) None trace = None ->
  (o = Hung /\ boundedOf c = false /\ length trace = hopLimit c) \/
  exists r,
    o = Returned r /\
    error r = Some (lit "notYetAvailable") /\
    error r <> Some (lit "notFound") /\
    didDocument r = None.
Proof.
  intros Hrun Hok Hdates Hiss Hrev Hdoc.
  destruct (ChainFacts.runCrawl_cases JSON_parse truthy a c txid o trace Hrun)
    as (o' & Hc & Ho & _).
  destruct (ChainFacts.crawl_pending JSON_parse truthy a (decoderOf c)
              (boundedOf c) (hopLimit c) txid o' trace Hc Hok Hdates Hiss Hrev
              Hdoc)
    as [(-> & H)|(r & -> & H)].
  - left. destruct Ho as [->|(_ & Ht & _)]; [auto|discriminate].
  - right. exists r. split; [|exact H].
    destruct Ho as [->|(_ & Ht & _)]; [reflexivity|discriminate].
Qed.

End CrawlClaims.

(** The server crawl, default configuration, on a chain of an issuance
    and a document transaction. *)
Lemma crawl_ends_within_hop_limit_witness :
  exists o trace,
    ChainSpec.runCrawl ChainSpec.parseObject (fun _ => true)
      ChainSpec.serverCrawl
      (ChainSpec.twoStepApi ChainSpec.issuanceScript ChainSpec.documentScript)
      ChainSpec.startTxid = (o, trace) /\
    (length trace <= 100)%nat /\
    NoDup (List.map fst trace) /\
    o = Chain.Returned
          (Chain.Result (Some (lit "{}"))
             (Chain.Metadata (Some 1700000000) (Some 1700000000) false
                (Some (lit "ff")))
             None).
Proof.
  destruct (ChainSpec.runCrawl ChainSpec.parseObject (fun _ => true)
              ChainSpec.serverCrawl
              (ChainSpec.twoStepApi ChainSpec.issuanceScript
                 ChainSpec.documentScript)
              ChainSpec.startTxid) as [o trace] eqn:E.
  destruct (crawl_ends_within_hop_limit ChainSpec.parseObject (fun _ => true)
              _ _ _ _ _ E) as (H2 & H3 & _).
  exists o, trace. split; [reflexivity|].
  split; [exact H2|]. split; [exact H3|].
  revert E. unfold ChainSpec.serverCrawl. at_array_limit.
  intros E. vm_compute in E. injection E as <- _. reflexivity.
Defined.

(** C2, as stated, fails in three ways.  The server crawl takes its hop
    limit from the configuration: with [maxHops] 101 and an API whose
    spend endpoint always names one more transaction, 101 transactions are
    fetched; with [maxHops] [Infinity] the loop has no bound, and after
    200 hops it has fetched 200 transactions and goes on.  And the crawl
    does not return the last document found when a later fetch fails: the
    first transaction carries the document [{}], the transaction that
    spends it is not served, and the result is ['notFound'] without
    document. *)
Lemma crawl_exceeds_100_hops_or_drops_document :
  length (snd (ChainSpec.sampleRun
                 (ChainSpec.ServerCrawl Server.arrayLimit
                    (Some (ServerResolver.Finite 101)) 0)
                 ChainSpec.endlessApi)) = 101%nat /\
  (fst (ChainSpec.sampleRun
          (ChainSpec.ServerCrawl Server.arrayLimit
             (Some (ServerResolver.Infinity false)) 200)
          ChainSpec.endlessApi) = Chain.Hung /\
   length (snd (ChainSpec.sampleRun
                  (ChainSpec.ServerCrawl Server.arrayLimit
                     (Some (ServerResolver.Infinity false)) 200)
                  ChainSpec.endlessApi)) = 200%nat) /\
  ChainSpec.observed ChainSpec.serverCrawl
    (ChainSpec.brokenApi ChainSpec.documentScript)
  = (false, Some (lit "{}"), Chain.Returned Chain.notFound) /\
  Chain.didDocument (Chain.notFound (D := jsstring)) = None.
Proof.
  unfold ChainSpec.serverCrawl. at_array_limit.
  split; [vm_compute; reflexivity|].
  split; [split; vm_compute; reflexivity|].
  split; [vm_compute; reflexivity|reflexivity].
Qed.

(** The scenario of the spec on the server: the issuance transaction is
    served, the spend lookup finds nothing and the address history is
    empty. *)
Lemma issuance_without_document_is_pending_witness :
  exists o trace r,
    ChainSpec.runCrawl ChainSpec.parseObject (fun _ => true)
      ChainSpec.serverCrawl ChainSpec.pendingApi ChainSpec.startTxid
    = (o, trace) /\
    length trace = 1%nat /\
    o = Chain.Returned r /\
    Chain.error r = Some (lit "notYetAvailable") /\
    Chain.error r <> Some (lit "notFound") /\
    Chain.didDocument r = None.
Proof.
  destruct (ChainSpec.runCrawl ChainSpec.parseObject (fun _ => true)
              ChainSpec.serverCrawl ChainSpec.pendingApi ChainSpec.startTxid)
    as [o trace] eqn:E.
  assert (E' : o = Chain.Returned
                     (Chain.Result None
                        (Chain.Metadata (Some 1700000000) None false None)
                        (Some (lit "notYetAvailable"))) /\
               trace = [(ChainSpec.startTxid,
                         Chain.fetchTx ChainSpec.pendingApi 0
                           ChainSpec.startTxid)]).
  { revert E. unfold ChainSpec.serverCrawl. at_array_limit.
    intros E. vm_compute in E. injection E as <- <-. split; reflexivity. }
  destruct E' as [Eo Et].
  assert (H1 : ChainSpec.noFailure trace = true) by (rewrite Et; reflexivity).
  assert (H0 : ChainSpec.datesInRange trace = true)
    by (rewrite Et; reflexivity).
  assert (H2 : ChainSpec.sawIssuance
                 (ChainSpec.decoderOf ChainSpec.serverCrawl) trace = true).
  { rewrite Et. unfold ChainSpec.serverCrawl. at_array_limit.
    vm_compute. reflexivity. }
  assert (H3 : ChainSpec.revoked
                 (ChainSpec.decoderOf ChainSpec.serverCrawl) trace = false).
  { rewrite Et. unfold ChainSpec.serverCrawl. at_array_limit.
    vm_compute. reflexivity. }
  assert (H4 : ChainSpec.lastParsed ChainSpec.parseObject
                 (ChainSpec.decoderOf ChainSpec.serverCrawl) None trace = None).
  { rewrite Et. unfold ChainSpec.serverCrawl. at_array_limit.
    vm_compute. reflexivity. }
  destruct (issuance_without_document_is_pending ChainSpec.parseObject
              (fun _ => true) _ _ _ _ _ E H1 H0 H2 H3 H4)
    as [(Hh & _)|(r & Hr & Hrest)]; [rewrite Eo in Hh; discriminate Hh|].
  exists o, trace, r. split; [reflexivity|].
  split; [rewrite Et; reflexivity|]. split; [exact Hr|exact Hrest].
Defined.

(** C3, as stated, fails on the server when the chain goes on after the
    issuance.  When the transaction that spends the issuance is not
    served, the crawl has seen the marker ["1"] and no document, and
    returns ['notFound'].  When it carries the revocation marker ["3"],
    the crawl returns a deactivated result without document and without
    error.  When the issuance has no time and the next transaction has a
    time beyond the range of [Date], the crawl throws.  The crawl of
    [modules/did.ts] does not get as far as the premise: it reads no
    marker from the issuance script that [buildOpReturn] writes, and on
    the scenario of the spec (the issuance served, its output unspent)
    returns ['notFound']. *)
Lemma issuance_seen_yet_not_pending :
  ChainSpec.observed ChainSpec.serverCrawl
    (ChainSpec.brokenApi ChainSpec.issuanceScript)
  = (true, None, Chain.Returned Chain.notFound) /\
  Chain.error (Chain.notFound (D := jsstring)) = Some (lit "notFound") /\
  ChainSpec.observed ChainSpec.serverCrawl
    (ChainSpec.twoStepApi ChainSpec.issuanceScript ChainSpec.revocationScript)
  = (true, None,
     Chain.Returned
       (Chain.Result None
          (Chain.Metadata (Some 1700000000) None true (Some (lit "ff")))
          None)) /\
  ChainSpec.observed ChainSpec.serverCrawl ChainSpec.lateTimeApi
  = (true, None, Chain.Threw) /\
  ChainSpec.observed ChainSpec.ModuleCrawl ChainSpec.pendingApi
  = (false, None, Chain.Returned Chain.notFound).
Proof.
  unfold ChainSpec.serverCrawl. at_array_limit.
  split; [vm_compute; reflexivity|].
  split; [reflexivity|].
  split; [vm_compute; reflexivity|].
  split; vm_compute; reflexivity.
Qed.

(* ===================================================================== *)
(** ** Further properties: the [DID] class *)
(* ===================================================================== *)

(** X1.  [DID.parse] and [DID.fromTxid] are inverse to each other on
    txid-based DIDs: [fromTxid] returns [did] for [txid] exactly when
    [parse] accepts [did] with the 64-character identifier [txid]. *)
Theorem parse_inverts_fromTxid (txid did : jsstring) :
  Engine.fromTxid (Some txid) = Some did <->
  Engine.parse did = Some txid /\ length txid = 64%nat.
Proof.
  split.
  - intros H. split; [exact (EngineFacts.parse_fromTxid _ _ H)|].
    apply EngineFacts.fromTxid_some in H as [_ H].
    apply DidFacts.isTxid_spec in H. apply H.
  - intros [H L]. apply DidFacts.parse_some in H as [-> [H|H]].
    + unfold Engine.fromTxid. rewrite H. reflexivity.
    + apply DidFacts.isPubKeyHex_spec in H as [H _]. lia.
Qed.

(** X2.  [DID.isValid] holds exactly for the prefix [did:bsv:] followed
    by 64 hexadecimal digits in lower case, or by 66 hexadecimal digits in
    either case; nothing may follow. *)
Theorem isValid_iff (did : jsstring) :
  DidClass.isValid did = true <->
  exists id, did = Engine.DID_PREFIX ++ id /\
    ((length id = 64%nat /\ Forall DidSpec.lowerHexDigitUnit id) \/
     (length id = 66%nat /\ Forall DidSpec.hexDigitUnit id)).
Proof.
  unfold DidClass.isValid. split.
  - destruct (Engine.parse did) as [id|] eqn:E; [|discriminate].
    intros _. exists id. apply DidFacts.parse_some in E as [-> H].
    split; [reflexivity|].
    destruct H as [H|H]; [left; apply DidFacts.isTxid_spec, H|
                          right; apply DidFacts.isPubKeyHex_spec, H].
  - intros (id & -> & H).
    assert (E : Engine.parse (Engine.DID_PREFIX ++ id) = Some id).
    { apply DidFacts.parse_some. split; [reflexivity|].
      destruct H as [H|H]; [left; apply DidFacts.isTxid_spec, H|
                            right; apply DidFacts.isPubKeyHex_spec, H]. }
    rewrite E. reflexivity.
Qed.

(** X3.  [DID.fromIdentityKey] returns exactly for the keys of 66
    hexadecimal digits.  The document it returns has a DID that
    [DID.parse] accepts, with the key as identifier; it is its own
    controller, and its authentication and assertion methods name its one
    verification method, which holds the key. *)
Theorem fromIdentityKey_document (identityKey : jsstring) :
  match DidClass.fromIdentityKey identityKey with
  | Some doc =>
      Engine.isPubKeyHex identityKey = true /\
      Engine.parse (DidClass.ld_id doc) = Some identityKey /\
      DidClass.ld_controller doc = DidClass.ld_id doc /\
      exists vm,
        DidClass.ld_verificationMethod doc = [vm] /\
        DidClass.publicKeyHex vm = identityKey /\
        DidClass.lvm_controller vm = DidClass.ld_id doc /\
        DidClass.ld_authentication doc = [DidClass.lvm_id vm] /\
        DidClass.ld_assertionMethod doc = [DidClass.lvm_id vm]
  | None =>
      Engine.isPubKeyHex identityKey = false /\
      (length identityKey <> 66%nat \/ ~ Forall DidSpec.hexDigitUnit identityKey)
  end.
Proof.
  unfold DidClass.fromIdentityKey.
  destruct (Engine.isPubKeyHex identityKey) eqn:E.
  - split; [reflexivity|]. cbn [DidClass.ld_id DidClass.ld_controller].
    split.
    + apply DidFacts.parse_some. split; [reflexivity|]. right. exact E.
    + split; [reflexivity|]. eexists. repeat split; reflexivity.
  - split; [reflexivity|].
    destruct (decide (length identityKey = 66%nat)) as [L|L]; [|left; exact L].
    right. intros F.
    assert (Engine.isPubKeyHex identityKey = true)
      by (apply DidFacts.isPubKeyHex_spec; auto).
    congruence.
Qed.

(* ===================================================================== *)
(** ** Further properties: documents *)
(* ===================================================================== *)

Section DocumentExtras.

Import Engine DocSpec.

Context {jwk : Type}.
Variable pubKeyToJwk : jsstring -> option jwk.

(** X4.  A document built by [DID.buildDocument] for the DID of [txid],
    to which the loop of [updateDID] and [_resolveFromBasket] has added
    the additional keys, has the DID as id and as controller, one
    verification method per key besides the subject key, all controlled
    by the DID and with pairwise distinct ids ([#subject-key], [#key-2],
    [#key-3], ...), and every authentication entry is the id of one of
    its verification methods. *)
Theorem document_methods_distinct (txid did : jsstring)
    (key : option jsstring) (services : option (list DIDService))
    (keys : list jsstring) (doc : document) :
  fromTxid (Some txid) = Some did ->
  buildDocument pubKeyToJwk (Some txid) key (Some did) services
    ≫= addKeys pubKeyToJwk did 0 keys = Some doc ->
  doc_id doc = did /\ controller doc = Some did /\
  length (verificationMethods doc) = S (length keys) /\
  vm_id <$> verificationMethods doc
    = (did ++ lit "#subject-key") :: (keyId did <$> seq 0 (length keys)) /\
  NoDup (vm_id <$> verificationMethods doc) /\
  Forall (fun vm => vm_controller vm = did) (verificationMethods doc) /\
  Forall (fun a => a ∈ vm_id <$> verificationMethods doc) (authentication doc).
Proof.
  intros Hdid H.
  destruct (buildDocument pubKeyToJwk (Some txid) key (Some did) services)
    as [doc0|] eqn:Hb; [|discriminate].
  cbn [mbind option_bind] in H.
  unfold buildDocument in Hb. rewrite Hdid in Hb. cbn [mbind option_bind] in Hb.
  destruct key as [k|]; [|discriminate]. cbn [mbind option_bind] in Hb.
  destruct (pubKeyToJwk k) as [j|]; [|discriminate].
  cbn [mbind option_bind] in Hb. injection Hb as <-.
  apply (DocFacts.addKeys_methods pubKeyToJwk) in H
    as (H1 & H2 & H3 & _ & added & Hv & Hids & Hc & _).
  cbn [doc_id controller authentication verificationMethods] in *.
  assert (Hne : did <> []).
  { apply EngineFacts.fromTxid_some in Hdid as [-> _]. discriminate. }
  assert (Hids' : vm_id <$> verificationMethods doc
                  = (did ++ lit "#subject-key")
                      :: (keyId did <$> seq 0 (length keys))).
  { rewrite Hv, fmap_app, Hids. reflexivity. }
  split; [exact H1|]. split.
  { rewrite H2. destruct did; [congruence|reflexivity]. }
  split.
  { rewrite <- (length_fmap vm_id), Hids'. cbn [length].
    rewrite length_fmap, length_seq. reflexivity. }
  split; [exact Hids'|]. split.
  { rewrite Hids'. apply NoDup_cons_2.
    - intros Hin. apply list_elem_of_fmap in Hin as (i & Hi & _).
      exact (DocFacts.keyId_not_subject _ _ Hi).
    - apply NoDup_fmap_2_strong; [|apply NoDup_seq].
      intros i1 i2 _ _ Hij. exact (DocFacts.keyId_inj _ _ _ Hij). }
  split.
  { rewrite Hv. apply Forall_app. split; [|exact Hc].
    constructor; [reflexivity|constructor]. }
  rewrite H3, Hids'. constructor; [|constructor].
  apply elem_of_cons. left. reflexivity.
Qed.

End DocumentExtras.

Lemma document_methods_distinct_witness :
  exists doc,
    Engine.buildDocument DocSpec.sampleJwk (Some EngineSpec.sampleTxid)
      (Some EngineSpec.sampleKey) (Some EngineSpec.sampleDid) None
      ≫= Engine.addKeys DocSpec.sampleJwk EngineSpec.sampleDid 0
            [lit "03aa"; lit "03bb"] = Some doc /\
    length (Engine.verificationMethods doc) = 3%nat /\
    NoDup (Engine.vm_id <$> Engine.verificationMethods doc).
Proof.
  eexists. split; [reflexivity|].
  refine (let H := document_methods_distinct DocSpec.sampleJwk
                     EngineSpec.sampleTxid EngineSpec.sampleDid
                     (Some EngineSpec.sampleKey) None [lit "03aa"; lit "03bb"]
                     _ eq_refl eq_refl in _).
  destruct H as (_ & _ & H3 & _ & H5 & _).
  split; [exact H3|exact H5].
Defined.

(* ===================================================================== *)
(** ** Further properties: the life cycle of a DID in the basket *)
(* ===================================================================== *)

Section LifecycleExtras.

Import Engine EngineSpec DocSpec.

Context {jwk json : Type}.
Variable pubKeyToJwk : jsstring -> option jwk.
Variable validPrivateKey : jsstring -> bool.
Variable JSON_parse : jsstring -> option json.
Variable truthy : json -> bool.

(** X5.  A DID that [createDID] has created in the default basket
    resolves from the basket, without any request to a proxy, a resolver
    or the chain API: [resolveDID] returns the document that [createDID]
    returned, except that the services passed to [createDID] are not in
    it (the metadata of the tracked output does not keep them). *)
Theorem created_did_resolves_locally (env : createEnv)
    (options : DIDCreateOptions) (w w' : wallet) (r : DIDCreateResult)
    (renv : resolveEnv) :
  createDID pubKeyToJwk validPrivateKey env options w = (Ok r, w') ->
  default didBasket (opt_basket options) = didBasket ->
  derivedSubjectKey env <> Some [] ->
  basketReadable renv = true ->
  resolveDID pubKeyToJwk JSON_parse truthy renv w' (res_did r)
  = (Some (Chain.Result (Some (Built (withoutServices (res_document r))))
             Chain.noMetadata None),
     [CallListOutputs]).
Proof.
  intros Hc Hb Hk Hr.
  destruct (LifecycleFacts.createDID_ok _ _ _ _ _ _ _ Hc)
    as (txid & key & st & did & doc & Hi & Hs & Hd & Hdoc & -> & ->).
  rewrite Hb. cbn [res_did res_document].
  pose proof (EngineFacts.fromTxid_some _ _ Hd) as [_ Ht].
  apply DidFacts.isTxid_spec in Ht as [Hlen _].
  unfold resolveDID. rewrite (EngineFacts.parse_fromTxid _ _ Hd).
  rewrite bool_decide_eq_false_2 by lia. rewrite Hr.
  unfold _resolveFromBasket.
  rewrite LifecycleFacts.listOutputs_spend_first.
  rewrite bool_decide_eq_true_2 by reflexivity.
  rewrite LifecycleFacts.latestFor_tracked by reflexivity.
  cbn [ci_status ci_subjectKey ci_issuanceTxid ci_services ci_additionalKeys].
  rewrite bool_decide_eq_false_2 by discriminate.
  assert (Hkey : Chain.truthyString (Some key) = Some key).
  { destruct key; [exfalso; exact (Hk Hs)|reflexivity]. }
  assert (Htx : Chain.truthyString (Some txid) = Some txid).
  { destruct txid; [discriminate Hlen|reflexivity]. }
  rewrite Hkey, Htx.
  unfold buildDocument in Hdoc |- *. rewrite Hd in *.
  cbn [mbind option_bind default] in Hdoc |- *.
  destruct (pubKeyToJwk key) as [j|]; [|discriminate].
  cbn [mbind option_bind] in Hdoc |- *. injection Hdoc as <-.
  cbn [addKeys]. reflexivity.
Qed.

(** X6.  After a successful [updateDID] of a txid-based DID, [resolveDID]
    returns from the basket, without any request, exactly the document
    that [updateDID] returned, services and additional keys included.
    (The empty string is not a public key.) *)
Theorem updated_did_resolves_to_update (answer : spendAnswer)
    (options : DIDUpdateOptions) (w w' : wallet) (r : DIDCreateResult)
    (renv : resolveEnv) (id : jsstring) :
  updateDID pubKeyToJwk validPrivateKey answer options w = (Ok r, w') ->
  pubKeyToJwk [] = None ->
  parse (upd_did options) = Some id ->
  length id = 64%nat ->
  basketReadable renv = true ->
  resolveDID pubKeyToJwk JSON_parse truthy renv w' (upd_did options)
  = (Some (Chain.Result (Some (Built (res_document r))) Chain.noMetadata None),
     [CallListOutputs]).
Proof.
  intros Hu Hempty Hp Hlen Hr.
  destruct (LifecycleFacts.updateDID_ok _ _ _ _ _ _ _ Hu)
    as (ci & tip & ck & st & doc & Hs & [d Hd] & Hdoc & -> & ->).
  cbn [res_document].
  unfold resolveDID. rewrite Hp.
  rewrite bool_decide_eq_false_2 by lia. rewrite Hr.
  unfold _resolveFromBasket.
  rewrite LifecycleFacts.listOutputs_spend_first.
  rewrite bool_decide_eq_true_2 by reflexivity.
  rewrite LifecycleFacts.latestFor_tracked by reflexivity.
  cbn [ci_status ci_subjectKey ci_issuanceTxid ci_services ci_additionalKeys].
  rewrite bool_decide_eq_false_2 by discriminate.
  destruct (ci_issuanceTxid ci) as [txid|] eqn:Et; [|discriminate Hd].
  destruct (ci_subjectKey ci) as [key|] eqn:Ek.
  2: { unfold buildDocument in Hdoc. rewrite Hd in Hdoc. discriminate Hdoc. }
  assert (Hkey : Chain.truthyString (Some key) = Some key).
  { destruct key; [|reflexivity]. unfold buildDocument in Hdoc.
    rewrite Hd in Hdoc. cbn [mbind option_bind] in Hdoc.
    rewrite Hempty in Hdoc. discriminate Hdoc. }
  assert (Htx : Chain.truthyString (Some txid) = Some txid).
  { destruct txid; [discriminate Hd|reflexivity]. }
  rewrite Hkey, Htx, Hdoc. reflexivity.
Qed.

(** X7.  After a successful [deactivateDID] the local tier never gives an
    active document: [_resolveFromBasket] does not return [null], and a
    result that it returns is marked deactivated and has no error;
    [resolveDID] then returns this result for a txid-based DID without any
    request. *)
Theorem deactivated_did_resolves_deactivated (answer : spendAnswer)
    (trackingOk : bool) (did : jsstring) (w w' : wallet) (t : jsstring) :
  deactivateDID validPrivateKey answer trackingOk did w = (Ok t, w') ->
  _resolveFromBasket pubKeyToJwk w' did <> Some None /\
  forall r,
    _resolveFromBasket pubKeyToJwk w' did = Some (Some r) ->
    Chain.deactivated (Chain.didDocumentMetadata r) = true /\
    Chain.error r = None /\
    forall renv id,
      basketReadable renv = true ->
      parse did = Some id -> length id = 64%nat ->
      resolveDID pubKeyToJwk JSON_parse truthy renv w' did
      = (Some (mapDocument Built r), [CallListOutputs]).
Proof.
  intros Hd.
  destruct (LifecycleFacts.deactivateDID_ok _ _ _ _ _ _ _ Hd)
    as (ci & tip & _ & Hs & ->).
  assert (Hl : _resolveFromBasket pubKeyToJwk
                 (track t 0
                    [NewOutput None None;
                     NewOutput (Some didBasket)
                       (Some (ChainCI (Some (lit "did-revocation")) (Some did)
                                (ci_identityCode ci) None (ci_subjectKey ci)
                                (ci_issuanceTxid ci) None None
                                (Some (lit "deactivated"))))]
                    (unspend tip w)) did
               = match Chain.truthyString (ci_subjectKey ci) with
                 | Some key =>
                     doc ← buildDocument pubKeyToJwk (ci_issuanceTxid ci)
                             (Some key) (Some did) None;
                     Some (Some (Chain.Result (Some doc)
                                   (Chain.Metadata None None true None) None))
                 | None =>
                     Some (Some (Chain.Result None
                                   (Chain.Metadata None None true None) None))
                 end).
  { unfold _resolveFromBasket.
    rewrite LifecycleFacts.listOutputs_spend_second.
    rewrite LifecycleFacts.latestFor_tracked by reflexivity.
    cbn [ci_status ci_subjectKey ci_issuanceTxid].
    rewrite bool_decide_eq_true_2 by reflexivity. reflexivity. }
  split.
  - rewrite Hl.
    destruct (Chain.truthyString (ci_subjectKey ci)) as [key|]; [|discriminate].
    destruct (buildDocument _ _ _ _ _); discriminate.
  - intros r Hres.
    assert (Hm : Chain.deactivated (Chain.didDocumentMetadata r) = true /\
                 Chain.error r = None).
    { pose proof Hres as Hres'. rewrite Hl in Hres'.
      destruct (Chain.truthyString (ci_subjectKey ci)) as [key|].
      - destruct (buildDocument _ _ _ _ _); [|discriminate].
        cbn in Hres'. injection Hres' as <-. split; reflexivity.
      - injection Hres' as <-. split; reflexivity. }
    split; [apply Hm|]. split; [apply Hm|].
    intros renv id Hr Hp Hlen. unfold resolveDID. rewrite Hp.
    rewrite bool_decide_eq_false_2 by lia. rewrite Hr, Hres. reflexivity.
Qed.

(** X8.  [createDID] honours [options.basket], but the other methods read
    the default basket only: a DID created in a basket of its own (and not
    known to the default basket before) has no chain state for
    [updateDID] and [deactivateDID], which fail with "No active chain
    state found" and leave the wallet as it is, and [_resolveFromBasket]
    returns [null] for it. *)
Theorem own_basket_did_has_no_chain_state (env : createEnv)
    (options : DIDCreateOptions) (w w' : wallet) (r : DIDCreateResult)
    (b : jsstring) :
  createDID pubKeyToJwk validPrivateKey env options w = (Ok r, w') ->
  opt_basket options = Some b -> b <> didBasket ->
  unknownDid (res_did r) w ->
  (forall answer upd,
     upd_did upd = res_did r ->
     updateDID pubKeyToJwk validPrivateKey answer upd w'
     = (Err (NoActiveChainState (res_did r)), w')) /\
  (forall answer trackingOk,
     deactivateDID validPrivateKey answer trackingOk (res_did r) w'
     = (Err (NoActiveChainState (res_did r)), w')) /\
  _resolveFromBasket pubKeyToJwk w' (res_did r) = Some None.
Proof.
  intros Hc Hb Hne Hnew.
  destruct (LifecycleFacts.createDID_ok _ _ _ _ _ _ _ Hc)
    as (txid & key & st & did & doc & Hi & Hs & Hd & Hdoc & -> & ->).
  rewrite Hb in *. cbn [default res_did] in *.
  match goal with
  | |- context [updateDID _ _ _ _ ?w1] => remember w1 as w' eqn:Ew
  end.
  assert (Hl : listOutputs w' didBasket
               = List.filter (notAt (outpointOf txid 0)) (listOutputs w didBasket)).
  { subst w'. rewrite LifecycleFacts.listOutputs_spend_first.
    rewrite bool_decide_eq_false_2 by exact Hne. rewrite app_nil_r.
    rewrite EngineFacts.listOutputs_unspend.
    rewrite LifecycleFacts.listOutputs_spend_first.
    rewrite bool_decide_eq_false_2 by exact Hne. rewrite app_nil_r.
    reflexivity. }
  assert (Hunk : unknownDid did w').
  { unfold unknownDid. rewrite Hl, EngineFacts.filter_comm.
    unfold unknownDid in Hnew. rewrite Hnew. reflexivity. }
  assert (Hdead : noActiveTip did w')
    by exact (EngineFacts.unknownDid_no_tips _ _ Hunk).
  assert (Hp : parse did <> None)
    by (rewrite (EngineFacts.parse_fromTxid _ _ Hd); discriminate).
  split; [|split].
  - intros answer upd Hu. apply EngineFacts.dead_update_fails; assumption.
  - intros answer trackingOk. apply EngineFacts.dead_deactivate_fails; assumption.
  - unfold _resolveFromBasket.
    rewrite (LifecycleFacts.latestFor_unknown _ _ Hunk). reflexivity.
Qed.

End LifecycleExtras.

Lemma created_did_resolves_locally_witness :
  exists r w',
    Engine.createDID DocSpec.sampleJwk (fun _ => true) EngineSpec.sampleEnv
      EngineSpec.sampleOptions ∅ = (Engine.Ok r, w') /\
    Engine.resolveDID DocSpec.sampleJwk (fun _ => None) (fun _ => true)
      DocSpec.offline w' (Engine.res_did r)
    = (Some (Chain.Result
               (Some (Engine.Built (DocSpec.withoutServices
                                      (Engine.res_document r))))
               Chain.noMetadata None),
       [Engine.CallListOutputs]).
Proof.
  destruct (Engine.createDID DocSpec.sampleJwk (fun _ => true)
              EngineSpec.sampleEnv EngineSpec.sampleOptions ∅)
    as [[r|e] w'] eqn:E; [|vm_compute in E; discriminate E].
  exists r, w'. split; [reflexivity|].
  apply (created_did_resolves_locally DocSpec.sampleJwk (fun _ => true)
           (fun _ => None) (fun _ => true) _ _ _ _ _ DocSpec.offline E).
  - reflexivity.
  - discriminate.
  - reflexivity.
Defined.

Lemma updated_did_resolves_to_update_witness :
  exists r w',
    Engine.updateDID DocSpec.sampleJwk (fun _ => true)
      (Engine.SpendOk (replicate 64 49)) EngineSpec.sampleUpdate
      EngineSpec.sampleWallet = (Engine.Ok r, w') /\
    Engine.resolveDID DocSpec.sampleJwk (fun _ => None) (fun _ => true)
      DocSpec.offline w' EngineSpec.sampleDid
    = (Some (Chain.Result (Some (Engine.Built (Engine.res_document r)))
               Chain.noMetadata None),
       [Engine.CallListOutputs]).
Proof.
  destruct (Engine.updateDID DocSpec.sampleJwk (fun _ => true)
              (Engine.SpendOk (replicate 64 49)) EngineSpec.sampleUpdate
              EngineSpec.sampleWallet)
    as [[r|e] w'] eqn:E; [|vm_compute in E; discriminate E].
  exists r, w'. split; [reflexivity|].
  apply (updated_did_resolves_to_update DocSpec.sampleJwk (fun _ => true)
           (fun _ => None) (fun _ => true) _ _ _ _ _ DocSpec.offline
           EngineSpec.sampleTxid E).
  - reflexivity.
  - vm_compute. reflexivity.
  - reflexivity.
  - reflexivity.
Defined.

Lemma deactivated_did_resolves_deactivated_witness :
  exists t w',
    Engine.deactivateDID (fun _ => true) (Engine.SpendOk (replicate 64 49))
      true EngineSpec.sampleDid EngineSpec.sampleWallet = (Engine.Ok t, w') /\
    Engine._resolveFromBasket DocSpec.sampleJwk w' EngineSpec.sampleDid
    <> Some None.
Proof.
  destruct (Engine.deactivateDID (fun _ => true)
              (Engine.SpendOk (replicate 64 49)) true EngineSpec.sampleDid
              EngineSpec.sampleWallet)
    as [[t|e] w'] eqn:E; [|vm_compute in E; discriminate E].
  exists t, w'. split; [reflexivity|].
  exact (proj1 (deactivated_did_resolves_deactivated (json := unit)
                  DocSpec.sampleJwk (fun _ => true) (fun _ => None)
                  (fun _ => true) _ _ _ _ _ _ E)).
Defined.

Lemma own_basket_did_has_no_chain_state_witness :
  exists r w',
    Engine.createDID DocSpec.sampleJwk (fun _ => true) EngineSpec.sampleEnv
      DocSpec.ownBasketOptions ∅ = (Engine.Ok r, w') /\
    Engine._resolveFromBasket DocSpec.sampleJwk w' (Engine.res_did r)
    = Some None /\
    forall answer,
      Engine.updateDID DocSpec.sampleJwk (fun _ => true) answer
        (Engine.UpdateOptions (Engine.res_did r) None None) w'
      = (Engine.Err (Engine.NoActiveChainState (Engine.res_did r)), w').
Proof.
  destruct (Engine.createDID DocSpec.sampleJwk (fun _ => true)
              EngineSpec.sampleEnv DocSpec.ownBasketOptions ∅)
    as [[r|e] w'] eqn:E; [|vm_compute in E; discriminate E].
  exists r, w'. split; [reflexivity|].
  assert (Hr : Engine.res_did r = EngineSpec.sampleDid).
  { pose proof E as E'. vm_compute in E'. injection E' as <- _. reflexivity. }
  destruct (own_basket_did_has_no_chain_state DocSpec.sampleJwk (fun _ => true)
              _ _ _ _ _ (lit "my-dids") E eq_refl) as (H1 & _ & H3).
  - discriminate.
  - rewrite Hr. reflexivity.
  - split; [exact H3|]. intros answer. apply H1. reflexivity.
Defined.

(* ===================================================================== *)
(** ** Further properties: [listDIDs] *)
(* ===================================================================== *)

(** X9.  When the basket can be listed, [listDIDs] returns at most one
    entry per DID; an entry is in the list exactly when it is the one
    given by the last output of the basket that gives an entry for its DID
    (later outputs overwrite earlier ones).  No entry has an empty DID or
    identity code, and the status is ['active'] or ['deactivated']:
    outputs with status ['pending'] give no entry.  When listing the
    basket throws, [listDIDs] throws. *)
Theorem listDIDs_latest_entries (w : Engine.wallet) :
  Listing.listDIDs false w = None /\
  exists l,
    Listing.listDIDs true w = Some l /\
    NoDup (Listing.cs_did <$> l) /\
    (forall e,
       e ∈ l <->
       last (ListingSpec.entriesFor (Listing.cs_did e)
               (Engine.listOutputs w Engine.didBasket)) = Some e) /\
    (forall e,
       e ∈ l ->
       Listing.cs_did e <> [] /\ Listing.cs_identityCode e <> [] /\
       (Listing.cs_status e = lit "active" \/
        Listing.cs_status e = lit "deactivated")).
Proof.
  split; [reflexivity|].
  destruct (ListingFacts.listDIDs_spec w) as (l & Hl & Hnd & Hin).
  exists l. split; [exact Hl|]. split; [exact Hnd|]. split; [exact Hin|].
  intros e He. apply Hin, ListingFacts.last_filter_key in He as [_ He].
  apply list_elem_of_omap in He as (o & _ & Ho).
  apply ListingFacts.entryOf_some in Ho as (H1 & H2 & _ & H3 & _).
  auto.
Qed.

Section ListingExtras.

Import Engine EngineSpec Listing.

Context {jwk : Type}.
Variable pubKeyToJwk : jsstring -> option jwk.
Variable validPrivateKey : jsstring -> bool.

(** X10.  After [createDID] has created a DID in the default basket with
    an identity code that is not empty, [listDIDs] lists the DID once, as
    ['active'], with the identity code and the issuance txid that
    [createDID] returned. *)
Theorem created_did_is_listed (env : createEnv) (options : DIDCreateOptions)
    (w w' : wallet) (r : DIDCreateResult) :
  createDID pubKeyToJwk validPrivateKey env options w = (Ok r, w') ->
  default didBasket (opt_basket options) = didBasket ->
  res_identityCode r <> Some [] ->
  exists l e,
    listDIDs true w' = Some l /\ e ∈ l /\
    cs_did e = res_did r /\
    Some (cs_identityCode e) = res_identityCode r /\
    Some (cs_issuanceTxid e) = res_txid r /\
    cs_status e = lit "active" /\
    forall e', e' ∈ l -> cs_did e' = res_did r -> e' = e.
Proof.
  intros Hc Hb Hic.
  destruct (LifecycleFacts.createDID_ok _ _ _ _ _ _ _ Hc)
    as (txid & key & st & did & doc & Hi & Hs & Hd & Hdoc & -> & ->).
  rewrite Hb. cbn [res_did res_identityCode res_txid] in *.
  pose proof (EngineFacts.fromTxid_some _ _ Hd) as [-> Ht].
  apply DidFacts.isTxid_spec in Ht as [Hlen _].
  set (ic := default (gen_identityCode env) (opt_identityCode options)) in *.
  match goal with
  | |- context [listDIDs true ?w1] => remember w1 as w2 eqn:Ew
  end.
  eassert (Hlo : listOutputs w2 didBasket = _ ++ [_]).
  { subst w2. rewrite LifecycleFacts.listOutputs_spend_first.
    rewrite bool_decide_eq_true_2 by reflexivity. reflexivity. }
  destruct (ListingFacts.listed_last w2 _ _
              (ChainState (DID_PREFIX ++ txid) ic txid (outpointOf st 0)
                 (lit "active")) Hlo)
    as (l & Hl & Hin & Huniq).
  { unfold entryOf. cbn [customInstructions ci_did ci_identityCode ci_status
                          ci_issuanceTxid outpoint].
    clearbody ic. destruct ic as [|c ic]; [exfalso; apply Hic; reflexivity|].
    destruct txid as [|c' txid]; [discriminate Hlen|]. reflexivity. }
  exists l. eexists. split; [exact Hl|]. split; [exact Hin|].
  repeat split. exact Huniq.
Qed.

(** X11.  After a successful [deactivateDID] of a DID whose chain state
    carries an identity code, [listDIDs] lists the DID once, as
    ['deactivated'], at the tracking output of the revocation
    transaction. *)
Theorem deactivated_did_is_listed (answer : spendAnswer) (trackingOk : bool)
    (did : jsstring) (w w' : wallet) (t : jsstring) (ci : chainCI)
    (tip : jsstring) :
  deactivateDID validPrivateKey answer trackingOk did w = (Ok t, w') ->
  scanActive did (listOutputs w didBasket) = Some (ci, tip) ->
  Chain.truthyString (ci_identityCode ci) <> None ->
  exists l e,
    listDIDs true w' = Some l /\ e ∈ l /\
    cs_did e = did /\
    Some (cs_identityCode e) = ci_identityCode ci /\
    cs_status e = lit "deactivated" /\
    currentOutpoint e = outpointOf t 1 /\
    forall e', e' ∈ l -> cs_did e' = did -> e' = e.
Proof.
  intros Hd Hs Hic.
  destruct (LifecycleFacts.deactivateDID_ok _ _ _ _ _ _ _ Hd)
    as (ci' & tip' & [id Hp] & Hs' & ->).
  rewrite Hs in Hs'. injection Hs' as <- <-.
  apply DidFacts.parse_some in Hp as [-> _].
  destruct (ci_identityCode ci) as [[|c ic]|] eqn:Ei; try (cbn in Hic; congruence).
  match goal with
  | |- context [listDIDs true ?w1] => remember w1 as w2 eqn:Ew
  end.
  eassert (Hlo : listOutputs w2 didBasket = _ ++ [_]).
  { subst w2. rewrite LifecycleFacts.listOutputs_spend_second. reflexivity. }
  destruct (ListingFacts.listed_last w2 _ _
              (ChainState (DID_PREFIX ++ id) (c :: ic)
                 (match Chain.truthyString (ci_issuanceTxid ci) with
                  | Some x => x
                  | None => replaceFirst DID_PREFIX [] (DID_PREFIX ++ id)
                  end)
                 (outpointOf t 1) (lit "deactivated")) Hlo)
    as (l & Hl & Hin & Huniq); [reflexivity|].
  exists l. eexists. split; [exact Hl|]. split; [exact Hin|].
  repeat split. exact Huniq.
Qed.

End ListingExtras.

Lemma created_did_is_listed_witness :
  exists r w' l e,
    Engine.createDID DocSpec.sampleJwk (fun _ => true) EngineSpec.sampleEnv
      EngineSpec.sampleOptions ∅ = (Engine.Ok r, w') /\
    Listing.listDIDs true w' = Some l /\ e ∈ l /\
    Listing.cs_did e = Engine.res_did r /\
    Listing.cs_status e = lit "active".
Proof.
  destruct (Engine.createDID DocSpec.sampleJwk (fun _ => true)
              EngineSpec.sampleEnv EngineSpec.sampleOptions ∅)
    as [[r|e] w'] eqn:E; [|vm_compute in E; discriminate E].
  assert (Hic : Engine.res_identityCode r <> Some []).
  { pose proof E as E'. vm_compute in E'. injection E' as <- _. discriminate. }
  destruct (created_did_is_listed DocSpec.sampleJwk (fun _ => true)
              _ _ _ _ _ E eq_refl Hic)
    as (l & e & H1 & H2 & H3 & _ & _ & H6 & _).
  exists r, w', l, e. split; [reflexivity|]. auto.
Defined.

Lemma deactivated_did_is_listed_witness :
  exists t w' l e,
    Engine.deactivateDID (fun _ => true) (Engine.SpendOk (replicate 64 49))
      true EngineSpec.sampleDid EngineSpec.sampleWallet = (Engine.Ok t, w') /\
    Listing.listDIDs true w' = Some l /\ e ∈ l /\
    Listing.cs_did e = EngineSpec.sampleDid /\
    Listing.cs_status e = lit "deactivated".
Proof.
  destruct (Engine.deactivateDID (fun _ => true)
              (Engine.SpendOk (replicate 64 49)) true EngineSpec.sampleDid
              EngineSpec.sampleWallet)
    as [[t|e] w'] eqn:E; [|vm_compute in E; discriminate E].
  destruct (deactivated_did_is_listed (fun _ => true) _ _ _ _ _ _
              EngineSpec.sampleCI
              (Engine.outpointOf EngineSpec.sampleTxid 0) E)
    as (l & e & H1 & H2 & H3 & _ & H5 & _).
  - vm_compute. reflexivity.
  - discriminate.
  - exists t, w', l, e. split; [reflexivity|]. auto.
Defined.

(* ===================================================================== *)
(** ** Further properties: the tiers of resolution *)
(* ===================================================================== *)

Section ResolutionExtras.

Import Engine.

Context {jwk json : Type}.
Variable pubKeyToJwk : jsstring -> option jwk.
Variable JSON_parse : jsstring -> option json.
Variable truthy : json -> bool.

(** X12.  [resolveDID] consults its tiers in the order basket, proxy,
    resolver service, chain API, each at most once.  It makes no call at
    all exactly when the DID is malformed or legacy (66 digits).  The
    proxy and the resolver service are called only when their URL is
    configured, and a later tier only after every configured earlier one
    has fallen through. *)
Theorem resolveDID_tier_order (env : resolveEnv) (w : wallet)
    (did : jsstring) :
  let calls := snd (resolveDID pubKeyToJwk JSON_parse truthy env w did) in
  sublist calls [CallListOutputs; CallProxy; CallResolver; CallChainApi] /\
  (calls = [] <-> forall id, parse did = Some id -> length id = 66%nat) /\
  (CallProxy ∈ calls -> Chain.truthyString (didProxyUrl env) <> None) /\
  (CallResolver ∈ calls ->
     Chain.truthyString (didResolverUrl env) <> None /\
     (Chain.truthyString (didProxyUrl env) = None \/ proxyAnswer env = None)) /\
  (CallChainApi ∈ calls ->
     (Chain.truthyString (didProxyUrl env) = None \/ proxyAnswer env = None) /\
     (Chain.truthyString (didResolverUrl env) = None \/
      resolverAnswer env = None)).
Proof.
  cbv zeta. unfold resolveDID.
  destruct (parse did) as [id|].
  2: { cbn [snd]. split; [apply sublist_nil_l|]. split.
       - split; [intros _ id H; discriminate H|reflexivity].
       - rewrite ?elem_of_nil. tauto. }
  destruct (bool_decide (length id = 66%nat)) eqn:El.
  { apply bool_decide_eq_true in El. cbn [snd].
    split; [apply sublist_nil_l|]. split.
    - split; [intros _ id' [= <-]; exact El|reflexivity].
    - rewrite ?elem_of_nil. tauto. }
  apply bool_decide_eq_false in El.
  assert (Hne : forall l : list call,
            CallListOutputs :: l = [] <->
            forall id', Some id = Some id' -> length id' = 66%nat).
  { intros l. split; [discriminate|]. intros H. exfalso. apply El, H. reflexivity. }
  destruct (if basketReadable env then _ else _) as [[r|]|];
    destruct (Chain.truthyString (didProxyUrl env)) as [pu|];
    destruct (proxyAnswer env) as [pa|];
    destruct (Chain.truthyString (didResolverUrl env)) as [ru|];
    destruct (resolverAnswer env) as [ra|];
    cbn [snd app];
    (split;
       [repeat first [apply sublist_nil_l | apply sublist_skip | apply sublist_cons]|]);
    (split; [apply Hne|]);
    rewrite ?elem_of_cons, ?elem_of_nil;
    intuition congruence.
Qed.

End ResolutionExtras.

(* ===================================================================== *)
(** ** Further properties: the resolver service *)
(* ===================================================================== *)

(** X13.  The pattern of the server agrees with [DID.parse] on txid-based
    DIDs: a DID that [DID.parse] accepts matches with its identifier as
    the txid when the identifier has 64 digits, and the txid is already
    in lower case; a legacy DID (66 digits) does not match. *)
Theorem txidMatch_of_parsed (did id : jsstring) :
  Engine.parse did = Some id ->
  ServerService.txidMatch did
  = (if bool_decide (length id = 64%nat) then Some id else None) /\
  (length id = 64%nat -> ServerService.toLowerCase id = id).
Proof.
  intros H. apply DidFacts.parse_some in H as [-> H].
  rewrite ServiceFacts.txidMatch_prefixed.
  unfold Engine.isTxid, Engine.isPubKeyHex in H.
  destruct H as [H|H]; apply andb_true_iff in H as [Hl Hh];
    apply bool_decide_eq_true in Hl.
  - rewrite !bool_decide_eq_true_2 by exact Hl.
    rewrite (ServiceFacts.isLowerHex_isHex _ Hh). split; [reflexivity|].
    intros _. apply ServiceFacts.toLowerCase_lowerHex, Hh.
  - rewrite !bool_decide_eq_false_2 by lia. split; [reflexivity|lia].
Qed.

Lemma txidMatch_of_parsed_witness :
  ServerService.txidMatch EngineSpec.sampleDid = Some EngineSpec.sampleTxid /\
  ServerService.txidMatch ServiceSpec.legacyDid = None.
Proof.
  split.
  - exact (proj1 (txidMatch_of_parsed EngineSpec.sampleDid
                    EngineSpec.sampleTxid eq_refl)).
  - exact (proj1 (txidMatch_of_parsed ServiceSpec.legacyDid
                    DidSpec.sampleKey66 eq_refl)).
Defined.

(** X14.  Whatever spelling of a DID the pattern of the server matches,
    the txid from which the crawl starts is well formed: 64 hexadecimal
    digits in lower case, the identifier of the DID in lower case, which
    [DID.parse] accepts. *)
Theorem crawl_starts_from_wellformed_txid (did t : jsstring) :
  ServerService.txidMatch did = Some t ->
  Engine.isTxid (ServerService.toLowerCase t) = true /\
  Engine.parse (ServerService.toLowerCase did)
  = Some (ServerService.toLowerCase t).
Proof.
  intros H. apply ServiceFacts.txidMatch_some in H as (Hl & Hh & Hd & Hp).
  assert (Ht : Engine.isTxid (ServerService.toLowerCase t) = true).
  { unfold Engine.isTxid. apply andb_true_iff. split.
    - apply bool_decide_eq_true. unfold ServerService.toLowerCase.
      rewrite length_fmap. exact Hl.
    - apply ServiceFacts.toLowerCase_hex, Hh. }
  split; [exact Ht|].
  rewrite Hd. unfold ServerService.toLowerCase at 1. rewrite fmap_app, Hp.
  apply DidFacts.parse_some. split; [reflexivity|]. left. exact Ht.
Qed.

Lemma crawl_starts_from_wellformed_txid_witness :
  exists t,
    ServerService.txidMatch ServiceSpec.shoutedDid = Some t /\
    Engine.parse ServiceSpec.shoutedDid = None /\
    Engine.parse (ServerService.toLowerCase ServiceSpec.shoutedDid)
    = Some (ServerService.toLowerCase t).
Proof.
  eexists. split; [reflexivity|]. split; [reflexivity|].
  exact (proj2 (crawl_starts_from_wellformed_txid ServiceSpec.shoutedDid _
                  eq_refl)).
Defined.

Section ServiceExtras.

Context {jwk json : Type}.
Variable pubKeyToJwk : jsstring -> option jwk.
Variable JSON_parse : jsstring -> option json.
Variable truthy : json -> bool.

(** X15.  A legacy DID (66 digits), which [resolveDID] of the module
    resolves without any call, is not resolved by the server on its own:
    when the universal resolver does not answer, the server consults no
    other tier and the handler answers 404 with the ['notFound'] result. *)
Theorem legacy_did_is_404_on_server (capacity : nat)
    (configured : option ServerResolver.number) (fuel : nat)
    (env : ServerService.serviceEnv) (renv : Engine.resolveEnv)
    (w : Engine.wallet) (did id : jsstring) :
  Engine.parse did = Some id ->
  length id = 66%nat ->
  ServerService.universalAnswer env = None ->
  ServerService.resolve JSON_parse truthy capacity configured fuel env did
  = (Chain.Returned Chain.notFound, [ServerService.ToUniversalResolver]) /\
  ServerService.handle JSON_parse truthy capacity configured fuel env (Some did)
  = Some (ServerResolver.JsonResponse
            (ServerResolver.ResolutionBody Chain.notFound) 404) /\
  snd (Engine.resolveDID pubKeyToJwk JSON_parse truthy renv w did) = [].
Proof.
  intros Hp Hl Hu.
  assert (Hm : ServerService.txidMatch did = None).
  { pose proof Hp as Hp'. apply DidFacts.parse_some in Hp' as [-> _].
    rewrite ServiceFacts.txidMatch_prefixed.
    rewrite bool_decide_eq_false_2 by lia. reflexivity. }
  assert (Hr : ServerService.resolve JSON_parse truthy capacity configured fuel
                 env did
               = (Chain.Returned Chain.notFound,
                  [ServerService.ToUniversalResolver])).
  { unfold ServerService.resolve. rewrite Hu, Hm. reflexivity. }
  split; [exact Hr|]. split.
  - unfold ServerService.handle, ServerResolver.GET.
    assert (Ht : Chain.truthyString (Some did) = Some did).
    { apply DidFacts.parse_some in Hp as [-> _]. reflexivity. }
    rewrite Ht, Hr. reflexivity.
  - unfold Engine.resolveDID. rewrite Hp.
    rewrite bool_decide_eq_true_2 by exact Hl. reflexivity.
Qed.

End ServiceExtras.

Lemma legacy_did_is_404_on_server_witness :
  ServerService.handle (fun _ => None) (fun _ => true) Server.arrayLimit None 0
    ServiceSpec.unreachable (Some ServiceSpec.legacyDid)
  = Some (ServerResolver.JsonResponse
            (ServerResolver.ResolutionBody Chain.notFound) 404) /\
  snd (Engine.resolveDID DocSpec.sampleJwk (fun _ => None) (fun _ => true)
         DocSpec.offline ∅ ServiceSpec.legacyDid) = [].
Proof.
  exact (proj2 (legacy_did_is_404_on_server DocSpec.sampleJwk (fun _ => None)
                  (fun _ => true) Server.arrayLimit None 0
                  ServiceSpec.unreachable DocSpec.offline
                  ∅ ServiceSpec.legacyDid DidSpec.sampleKey66
                  eq_refl eq_refl eq_refl)).
Defined.

(* ===================================================================== *)
(** ** Further properties: the decoder of the server *)
(* ===================================================================== *)

(** X16.  On hexadecimal text, [hexToBytes] returns one entry per two
    digits (a last single digit gives an entry of its own), and every entry
    is a byte, never [NaN]. *)
Theorem hexToBytes_of_hex_text (hex : jsstring) :
  Forall DidSpec.hexDigitUnit hex ->
  length (Server.hexToBytes hex) = ((length hex + 1) / 2)%nat /\
  Forall DecoderSpec.byteNum (Server.hexToBytes hex).
Proof.
  intros H. destruct (DecoderFacts.hexToBytes_bytes hex H) as [Hb Hl].
  split; assumption.
Qed.

Lemma hexToBytes_of_hex_text_witness :
  Server.hexToBytes (lit "6aF") = [Int 106; Int 15] /\
  length (Server.hexToBytes (lit "6aF")) = 2%nat.
Proof.
  split; [reflexivity|].
  apply (hexToBytes_of_hex_text (lit "6aF")).
  apply DidFacts.Forall_hexDigit. reflexivity.
Defined.

(** X17.  The decoder of [server/did-resolver.ts] returns on every script
    of hexadecimal text in which every four-byte push length is below
    2^31 (the byte four places after a byte [0x4e] is below [0x80]); in
    particular on every script without a byte [0x4e].  The loop then ends
    within as many iterations as the script has bytes, whatever the
    capacity of an array. *)
Theorem server_decoder_returns_on_hex (capacity : nat) (hex : jsstring) :
  Forall DidSpec.hexDigitUnit hex ->
  DecoderSpec.lengthsBelow31 (Server.hexToBytes hex) ->
  is_Some (Server.parseOpReturnSegments
             (S (length (Server.hexToBytes hex))) capacity hex) /\
  exists segs, Server.returns capacity hex segs.
Proof.
  intros Hh H31.
  assert (H : is_Some (Server.parseOpReturnSegments
                         (S (length (Server.hexToBytes hex))) capacity hex)).
  { unfold Server.parseOpReturnSegments.
    destruct (_ <? _)%nat; [eexists; reflexivity|].
    destruct (_ <=? _); [eexists; reflexivity|].
    destruct (DecoderFacts.readPushes_ends capacity (Server.hexToBytes hex)
                (DecoderFacts.hexToBytes_plain hex Hh) H31
                (S (length (Server.hexToBytes hex)))
                (Server.skipToOpReturn (Server.hexToBytes hex) 0) [])
      as [[segs|] ->]; [|eexists; reflexivity|eexists; reflexivity].
    pose proof (DecoderFacts.skipToOpReturn_ge (Server.hexToBytes hex) 0). lia. }
  split; [exact H|]. destruct H as [segs H]. exists segs. eexists. exact H.
Qed.

Lemma server_decoder_returns_on_hex_witness :
  Server.returns Server.arrayLimit DecoderSpec.longPushScript
    [lit "A"; lit "B"] /\
  exists segs, Server.returns Server.arrayLimit DecoderSpec.longPushScript segs.
Proof.
  split; [exists 3%nat; at_array_limit; vm_compute; reflexivity|].
  apply (server_decoder_returns_on_hex Server.arrayLimit
           DecoderSpec.longPushScript).
  - apply DidFacts.Forall_hexDigit. vm_compute. reflexivity.
  - intros i z Hi Hz. unfold index in Hi, Hz.
    destruct (i <? 0) eqn:Ei; [discriminate|]. apply Z.ltb_ge in Ei.
    destruct (i + 4 <? 0); [discriminate|].
    replace (Z.to_nat (i + 4)) with (4 + Z.to_nat i)%nat in Hz by lia.
    destruct (Z.to_nat i) as [|[|[|[|[|[|[|[|[|n]]]]]]]]];
      vm_compute in Hi; try discriminate Hi.
    + vm_compute in Hz. injection Hz as <-. lia.
    + destruct n as [|[|[|[|n]]]]; discriminate Hi.
Defined.

(** X18.  On a script none of whose bytes is [0x6a] -- the empty string,
    text that is not hexadecimal, a script without [OP_RETURN] -- the
    decoder of [server/did-resolver.ts] returns the empty list, without
    entering its second loop. *)
Theorem server_decoder_without_op_return (capacity : nat) (hex : jsstring)
    (fuel : nat) :
  Forall (fun b => b <> Int 106) (Server.hexToBytes hex) ->
  Server.parseOpReturnSegments fuel capacity hex = Some [].
Proof.
  apply DecoderFacts.no_op_return.
Qed.

Lemma server_decoder_without_op_return_witness :
  Server.parseOpReturnSegments 0 Server.arrayLimit (lit "") = Some [] /\
  Server.parseOpReturnSegments 0 Server.arrayLimit (lit "76a914zz88ac")
  = Some [].
Proof.
  split.
  - apply (server_decoder_without_op_return Server.arrayLimit (lit "") 0).
    constructor.
  - apply (server_decoder_without_op_return Server.arrayLimit
             (lit "76a914zz88ac") 0).
    vm_compute. repeat constructor; discriminate.
Defined.

(* ===================================================================== *)
(** ** Further properties: the crawl *)
(* ===================================================================== *)

Section CrawlExtras.

Import Chain ChainSpec.

Context {json : Type}.
Variable JSON_parse : jsstring -> option json.
Variable truthy : json -> bool.

(** X19.  Where the metadata of a result without error comes from, in
    either crawl.  A deactivated result has as [versionId] the last
    transaction fetched, which carries the revocation marker.  Any other
    result has a document, and its [versionId] is the id of a fetched
    transaction from whose payload the document was parsed, [updated]
    being the time of that transaction when [toISOString] prints it (when
    it does not, the exception is caught with the document and
    [updated] keeps the value that it had). *)
Theorem crawl_result_provenance (c : crawler) (a : api) (txid : jsstring)
    (r : result json) (trace : list (jsstring * txResponse)) :
  runCrawl JSON_parse truthy c a txid = (Returned r, trace) ->
  error r = None ->
  if deactivated (didDocumentMetadata r) then
    exists t d,
      last trace = Some (t, TxOk d) /\
      payloadOf (decoderOf c) d = Some (lit "3") /\
      versionId (didDocumentMetadata r) = Some t
  else
    exists t d doc,
      (t, TxOk d) ∈ trace /\
      documentOf JSON_parse (decoderOf c) d = Some doc /\
      didDocument r = Some doc /\
      versionId (didDocumentMetadata r) = Some t /\
      (is_Some (isoTime d) ->
       updated (didDocumentMetadata r) = truthyNumber (time d)).
Proof.
  intros Hrun He.
  destruct (ChainFacts.runCrawl_cases JSON_parse truthy a c txid _ trace Hrun)
    as (o' & Hc & Ho & _).
  assert (Eo : o' = Returned r).
  { destruct Ho as [<-|(_ & _ & [= ->])]; [reflexivity|discriminate He]. }
  subst o'.
  pose proof (CrawlFacts.crawl_metadata JSON_parse truthy (decoderOf c)
                (boundedOf c) a _ _ _ _ _ Hc He) as H.
  destruct (deactivated (didDocumentMetadata r)); [exact H|].
  destruct H as [[doc Hdoc] [(t & d & Hin & H1 & H2 & H3)|(H1 & _)]].
  - exists t, d, doc. rewrite H1. auto.
  - cbn [lastDocument initial] in H1. congruence.
Qed.

(** X20.  The next transaction of the crawl is the one that the spend
    endpoint names for output 0.  Only when it names none is the history
    of the address of output 0 used, and then the next transaction is an
    entry that has not been visited and whose height no other unvisited
    entry exceeds. *)
Theorem nextHop_choice (a : api) (hop : nat) (txid : jsstring) (d : txData)
    (seen : gset jsstring) (next : jsstring) :
  nextHop a hop txid d seen = Some next ->
  truthyString (fetchSpend a hop txid) = Some next \/
  (truthyString (fetchSpend a hop txid) = None /\
   exists addr history e,
     truthyString (head (vouts d) ≫= address0) = Some addr /\
     fetchHistory a hop addr = Some history /\
     In e history /\ tx_hash e = next /\ next <> [] /\ (tx_hash e ∉ seen) /\
     forall e', In e' history -> tx_hash e' ∉ seen -> height e' <= height e).
Proof.
  unfold nextHop.
  destruct (truthyString (fetchSpend a hop txid)) as [s|]; [intros [= <-]; auto|].
  destruct (truthyString (head (vouts d) ≫= address0)) as [addr|] eqn:Ea;
    [|discriminate].
  destruct (fetchHistory a hop addr) as [history|] eqn:Eh; [|discriminate].
  intros H. right. split; [reflexivity|].
  pose proof (CrawlFacts.sortByHeight_head
                (List.filter (fun e => negb (bool_decide (tx_hash e ∈ seen)))
                   history)) as Hs.
  destruct (head (sortByHeight _)) as [e|]; [|discriminate].
  destruct Hs as [Hin Hall]. apply filter_In in Hin as [Hin Hf].
  apply negb_true_iff, bool_decide_eq_false in Hf.
  cbn [fmap option_fmap option_map] in H.
  assert (Ht : tx_hash e = next /\ next <> []).
  { destruct (tx_hash e); [discriminate|]. injection H as <-. auto. }
  exists addr, history, e.
  split; [reflexivity|]. split; [exact Eh|]. split; [exact Hin|].
  split; [apply Ht|]. split; [apply Ht|]. split; [exact Hf|].
  intros e' Hin' Hf'. rewrite List.Forall_forall in Hall. apply Hall.
  apply filter_In. split; [exact Hin'|].
  apply negb_true_iff, bool_decide_eq_false, Hf'.
Qed.

(** X21.  What the module publishes, the crawl of the server resolves and
    the crawl of the module itself does not.  Take the two scripts that
    [createDID] writes with [buildOpReturn] -- the issuance marker and the
    JSON text of the document, both with the same printable identity code
    -- served as output 1 of an issuance transaction and of the
    transaction that spends its output 0.  The crawl of
    [server/did-resolver.ts] from the issuance txid (hop limit at least 2,
    arrays that hold the scripts) returns the parsed document, with the
    document transaction as [versionId]; the crawl of [modules/did.ts],
    whose decoder reads nothing from these scripts, returns
    ['notFound']. *)
Theorem published_chain_resolves (capacity : nat)
    (configured : option ServerResolver.number) (fuel : nat)
    (identityCode documentJson txid : jsstring) (j : json) :
  CodecSpec.printable identityCode -> CodecSpec.printable documentJson ->
  identityCode <> [] -> documentJson <> [] ->
  Z.of_nat (length identityCode) < 2 ^ 31 ->
  Z.of_nat (length documentJson) < 2 ^ 31 ->
  documentJson <> lit "1" -> documentJson <> lit "2" ->
  documentJson <> lit "3" ->
  JSON_parse documentJson = Some j -> truthy j = true ->
  txid <> lit "ff" ->
  (2 <= hopLimit (ServerCrawl capacity configured fuel))%nat ->
  (length identityCode + length documentJson + 19 <= capacity)%nat ->
  exists issuance document,
    Did.buildOpReturn identityCode (lit "1") = Some issuance /\
    Did.buildOpReturn identityCode documentJson = Some document /\
    fst (runCrawl JSON_parse truthy (ServerCrawl capacity configured fuel)
           (twoStepApi (Sdk.Script_toHex issuance) (Sdk.Script_toHex document))
           txid)
    = Returned
        (Result (Some j)
           (Metadata (Some 1700000000) (Some 1700000000) false
              (Some (lit "ff")))
           None) /\
    fst (runCrawl JSON_parse truthy ModuleCrawl
           (twoStepApi (Sdk.Script_toHex issuance) (Sdk.Script_toHex document))
           txid)
    = Returned notFound.
Proof.
  intros Pc Pd Nc Nd Lc Ld D1 D2 D3 Hj Ht Hx Hhops Hcap.
  assert (Nd' : documentJson <> []) by exact Nd.
  assert (Hlen1 : (1 <= length documentJson)%nat)
    by (destruct documentJson; [congruence|cbn; lia]).
  assert (P1 : CodecSpec.printable (lit "1"))
    by (repeat constructor; cbn; lia).
  assert (L1 : Z.of_nat (length (lit "1")) < 2 ^ 31) by (cbn; lia).
  assert (C1 : (length identityCode + length (lit "1") + 19 <= capacity)%nat)
    by (change (length (lit "1")) with 1%nat; lia).
  destruct (CrawlFacts.opReturn_decodes capacity identityCode (lit "1") Pc P1
              Nc ltac:(discriminate) Lc L1 C1)
    as (s1 & B1 & N1 & Dd1 & Ds1).
  destruct (CrawlFacts.opReturn_decodes capacity identityCode documentJson
              Pc Pd Nc Nd Lc Ld Hcap) as (s2 & B2 & N2 & Dd2 & Ds2).
  exists s1, s2. split; [exact B1|]. split; [exact B2|]. split.
  - set (c := ServerCrawl capacity configured fuel) in *.
    assert (E0 : decoderOf c (lit "76a914") = []).
    { apply DecoderFacts.decode_no_op_return. vm_compute.
      repeat constructor; discriminate. }
    destruct (runCrawl JSON_parse truthy c
                (twoStepApi (Sdk.Script_toHex s1) (Sdk.Script_toHex s2)) txid)
      as [o trace] eqn:Hrun.
    destruct (ChainFacts.runCrawl_cases JSON_parse truthy _ c txid o trace Hrun)
      as (o' & Hc & Ho & _).
    destruct (hopLimit c) as [|[|n]] eqn:El; [lia|lia|].
    pose proof (CrawlFacts.crawl_two_steps JSON_parse truthy (decoderOf c)
                  (boundedOf c) n _ _ txid identityCode documentJson j E0 Ds1
                  Ds2 N1 N2 D1 D2 D3 Hj Ht Hx) as H2.
    rewrite Hc in H2. cbn [fst] in H2 |- *. subst o'.
    destruct Ho as [->|(E & _)]; [reflexivity|discriminate E].
  - set (c := ModuleCrawl) in *.
    assert (E0 : decoderOf c (lit "76a914") = [])
      by (vm_compute; reflexivity).
    destruct (runCrawl JSON_parse truthy c
                (twoStepApi (Sdk.Script_toHex s1) (Sdk.Script_toHex s2)) txid)
      as [o trace] eqn:Hrun.
    destruct (ChainFacts.runCrawl_cases JSON_parse truthy _ c txid o trace Hrun)
      as (o' & Hc & Ho & _).
    pose proof (CrawlFacts.crawl_two_steps_blind JSON_parse truthy (decoderOf c)
                  (boundedOf c) 98 _ _ txid E0 Dd1 Dd2 N1 N2 Hx) as H2.
    change (S (S 98)) with (hopLimit c) in H2.
    rewrite Hc in H2. cbn [fst] in H2 |- *. subst o'.
    destruct Ho as [->|(_ & E & _)]; [reflexivity|discriminate E].
Qed.

End CrawlExtras.

Lemma crawl_result_provenance_witness :
  exists r trace t d,
    ChainSpec.runCrawl ChainSpec.parseObject (fun _ => true)
      ChainSpec.serverCrawl
      (ChainSpec.twoStepApi ChainSpec.issuanceScript ChainSpec.documentScript)
      ChainSpec.startTxid = (Chain.Returned r, trace) /\
    (t, Chain.TxOk d) ∈ trace /\
    Chain.versionId (Chain.didDocumentMetadata r) = Some t /\
    t = lit "ff".
Proof.
  destruct (ChainSpec.runCrawl ChainSpec.parseObject (fun _ => true)
              ChainSpec.serverCrawl
              (ChainSpec.twoStepApi ChainSpec.issuanceScript
                 ChainSpec.documentScript)
              ChainSpec.startTxid) as [o trace] eqn:E.
  assert (Er : o = Chain.Returned
                     (Chain.Result (Some (lit "{}"))
                        (Chain.Metadata (Some 1700000000) (Some 1700000000)
                           false (Some (lit "ff")))
                        None)).
  { revert E. unfold ChainSpec.serverCrawl. at_array_limit.
    intros E. vm_compute in E. injection E as <- _. reflexivity. }
  destruct o as [r| |]; try discriminate Er.
  injection Er as Er.
  assert (He : Chain.error r = None) by (rewrite Er; reflexivity).
  assert (Hd : Chain.deactivated (Chain.didDocumentMetadata r) = false)
    by (rewrite Er; reflexivity).
  pose proof (crawl_result_provenance ChainSpec.parseObject (fun _ => true)
                _ _ _ _ _ E He) as H.
  rewrite Hd in H. destruct H as (t & d & doc & Hin & _ & _ & Hv & _).
  exists r, trace, t, d. split; [reflexivity|]. split; [exact Hin|].
  split; [exact Hv|]. rewrite Er in Hv. cbn in Hv.
  injection Hv as <-. reflexivity.
Defined.

Lemma nextHop_choice_witness :
  Chain.nextHop HopSpec.historyApi 0 (lit "00") HopSpec.historyTx
    {[ lit "00"; lit "bb" ]} = Some (lit "cc") /\
  exists e,
    Chain.tx_hash e = lit "cc" /\ Chain.height e = 7 /\
    forall e',
      In e' [Chain.HistoryEntry (lit "aa") 5; Chain.HistoryEntry (lit "bb") 9;
             Chain.HistoryEntry (lit "cc") 7] ->
      Chain.tx_hash e' ∉ ({[ lit "00"; lit "bb" ]} : gset jsstring) ->
      Chain.height e' <= Chain.height e.
Proof.
  assert (E : Chain.nextHop HopSpec.historyApi 0 (lit "00") HopSpec.historyTx
                {[ lit "00"; lit "bb" ]} = Some (lit "cc"))
    by (vm_compute; reflexivity).
  split; [exact E|].
  destruct (nextHop_choice _ _ _ _ _ _ E)
    as [H|(_ & addr & history & e & _ & Hh & Hin & Ht & _ & _ & Hmax)];
    [discriminate H|].
  injection Hh as <-. exists e. split; [exact Ht|]. split; [|exact Hmax].
  destruct Hin as [<-|[<-|[<-|[]]]]; [discriminate Ht|discriminate Ht|reflexivity].
Defined.

Lemma published_chain_resolves_witness :
  exists issuance document,
    Did.buildOpReturn (lit "code-1") (lit "1") = Some issuance /\
    Did.buildOpReturn (lit "code-1") (lit "{}") = Some document /\
    fst (ChainSpec.runCrawl ChainSpec.parseObject (fun _ => true)
           ChainSpec.serverCrawl
           (ChainSpec.twoStepApi (Sdk.Script_toHex issuance)
              (Sdk.Script_toHex document))
           ChainSpec.startTxid)
    = Chain.Returned
        (Chain.Result (Some (lit "{}"))
           (Chain.Metadata (Some 1700000000) (Some 1700000000) false
              (Some (lit "ff")))
           None) /\
    fst (ChainSpec.runCrawl ChainSpec.parseObject (fun _ => true)
           ChainSpec.ModuleCrawl
           (ChainSpec.twoStepApi (Sdk.Script_toHex issuance)
              (Sdk.Script_toHex document))
           ChainSpec.startTxid)
    = Chain.Returned Chain.notFound.
Proof.
  apply (published_chain_resolves ChainSpec.parseObject (fun _ => true)
           Server.arrayLimit None 0 (lit "code-1") (lit "{}")
           ChainSpec.startTxid (lit "{}")).
  - repeat constructor; cbn; lia.
  - repeat constructor; cbn; lia.
  - discriminate.
  - discriminate.
  - cbn; lia.
  - cbn; lia.
  - discriminate.
  - discriminate.
  - discriminate.
  - reflexivity.
  - reflexivity.
  - discriminate.
  - change (2 <= 100)%nat. lia.
  - transitivity 256%nat; [vm_compute; lia|].
    rewrite CodecFacts.arrayLimit_split. lia.
Defined.
